(** * Swipe Card Lite: a shallow embedding of the carousel widget

    The widget ([class SwipeCardLite], version 2.2.2) is a custom element
    whose instance fields are mutated by event handlers, timers,
    animation-frame callbacks and an asynchronous build.  The embedding
    keeps the instance fields under their own names in one record,
    [World], next to the part of the browser the handlers talk to (shadow
    DOM, pending timers, pending animation frames, the clock, the calls
    made to the host).  Every method is a function on [World]; every
    callback the source passes to [setTimeout] or [requestAnimationFrame]
    is a constructor of [Callback], run later by the event that fires it;
    the [async] build is a coroutine that is resumed one [await] at a time.

    Numbers.  Indices, pixel sizes, timestamps and configuration numbers
    are integers ([Z]), scroll offsets are rationals ([Q]).  Where the
    source divides or subtracts numbers that are no integers, the result
    is rounded to the nearest double as JavaScript rounds it ([double]);
    the integer the editor parses is rounded the same way
    ([Editor.nearestDouble]), and the delay of a timer is reduced to 32
    bits as the browser does ([toLong]).  Integers are exact, as they
    are in JavaScript up to 2^53.

    The browser.  Layout, scroll offsets, the passing of time and the
    order in which pending work runs are chosen by the environment, as
    events.  An offset the widget writes to the scroller is kept as
    written until the next scroll event reports another one; the
    browser's own clamping of offsets is not modelled.  Console output
    and style sheets are left out.

    Elements.  Cards are objects shared between [_cards] and
    [_allSlideCards]; the model keeps them in a store, [nodes], and the
    two lists hold their indices in it. *)

From Stdlib Require Import ZArith QArith Qround Qabs Lqa String Ascii List Lia.
From stdpp Require Import base option gmap strings list.
Import ListNotations.
Open Scope Z_scope.

(** ** JavaScript primitives used by the widget *)

Module JS.

(** What a statement can complete with: normally, or by [throw]. *)
Inductive Completion (A : Type) : Type :=
| Normal (a : A)
| Throw (message : string).
Arguments Normal {A} a.
Arguments Throw {A} message.

(** The values the [cards] property of a configuration object can hold. *)
Inductive Value (A : Type) : Type :=
| Undefined
| Null
| Boolean (b : bool)
| Number (n : Z)
| Str (s : string)
| Object
| Array (items : list A).
Arguments Undefined {A}.
Arguments Null {A}.
Arguments Boolean {A} b.
Arguments Number {A} n.
Arguments Str {A} s.
Arguments Object {A}.
Arguments Array {A} items.

(** [ToBoolean]. *)
Definition truthy {A} (v : Value A) : bool :=
  match v with
  | Undefined | Null => false
  | Boolean b => b
  | Number n => negb (n =? 0)
  | Str s => negb (String.eqb s "")
  | Object | Array _ => true
  end.

Definition Array_isArray {A} (v : Value A) : bool :=
  match v with
  | Array _ => true
  | _ => false
  end.

(** [s] as a condition: the empty string is falsy. *)
Definition truthy_string (s : string) : bool := negb (String.eqb s "").

(** [x || d] on numbers: [0] is falsy. *)
Definition or_default (x d : Z) : Z := if x =? 0 then d else x.

(** [Math.round]: the nearest integer, halves towards plus infinity. *)
Definition Math_round (x : Q) : Z := Qfloor (x + (1 # 2))%Q.

(** The integer nearest to the non-negative rational [n / d], ties to
    the even one. *)
Definition roundHalfEven (n d : Z) : Z :=
  let q := n / d in
  let r := n mod d in
  if 2 * r <? d then q
  else if d <? 2 * r then q + 1
  else if Z.even q then q else q + 1.

(** The binary exponent of [a / d], for positive [a] and [d]: the
    largest [k] with [2 ^ k <= a / d]. *)
Definition exponentOf (a d : Z) : Z :=
  let k := Z.log2 a - Z.log2 d in
  if (if 0 <=? k then d * 2 ^ k <=? a else d <=? a * 2 ^ (- k)) then k else k - 1.

(** The Number a real result becomes: the double nearest to it, with a
    significand of 53 bits (fewer below 2^-1022, where the exponent
    stays at -1074), ties to the even significand.  Results as large as
    2^1024, which become [Infinity], are outside the model: the quotients
    the widget computes divide a scroll offset by a width of at least one
    pixel. *)
Definition double (x : Q) : Q :=
  let n := Qnum x in
  let d := Z.pos (Qden x) in
  if n =? 0 then 0%Q
  else
    let a := Z.abs n in
    let e := Z.max (exponentOf a d - 52) (-1074) in
    let magnitude :=
      if 0 <=? e
      then inject_Z (roundHalfEven a (d * 2 ^ e) * 2 ^ e)
      else Qmake (roundHalfEven (a * 2 ^ (- e)) d) (Z.to_pos (2 ^ (- e))) in
    if 0 <? n then magnitude else (- magnitude)%Q.

Definition Math_max (a b : Z) : Z := Z.max a b.
Definition Math_min (a b : Z) : Z := Z.min a b.

(** [x < y] and [x > y] on rationals, as booleans. *)
Definition Qltb (x y : Q) : bool := negb (Qle_bool y x).

(** Leading white space as [parseInt] skips it ([StrWhiteSpaceChar]).
    Strings are byte strings; the white space outside ASCII appears in
    its UTF-8 encoding. *)
Fixpoint trimStart (s : string) : string :=
  match s with
  | String a r =>
      let n := nat_of_ascii a in
      if ((n =? 9) || (n =? 10) || (n =? 11) || (n =? 12) || (n =? 13) || (n =? 32))%nat
      then trimStart r
      else
        match r with
        | String b r1 =>
            let m := nat_of_ascii b in
            if ((n =? 194) && (m =? 160))%nat then trimStart r1 (* U+00A0 *)
            else
              match r1 with
              | String c r2 =>
                  let k := nat_of_ascii c in
                  if ((n =? 225) && (m =? 154) && (k =? 128)            (* U+1680 *)
                      || (n =? 226) && (m =? 128) && (128 <=? k) && (k <=? 138) (* U+2000..200A *)
                      || (n =? 226) && (m =? 128) && ((k =? 168) || (k =? 169) || (k =? 175))
                      || (n =? 226) && (m =? 129) && (k =? 159)         (* U+205F *)
                      || (n =? 227) && (m =? 128) && (k =? 128)         (* U+3000 *)
                      || (n =? 239) && (m =? 187) && (k =? 191))%nat    (* U+FEFF *)
                  then trimStart r2
                  else s
              | EmptyString => s
              end
        | EmptyString => s
        end
  | EmptyString => s
  end.

Definition digit (a : ascii) : option Z :=
  let n := nat_of_ascii a in
  if ((48 <=? n) && (n <=? 57))%nat then Some (Z.of_nat n - 48) else None.

(** The longest prefix of decimal digits, as a number; [acc] is [None]
    as long as no digit was read. *)
Fixpoint digits (s : string) (acc : option Z) : option Z :=
  match s with
  | String a r =>
      match digit a with
      | Some d => digits r (Some (10 * default 0 acc + d))
      | None => acc
      end
  | EmptyString => acc
  end.

(** [parseInt(s, 10)]; [None] is [NaN]. *)
Definition parseInt (s : string) : option Z :=
  match trimStart s with
  | String "-" r => Z.opp <$> digits r None
  | String "+" r => digits r None
  | t => digits t None
  end.

(** [parseInt(x, 10)] where [x] may be [undefined]: ["undefined"] has no
    digits. *)
Definition parseInt_opt (x : option string) : option Z := x ≫= parseInt.

End JS.
Import JS.

(** ** Configuration *)

(** A child description.  The widget never looks inside one; it hands it
    to the host's card factory.  The fields are those of [getStubConfig]. *)
Record CardConfig := {
  type : string;
  content : string;
}.

(** The object handed to [setConfig]: every option may be absent. *)
Record RawConfig := {
  raw_cards : Value CardConfig;
  raw_show_pagination : option bool;
  raw_start_card : option Z;
  raw_loop_mode : option string;
  raw_state_entity : option string;
  raw_auto_hide_pagination : option Z;
  raw_enable_reset_after : option bool;
  raw_reset_after_timeout : option Z;
  raw_reset_target_card : option Z;
  raw_slide_width : option string;
  raw_slide_height : option string;
  raw_slide_padding : option string;
  raw_slide_gap : option string;
  raw_show_version : option bool;
  raw_border_radius : option string;
  raw_auto_reset_enabled_entity : option string;
}.

(** [this._config], as [setConfig] builds it. *)
Record Config := {
  cards : list CardConfig;
  show_pagination : bool;
  start_card : Z;
  loop_mode : string;
  state_entity : option string;
  auto_hide_pagination : Z;
  enable_reset_after : bool;
  reset_after_timeout : Z;
  reset_target_card : Z;
  slide_width : option string;
  slide_height : option string;
  slide_padding : option string;
  slide_gap : option string;
  show_version : bool;
  border_radius : option string;
  auto_reset_enabled_entity : option string;
}.

(** ** The host context *)

(** [hass.states[entity].state]: the state string of each known entity. *)
Record Hass := {
  states : gmap string string;
}.

(** [hass.callService(domain, service, { entity_id, value })]. *)
Record ServiceCall := {
  domain : string;
  service : string;
  entity_id : string;
  value : Z;
}.

(** ** Elements *)

(** What the card factory answers for a description: an element, or a
    rejection with the error's message. *)
Inductive Outcome :=
| Resolved
| Rejected (message : string).

(** [helpers.createCardElement]; its argument is [None] when the widget
    reads a description past the end of the list. *)
Definition Helpers := option CardConfig -> Outcome.

(** An element of the document: a card the factory made from a
    description, with the context it was last given, or the [ha-card] the
    build puts in place of a card that failed. *)
Inductive CardElement :=
| Created (description : option CardConfig) (hass : option Hass)
| ErrorCard (innerHTML : string).

Definition dquote : string := String (ascii_of_nat 34) EmptyString.

(** The markup of the placeholder: it carries the error's message. *)
Definition errorHTML (message : string) : string :=
  "<div style=" ++ dquote ++ "padding: 16px; color: var(--error-color);" ++ dquote
    ++ ">Error: " ++ message ++ "</div>".

(** ** The shadow DOM *)

(** One [.slide] box: the card mounted in it and the geometry the layout
    engine gave it. *)
Record Slide := {
  child : option nat;
  offsetLeft : Z;
  offsetWidth : Z;
}.

(** The [#pagination] element: its classes and, per dot, whether it is
    [active]. *)
Record Pagination := {
  hidden : bool;
  scrolling : bool;
  dots : list bool;
}.

(** What [_render] writes into the shadow root. *)
Record ShadowRoot := {
  slides : list Slide;
  scrollLeft : Q;
  snap_enabled : bool;
  scrollTo_request : option (Z * bool);
  pagination : option Pagination;
  version_overlay : bool;
}.

(** ** Callbacks and the build coroutine *)

(** The closures the source hands to [requestAnimationFrame] and
    [setTimeout], one constructor per closure. *)
Inductive Callback :=
| SetInitialPosition (startDomIndex : Z)   (* _render, line 361 *)
| EnableSnap                               (* _render, line 366 *)
| HandleScrollFrame                        (* _handleScroll, line 430 *)
| ScrollEnd                                (* _handleScroll, line 465: 150 ms *)
| ClearUserScrolling                       (* _onScrollEnd, line 521: 500 ms *)
| JumpFrame1                               (* _jumpToSlide, line 543 *)
| JumpFrame2                               (* _jumpToSlide, line 544 *)
| RetryGoTo (realIndex : Z) (smooth : bool) (* _goToRealIndex, line 583: 50 ms *)
| HidePagination                           (* _startPaginationHideTimer, line 666 *)
| ResetFires.                              (* _resetResetTimer, line 681 *)

Record Timeout := {
  timer_id : nat;
  due : Z;
  callback : Callback;
}.

(** Where a suspended [_buildCards] waits. *)
Inductive BuildPc :=
| AwaitHelpers                                          (* line 135 *)
| AwaitCard (cardConfig : CardConfig) (rest : list CardConfig) (* line 144 *)
| AwaitCloneOfLast (lastCardConfig : option CardConfig) (* line 170 *)
| AwaitCloneOfFirst (cloneOfLast : nat) (firstCardConfig : option CardConfig). (* line 175 *)

Record Build := {
  thisBuildId : Z;
  pc : BuildPc;
}.

(** ** The widget and its page *)

Record World := {
  (* the instance fields, as the constructor declares them *)
  _config : option Config;
  _hass : option Hass;
  _cards : list nat;
  _allSlideCards : list nat;
  _currentIndex : Z;
  _realIndex : Z;
  _initialized : bool;
  _scrollTimeout : option nat;
  _resetTimeout : option nat;
  _paginationHideTimeout : option nat;
  _stateUpdateInProgress : bool;
  _buildId : Z;
  _isInfiniteMode : bool;
  _jumping : bool;
  _userScrolling : bool;
  _scrollSettleTimeout : option nat;
  _rafPending : bool;
  _cachedPagination : bool;
  _cachedScroller : bool;
  _lastSyncedValue : option Z;
  _syncedAt : Z;
  (* the page around it *)
  shadowRoot : option ShadowRoot;
  nodes : list CardElement;
  rafQueue : list Callback;
  timeouts : list Timeout;
  nextTimer : nat;
  now : Z;
  serviceCalls : list ServiceCall;
  builds : list Build;
}.

(** The state the constructor leaves, on a page whose clock reads [t]. *)
Definition constructor (t : Z) : World := {|
  _config := None;
  _hass := None;
  _cards := [];
  _allSlideCards := [];
  _currentIndex := 0;
  _realIndex := 0;
  _initialized := false;
  _scrollTimeout := None;
  _resetTimeout := None;
  _paginationHideTimeout := None;
  _stateUpdateInProgress := false;
  _buildId := 0;
  _isInfiniteMode := false;
  _jumping := false;
  _userScrolling := false;
  _scrollSettleTimeout := None;
  _rafPending := false;
  _cachedPagination := false;
  _cachedScroller := false;
  _lastSyncedValue := None;
  _syncedAt := 0;
  shadowRoot := None;
  nodes := [];
  rafQueue := [];
  timeouts := [];
  nextTimer := 1;
  now := t;
  serviceCalls := [];
  builds := [];
|}.

(** *** Field assignment

    [w <| f := v |>] is [w] with field [f] set to [v].  Each setter is read
    off the record's eta expansion by abstracting the projection. *)

Class Setter {R T : Type} (proj : R -> T) := setter : T -> R -> R.
Arguments setter {R T proj Setter} _ _ /.

Notation "w <| f := v |>" := (setter (proj := f) v w)
  (at level 1, f at level 9, left associativity, format "w  <| f  :=  v |>").

Ltac mk_setter eta proj :=
  let e := eval cbv delta [eta] in eta in
  let p := eval pattern proj in e in
  lazymatch p with
  | ?F _ => let r := eval cbv beta in (fun v => F (fun _ => v)) in exact r
  end.

Definition World_eta (w : World) : World := {|
  _config := _config w;
  _hass := _hass w;
  _cards := _cards w;
  _allSlideCards := _allSlideCards w;
  _currentIndex := _currentIndex w;
  _realIndex := _realIndex w;
  _initialized := _initialized w;
  _scrollTimeout := _scrollTimeout w;
  _resetTimeout := _resetTimeout w;
  _paginationHideTimeout := _paginationHideTimeout w;
  _stateUpdateInProgress := _stateUpdateInProgress w;
  _buildId := _buildId w;
  _isInfiniteMode := _isInfiniteMode w;
  _jumping := _jumping w;
  _userScrolling := _userScrolling w;
  _scrollSettleTimeout := _scrollSettleTimeout w;
  _rafPending := _rafPending w;
  _cachedPagination := _cachedPagination w;
  _cachedScroller := _cachedScroller w;
  _lastSyncedValue := _lastSyncedValue w;
  _syncedAt := _syncedAt w;
  shadowRoot := shadowRoot w;
  nodes := nodes w;
  rafQueue := rafQueue w;
  timeouts := timeouts w;
  nextTimer := nextTimer w;
  now := now w;
  serviceCalls := serviceCalls w;
  builds := builds w;
|}.

#[global] Instance setter_config : Setter _config := ltac:(mk_setter World_eta _config).
Arguments setter_config _ _ /.
#[global] Instance setter_hass : Setter _hass := ltac:(mk_setter World_eta _hass).
Arguments setter_hass _ _ /.
#[global] Instance setter_cards : Setter _cards := ltac:(mk_setter World_eta _cards).
Arguments setter_cards _ _ /.
#[global] Instance setter_allSlideCards : Setter _allSlideCards := ltac:(mk_setter World_eta _allSlideCards).
Arguments setter_allSlideCards _ _ /.
#[global] Instance setter_currentIndex : Setter _currentIndex := ltac:(mk_setter World_eta _currentIndex).
Arguments setter_currentIndex _ _ /.
#[global] Instance setter_realIndex : Setter _realIndex := ltac:(mk_setter World_eta _realIndex).
Arguments setter_realIndex _ _ /.
#[global] Instance setter_initialized : Setter _initialized := ltac:(mk_setter World_eta _initialized).
Arguments setter_initialized _ _ /.
#[global] Instance setter_scrollTimeout : Setter _scrollTimeout := ltac:(mk_setter World_eta _scrollTimeout).
Arguments setter_scrollTimeout _ _ /.
#[global] Instance setter_resetTimeout : Setter _resetTimeout := ltac:(mk_setter World_eta _resetTimeout).
Arguments setter_resetTimeout _ _ /.
#[global] Instance setter_paginationHideTimeout : Setter _paginationHideTimeout := ltac:(mk_setter World_eta _paginationHideTimeout).
Arguments setter_paginationHideTimeout _ _ /.
#[global] Instance setter_stateUpdateInProgress : Setter _stateUpdateInProgress := ltac:(mk_setter World_eta _stateUpdateInProgress).
Arguments setter_stateUpdateInProgress _ _ /.
#[global] Instance setter_buildId : Setter _buildId := ltac:(mk_setter World_eta _buildId).
Arguments setter_buildId _ _ /.
#[global] Instance setter_isInfiniteMode : Setter _isInfiniteMode := ltac:(mk_setter World_eta _isInfiniteMode).
Arguments setter_isInfiniteMode _ _ /.
#[global] Instance setter_jumping : Setter _jumping := ltac:(mk_setter World_eta _jumping).
Arguments setter_jumping _ _ /.
#[global] Instance setter_userScrolling : Setter _userScrolling := ltac:(mk_setter World_eta _userScrolling).
Arguments setter_userScrolling _ _ /.
#[global] Instance setter_scrollSettleTimeout : Setter _scrollSettleTimeout := ltac:(mk_setter World_eta _scrollSettleTimeout).
Arguments setter_scrollSettleTimeout _ _ /.
#[global] Instance setter_rafPending : Setter _rafPending := ltac:(mk_setter World_eta _rafPending).
Arguments setter_rafPending _ _ /.
#[global] Instance setter_cachedPagination : Setter _cachedPagination := ltac:(mk_setter World_eta _cachedPagination).
Arguments setter_cachedPagination _ _ /.
#[global] Instance setter_cachedScroller : Setter _cachedScroller := ltac:(mk_setter World_eta _cachedScroller).
Arguments setter_cachedScroller _ _ /.
#[global] Instance setter_lastSyncedValue : Setter _lastSyncedValue := ltac:(mk_setter World_eta _lastSyncedValue).
Arguments setter_lastSyncedValue _ _ /.
#[global] Instance setter_syncedAt : Setter _syncedAt := ltac:(mk_setter World_eta _syncedAt).
Arguments setter_syncedAt _ _ /.
#[global] Instance setter_shadowRoot : Setter shadowRoot := ltac:(mk_setter World_eta shadowRoot).
Arguments setter_shadowRoot _ _ /.
#[global] Instance setter_nodes : Setter nodes := ltac:(mk_setter World_eta nodes).
Arguments setter_nodes _ _ /.
#[global] Instance setter_rafQueue : Setter rafQueue := ltac:(mk_setter World_eta rafQueue).
Arguments setter_rafQueue _ _ /.
#[global] Instance setter_timeouts : Setter timeouts := ltac:(mk_setter World_eta timeouts).
Arguments setter_timeouts _ _ /.
#[global] Instance setter_nextTimer : Setter nextTimer := ltac:(mk_setter World_eta nextTimer).
Arguments setter_nextTimer _ _ /.
#[global] Instance setter_now : Setter now := ltac:(mk_setter World_eta now).
Arguments setter_now _ _ /.
#[global] Instance setter_serviceCalls : Setter serviceCalls := ltac:(mk_setter World_eta serviceCalls).
Arguments setter_serviceCalls _ _ /.
#[global] Instance setter_builds : Setter builds := ltac:(mk_setter World_eta builds).
Arguments setter_builds _ _ /.

Definition ShadowRoot_eta (d : ShadowRoot) : ShadowRoot := {|
  slides := slides d;
  scrollLeft := scrollLeft d;
  snap_enabled := snap_enabled d;
  scrollTo_request := scrollTo_request d;
  pagination := pagination d;
  version_overlay := version_overlay d;
|}.

#[global] Instance setter_slides : Setter slides := ltac:(mk_setter ShadowRoot_eta slides).
Arguments setter_slides _ _ /.
#[global] Instance setter_scrollLeft : Setter scrollLeft := ltac:(mk_setter ShadowRoot_eta scrollLeft).
Arguments setter_scrollLeft _ _ /.
#[global] Instance setter_snap_enabled : Setter snap_enabled := ltac:(mk_setter ShadowRoot_eta snap_enabled).
Arguments setter_snap_enabled _ _ /.
#[global] Instance setter_scrollTo_request : Setter scrollTo_request := ltac:(mk_setter ShadowRoot_eta scrollTo_request).
Arguments setter_scrollTo_request _ _ /.
#[global] Instance setter_pagination : Setter pagination := ltac:(mk_setter ShadowRoot_eta pagination).
Arguments setter_pagination _ _ /.

Definition Pagination_eta (p : Pagination) : Pagination := {|
  hidden := hidden p;
  scrolling := scrolling p;
  dots := dots p;
|}.

#[global] Instance setter_hidden : Setter hidden := ltac:(mk_setter Pagination_eta hidden).
Arguments setter_hidden _ _ /.
#[global] Instance setter_scrolling : Setter scrolling := ltac:(mk_setter Pagination_eta scrolling).
Arguments setter_scrolling _ _ /.
#[global] Instance setter_dots : Setter dots := ltac:(mk_setter Pagination_eta dots).
Arguments setter_dots _ _ /.

(** ** Browser services *)

(** The delay of a timer as the browser takes it.  The argument of
    [setTimeout] is a WebIDL [long]: the number is reduced modulo 2^32
    into the signed 32-bit range, so that a delay from 0 to 2^31 - 1 is
    kept, 2^31 becomes -2^31 and 2^32 + 5 becomes 5. *)
Definition toLong (delay : Z) : Z := (delay + 2 ^ 31) mod 2 ^ 32 - 2 ^ 31.

(** [setTimeout(cb, delay)]: a fresh, non-zero id and the timer pending;
    it is due after the delay as a [long], a negative one counting as 0. *)
Definition setTimeout (cb : Callback) (delay : Z) (w : World) : nat * World :=
  (nextTimer w,
   w <| timeouts := timeouts w ++
          [{| timer_id := nextTimer w; due := now w + Z.max 0 (toLong delay);
              callback := cb |}] |>
     <| nextTimer := S (nextTimer w) |>).

(** [if (id) clearTimeout(id)]: a pending timer is dropped; an id that
    already fired, or [null], changes nothing. *)
Definition clearTimeout (id : option nat) (w : World) : World :=
  match id with
  | Some i => w <| timeouts := filter (fun t => timer_id t <> i) (timeouts w) |>
  | None => w
  end.

Definition requestAnimationFrame (cb : Callback) (w : World) : World :=
  w <| rafQueue := rafQueue w ++ [cb] |>.

(** A write to the scroller element, through a reference the closure or
    the method already holds. *)
Definition with_scroller (f : ShadowRoot -> ShadowRoot) (w : World) : World :=
  w <| shadowRoot := f <$> shadowRoot w |>.

(** A write to [this._cachedPagination], guarded as in the source by
    [if (pagination)]. *)
Definition with_pagination (f : Pagination -> Pagination) (w : World) : World :=
  if _cachedPagination w
  then with_scroller (fun d => d <| pagination := f <$> pagination d |>) w
  else w.

(** [scroller.scrollTo({ left, behavior })].  An instant scroll moves the
    offset; a smooth one is animated by the browser, which reports it
    through later scroll events. *)
Definition scrollTo (left : Z) (smooth : bool) (w : World) : World :=
  with_scroller
    (fun d =>
       let d := d <| scrollTo_request := Some (left, smooth) |> in
       if smooth then d else d <| scrollLeft := inject_Z left |>)
    w.

Definition callService (c : ServiceCall) (w : World) : World :=
  w <| serviceCalls := serviceCalls w ++ [c] |>.

(** ** Index translation *)

(** [this._cards.length]. *)
Definition cards_length (w : World) : Z := Z.of_nat (length (_cards w)).

(** Lines 574-577: the DOM index of a real index. *)
Definition domIndexOf (infinite : bool) (realIndex : Z) : Z :=
  if infinite then realIndex + 1 else realIndex.

(** Lines 453 and 570: [Math.max(0, Math.min(realIndex, N - 1))]. *)
Definition clampReal (N realIndex : Z) : Z :=
  Math_max 0 (Math_min realIndex (N - 1)).

(** Lines 451-453: the real index of a DOM index, clamped. *)
Definition realIndexOf (infinite : bool) (N domIndex : Z) : Z :=
  clampReal N (if infinite then domIndex - 1 else domIndex).

(** ** Methods

    A method that reads [this._config] runs only after [setConfig]; on a
    world without configuration the source would raise a [TypeError], and
    the model leaves the world as it is. *)

(** [_getSlideWidth], lines 407-417. *)
Definition _getSlideWidth (w : World) : Z :=
  match shadowRoot w with
  | None => 0
  | Some d =>
      match slides d with
      | [] => 0
      | [s] => offsetWidth s
      | s0 :: s1 :: _ => offsetLeft s1 - offsetLeft s0
      end
  end.

(** [_updatePagination], lines 558-563. *)
Definition _updatePagination (w : World) : World :=
  with_pagination
    (fun p => p <| dots := imap (fun i _ => Z.of_nat i =? _realIndex w) (dots p) |>) w.

(** [_isAutoResetEnabled], lines 98-103. *)
Definition _isAutoResetEnabled (w : World) : bool :=
  match _config w ≫= auto_reset_enabled_entity with
  | None => true
  | Some entity =>
      if negb (truthy_string entity) then true
      else
        match _hass w ≫= (fun h => states h !! entity) with
        | Some state => String.eqb state "on"
        | None => false
        end
  end.

(** [_goToRealIndex], lines 565-594. *)
Definition _goToRealIndex (realIndex : Z) (smooth : bool) (w : World) : World :=
  if negb (_cachedScroller w) then w
  else
    let realIndex := clampReal (cards_length w) realIndex in
    let w := w <| _realIndex := realIndex |> in
    let domIndex := domIndexOf (_isInfiniteMode w) realIndex in
    let slideWidth := _getSlideWidth w in
    if slideWidth =? 0 then snd (setTimeout (RetryGoTo realIndex smooth) 50 w)
    else
      let w := scrollTo (domIndex * slideWidth) smooth w in
      let w := w <| _currentIndex := domIndex |> in
      _updatePagination w.

(** Lines 644-645: the memo of what is about to be written. *)
Definition recordSync (targetValue : Z) (w : World) : World :=
  w <| _lastSyncedValue := Some targetValue |> <| _syncedAt := now w |>.

(** [_syncToStateEntity], lines 634-652. *)
Definition _syncToStateEntity (w : World) : World :=
  match _config w with
  | None => w
  | Some c =>
      match state_entity c, _hass w with
      | Some entity, Some hass =>
          if negb (truthy_string entity) then w
          else if String.prefix "input_number." entity then
            let targetValue := _realIndex w + 1 in
            let currentState := states hass !! entity in
            if bool_decide (parseInt_opt currentState = Some targetValue) then w
            else
              let w := recordSync targetValue w in
              callService {| domain := "input_number"; service := "set_value";
                             entity_id := entity; value := targetValue |} w
          else w
      | _, _ => w
      end
  end.

(** [_syncFromStateEntity], lines 598-632. *)
Definition _syncFromStateEntity (oldHass : option Hass) (newHass : Hass) (w : World) : World :=
  match _config w with
  | None => w
  | Some c =>
      match state_entity c with
      | None => w
      | Some entity =>
          if negb (truthy_string entity) then w
          else if _userScrolling w then w
          else
            match states newHass !! entity with
            | None => w
            | Some newState =>
                if negb (truthy_string newState) then w
                else
                  match parseInt newState with
                  | None => w
                  | Some stateValue =>
                      let targetIndex :=
                        if String.prefix "input_number." entity
                        then stateValue - 1 else stateValue in
                      if (targetIndex <? 0) || (targetIndex >=? cards_length w) then w
                      else if targetIndex =? _realIndex w then w
                      else if bool_decide (_lastSyncedValue w = Some stateValue)
                              && (now w - _syncedAt w <? 2000) then w
                      else
                        let w := w <| _stateUpdateInProgress := true |> in
                        let w := _goToRealIndex targetIndex true w in
                        w <| _stateUpdateInProgress := false |>
                  end
            end
      end
  end.

(** [_showPagination], lines 656-660. *)
Definition _showPagination (w : World) : World :=
  let w := with_pagination (fun p => p <| hidden := false |>) w in
  clearTimeout (_paginationHideTimeout w) w.

(** [_startPaginationHideTimer], lines 662-670. *)
Definition _startPaginationHideTimer (w : World) : World :=
  match _config w with
  | None => w
  | Some c =>
      if auto_hide_pagination c <=? 0 then w
      else
        let w := clearTimeout (_paginationHideTimeout w) w in
        let '(id, w) := setTimeout HidePagination (auto_hide_pagination c) w in
        w <| _paginationHideTimeout := Some id |>
  end.

(** [_resetResetTimer], lines 674-691, up to the timer it arms. *)
Definition _resetResetTimer (w : World) : World :=
  match _config w with
  | None => w
  | Some c =>
      if negb (enable_reset_after c) then w
      else
        let w := clearTimeout (_resetTimeout w) w in
        if negb (_isAutoResetEnabled w) then w
        else
          let '(id, w) := setTimeout ResetFires (reset_after_timeout c) w in
          w <| _resetTimeout := Some id |>
  end.

(** The timer's closure, lines 681-690. *)
Definition resetFires (w : World) : World :=
  match _config w with
  | None => w
  | Some c =>
      if negb (_isAutoResetEnabled w) then w
      else
        let targetIndex := Math_max 0 (or_default (reset_target_card c) 1 - 1) in
        if negb (targetIndex =? _realIndex w) && (targetIndex <? cards_length w)
        then _syncToStateEntity (_goToRealIndex targetIndex true w)
        else w
  end.

(** The statements both settle paths end with: lines 510-517 of
    [_onScrollEnd] and, word for word, lines 547-553 of [_jumpToSlide]. *)
Definition settleEffects (w : World) : World :=
  match _config w with
  | None => w
  | Some c =>
      let w := _updatePagination w in
      let w := _syncToStateEntity w in
      let w := if enable_reset_after c then _resetResetTimer w else w in
      let w := if auto_hide_pagination c >? 0 then _startPaginationHideTimer w else w in
      with_pagination (fun p => p <| scrolling := false |>) w
  end.

(** [_jumpToSlide], lines 526-556, up to the first animation frame. *)
Definition _jumpToSlide (targetDomIndex targetRealIndex : Z) (w : World) : World :=
  if negb (_cachedScroller w) then w
  else
    let w := w <| _jumping := true |> in
    let w := w <| _realIndex := targetRealIndex |> in
    let w := w <| _currentIndex := targetDomIndex |> in
    let slideWidth := _getSlideWidth w in
    let w := with_scroller (fun d => d <| snap_enabled := false |>) w in
    let w := with_scroller
               (fun d => d <| scrollLeft := inject_Z (targetDomIndex * slideWidth) |>) w in
    requestAnimationFrame JumpFrame1 w.

(** The outer closure of line 543. *)
Definition jumpFrame1 (w : World) : World :=
  requestAnimationFrame JumpFrame2 w.

(** The inner closure of lines 544-554. *)
Definition jumpFrame2 (w : World) : World :=
  let w := with_scroller (fun d => d <| snap_enabled := true |>) w in
  let w := w <| _jumping := false |> in
  settleEffects w.

(** Lines 510-523 of [_onScrollEnd]: what follows a settle that is not a
    jump. *)
Definition settled (w : World) : World :=
  let w := settleEffects w in
  let w := clearTimeout (_scrollSettleTimeout w) w in
  let '(id, w) := setTimeout ClearUserScrolling 500 w in
  w <| _scrollSettleTimeout := Some id |>.

(** [_onScrollEnd], lines 471-524.  The quotient [exactIndex], the
    literal [0.1] and the difference [lastCloneIndex - tolerance] are the
    doubles the source computes. *)
Definition _onScrollEnd (w : World) : World :=
  if _jumping w then w
  else if negb (_cachedScroller w) then w
  else
    match shadowRoot w with
    | None => w
    | Some scroller =>
        let slideWidth := _getSlideWidth w in
        if slideWidth =? 0 then w
        else
          let scrollPos := scrollLeft scroller in
          let exactIndex := double (scrollPos / inject_Z slideWidth) in
          let domIndex := Math_round exactIndex in
          let w := w <| _currentIndex := domIndex |> in
          if _isInfiniteMode w then
            let totalSlides := Z.of_nat (length (_allSlideCards w)) in
            let lastCloneIndex := totalSlides - 1 in
            let tolerance := double (1 # 10) in
            if Qltb exactIndex tolerance
            then _jumpToSlide (cards_length w) (cards_length w - 1) w
            else if Qltb (double (inject_Z lastCloneIndex - tolerance)) exactIndex
            then _jumpToSlide 1 0 w
            else settled (w <| _realIndex := domIndex - 1 |>)
          else settled (w <| _realIndex := domIndex |>)
    end.

(** Lines 444-460, inside the animation-frame closure of [_handleScroll]:
    the live update of the indices from the scroll offset. *)
Definition trackScroll (w : World) : World :=
  if _cachedScroller w then
    match shadowRoot w with
    | None => w
    | Some scroller =>
        let slideWidth := _getSlideWidth w in
        if slideWidth >? 0 then
          let scrollPos := scrollLeft scroller in
          let domIndex := Math_round (double (scrollPos / inject_Z slideWidth)) in
          let realIndex := realIndexOf (_isInfiniteMode w) (cards_length w) domIndex in
          if negb (realIndex =? _realIndex w) then
            let w := w <| _realIndex := realIndex |> in
            let w := w <| _currentIndex := domIndex |> in
            _updatePagination w
          else w
        else w
    end
  else w.

(** The closure [_handleScroll] hands to [requestAnimationFrame], lines
    430-468. *)
Definition handleScrollFrame (w : World) : World :=
  let w := w <| _rafPending := false |> in
  if _jumping w then w
  else
    let w := with_pagination (fun p => p <| hidden := false |> <| scrolling := true |>) w in
    let w := clearTimeout (_paginationHideTimeout w) w in
    let w := trackScroll w in
    let w := clearTimeout (_scrollTimeout w) w in
    let '(id, w) := setTimeout ScrollEnd 150 w in
    w <| _scrollTimeout := Some id |>.

(** [_handleScroll], lines 419-469. *)
Definition _handleScroll (w : World) : World :=
  if _jumping w then w
  else
    let w := w <| _userScrolling := true |> in
    let w := clearTimeout (_scrollSettleTimeout w) w in
    if _rafPending w then w
    else
      let w := w <| _rafPending := true |> in
      requestAnimationFrame HandleScrollFrame w.

(** [_render], lines 212-405: the start position, the shadow DOM, the
    first animation frame and the cached element references.  The
    listeners it attaches are the events [Scroll], [TouchStart],
    [MouseDown], [TouchEnd] and [ClickDot] below. *)
Definition _render (w : World) : World :=
  match _config w with
  | None => w
  | Some c =>
      let showPagination := show_pagination c && (cards_length w >? 1) in
      let startRealIndex := Math_max 0 (or_default (start_card c) 1 - 1) in
      let startRealIndex :=
        match state_entity c with
        | Some entity =>
            if truthy_string entity then
              match _hass w ≫= (fun h => states h !! entity) with
              | Some stateValue =>
                  match parseInt stateValue with
                  | Some entityIndex =>
                      if (entityIndex >=? 1) && (entityIndex <=? cards_length w)
                      then entityIndex - 1
                      else startRealIndex
                  | None => startRealIndex
                  end
              | None => startRealIndex
              end
            else startRealIndex
        | None => startRealIndex
        end in
      let w := w <| _realIndex := startRealIndex |> in
      let startDomIndex := if _isInfiniteMode w then startRealIndex + 1 else startRealIndex in
      let w := w <| _currentIndex := startDomIndex |> in
      let w := w <| shadowRoot := Some {|
                 slides := map (fun card => {| child := Some card; offsetLeft := 0;
                                               offsetWidth := 0 |}) (_allSlideCards w);
                 scrollLeft := 0;
                 snap_enabled := false;
                 scrollTo_request := None;
                 pagination :=
                   if showPagination
                   then Some {| hidden := false; scrolling := false;
                                dots := imap (fun i _ => Z.of_nat i =? startRealIndex)
                                             (_cards w) |}
                   else None;
                 version_overlay := show_version c |} |> in
      let w := requestAnimationFrame (SetInitialPosition startDomIndex) w in
      let w := w <| _cachedPagination := showPagination |> in
      w <| _cachedScroller := true |>
  end.

(** The closure [setInitialPosition] of lines 361-373. *)
Definition setInitialPosition (startDomIndex : Z) (w : World) : World :=
  let slideWidth := _getSlideWidth w in
  if slideWidth >? 0 then
    let w := with_scroller
               (fun d => d <| scrollLeft := inject_Z (startDomIndex * slideWidth) |>) w in
    requestAnimationFrame EnableSnap w
  else requestAnimationFrame (SetInitialPosition startDomIndex) w.

(** The closure [onScrollStart] of lines 380-385. *)
Definition onScrollStart (w : World) : World :=
  match _config w with
  | None => w
  | Some c =>
      let w := w <| _userScrolling := true |> in
      let w := clearTimeout (_scrollSettleTimeout w) w in
      let w := _showPagination w in
      if enable_reset_after c then _resetResetTimer w else w
  end.

(** The [touchend] listener of lines 389-391. *)
Definition onTouchEnd (w : World) : World :=
  match _config w with
  | None => w
  | Some c => if auto_hide_pagination c >? 0 then _startPaginationHideTimer w else w
  end.

(** ** The build *)

(** One turn of the loop of lines 142-153, once the factory has answered:
    the card with the current context, or the placeholder. *)
Definition createCard (helpers : Helpers) (cardConfig : CardConfig) (w : World) : World :=
  let card := length (nodes w) in
  match helpers (Some cardConfig) with
  | Resolved =>
      w <| nodes := nodes w ++ [Created (Some cardConfig) (_hass w)] |>
        <| _cards := _cards w ++ [card] |>
  | Rejected message =>
      w <| nodes := nodes w ++ [ErrorCard (errorHTML message)] |>
        <| _cards := _cards w ++ [card] |>
  end.

(** Lines 184-193: the final check, the render, the first hide timer. *)
Definition commitBuild (thisBuildId : Z) (w : World) : World :=
  if negb (thisBuildId =? _buildId w) then w
  else
    let w := _render w in
    let w := w <| _initialized := true |> in
    match _config w with
    | None => w
    | Some c => if auto_hide_pagination c >? 0 then _startPaginationHideTimer w else w
    end.

(** Lines 155-170: after the loop, up to the next [await] if there is
    one. *)
Definition afterCards (thisBuildId : Z) (w : World) : World * option Build :=
  if negb (thisBuildId =? _buildId w) then (w, None)
  else
    match _config w with
    | None => (w, None)
    | Some c =>
        let loopMode := loop_mode c in
        let w := w <| _isInfiniteMode :=
                   (String.eqb loopMode "infinite" || String.eqb loopMode "loopback")
                   && (cards_length w >? 1) |> in
        let w := w <| _allSlideCards := _cards w |> in
        if _isInfiniteMode w then
          let lastCardConfig := cards c !! (length (cards c) - 1)%nat in
          (w, Some {| thisBuildId := thisBuildId; pc := AwaitCloneOfLast lastCardConfig |})
        else (commitBuild thisBuildId w, None)
    end.

(** The [for ... of] of line 142: wait for the next card, or leave the
    loop. *)
Definition nextCard (thisBuildId : Z) (rest : list CardConfig) (w : World)
  : World * option Build :=
  match rest with
  | cardConfig :: rest =>
      (w, Some {| thisBuildId := thisBuildId; pc := AwaitCard cardConfig rest |})
  | [] => afterCards thisBuildId w
  end.

(** A suspended build runs on from its [await] to the next one; [None]
    when the function has returned or thrown. *)
Definition resume (helpers : Helpers) (b : Build) (w : World) : World * option Build :=
  match pc b with
  | AwaitHelpers =>
      if negb (thisBuildId b =? _buildId w) then (w, None)
      else
        let w := w <| _cards := [] |> in
        match _config w with
        | None => (w, None)
        | Some c => nextCard (thisBuildId b) (cards c) w
        end
  | AwaitCard cardConfig rest =>
      nextCard (thisBuildId b) rest (createCard helpers cardConfig w)
  | AwaitCloneOfLast lastCardConfig =>
      match helpers lastCardConfig with
      | Rejected _ => (w, None)
      | Resolved =>
          let cloneOfLast := length (nodes w) in
          let w := w <| nodes := nodes w ++ [Created lastCardConfig (_hass w)] |> in
          match _config w with
          | None => (w, None)
          | Some c =>
              (w, Some {| thisBuildId := thisBuildId b;
                          pc := AwaitCloneOfFirst cloneOfLast (cards c !! 0%nat) |})
          end
      end
  | AwaitCloneOfFirst cloneOfLast firstCardConfig =>
      match helpers firstCardConfig with
      | Rejected _ => (w, None)
      | Resolved =>
          let cloneOfFirst := length (nodes w) in
          let w := w <| nodes := nodes w ++ [Created firstCardConfig (_hass w)] |> in
          let w := w <| _allSlideCards := [cloneOfLast] ++ _cards w ++ [cloneOfFirst] |> in
          (commitBuild (thisBuildId b) w, None)
      end
  end.

(** [_buildCards], lines 126-135: what runs at the call, up to the first
    [await]. *)
Definition _buildCards (w : World) : World :=
  match _config w, _hass w with
  | Some _, Some _ =>
      let thisBuildId := _buildId w + 1 in
      let w := w <| _buildId := thisBuildId |> in
      if _initialized w then w
      else w <| builds := builds w ++ [{| thisBuildId := thisBuildId; pc := AwaitHelpers |}] |>
  | _, _ => w
  end.

(** A build that nothing interrupts: it is resumed until it returns. *)
Fixpoint runBuild (fuel : nat) (helpers : Helpers) (b : Build) (w : World) : option World :=
  match fuel with
  | O => None
  | S fuel =>
      match resume helpers b w with
      | (w, None) => Some w
      | (w, Some b) => runBuild fuel helpers b w
      end
  end.

(** ** The host's entry points *)

(** [setConfig], lines 35-65. *)
Definition setConfig (config : RawConfig) (w : World) : Completion World :=
  if negb (truthy (raw_cards config)) || negb (Array_isArray (raw_cards config))
  then Throw "Please define cards"
  else
    let w := w <| _config := Some {|
               cards := match raw_cards config with Array items => items | _ => [] end;
               show_pagination := negb (bool_decide (raw_show_pagination config = Some false));
               start_card := default 1 (raw_start_card config);
               loop_mode := default "none" (raw_loop_mode config);
               state_entity := raw_state_entity config;
               auto_hide_pagination := default 0 (raw_auto_hide_pagination config);
               enable_reset_after := default false (raw_enable_reset_after config);
               reset_after_timeout := default 30000 (raw_reset_after_timeout config);
               reset_target_card := default 1 (raw_reset_target_card config);
               slide_width := raw_slide_width config;
               slide_height := raw_slide_height config;
               slide_padding := raw_slide_padding config;
               slide_gap := raw_slide_gap config;
               show_version := default false (raw_show_version config);
               border_radius := raw_border_radius config;
               auto_reset_enabled_entity := raw_auto_reset_enabled_entity config |} |> in
    Normal (if bool_decide (is_Some (_hass w)) && negb (_initialized w)
            then _buildCards w else w).

(** [card.hass = hass] on a mounted element that has the property. *)
Definition giveHass (hass : Hass) (e : CardElement) : CardElement :=
  match e with
  | Created description _ => Created description (Some hass)
  | ErrorCard innerHTML => ErrorCard innerHTML
  end.

(** [set hass], lines 67-96. *)
Definition set_hass (hass : Hass) (w : World) : World :=
  let oldHass := _hass w in
  let w := w <| _hass := Some hass |> in
  let w := w <| nodes := foldl (fun ns card => alter (giveHass hass) card ns)
                              (nodes w) (_allSlideCards w) |> in
  let w := if negb (_initialized w) && bool_decide (is_Some (_config w))
           then _buildCards w else w in
  let w :=
    match _config w ≫= state_entity with
    | Some entity =>
        if truthy_string entity && _initialized w && negb (_stateUpdateInProgress w)
        then _syncFromStateEntity oldHass hass w else w
    | None => w
    end in
  match _config w ≫= auto_reset_enabled_entity with
  | Some entity =>
      if truthy_string entity && _initialized w then
        let oldState := oldHass ≫= (fun h => states h !! entity) in
        let newState := states hass !! entity in
        if bool_decide (newState = Some "on") && negb (bool_decide (oldState = Some "on"))
        then _resetResetTimer w else w
      else w
  | None => w
  end.

(** [connectedCallback], lines 109-113. *)
Definition connectedCallback (w : World) : World :=
  match _config w with
  | Some c => if enable_reset_after c then _resetResetTimer w else w
  | None => w
  end.

(** [disconnectedCallback], lines 115-124. *)
Definition disconnectedCallback (w : World) : World :=
  let w := clearTimeout (_resetTimeout w) w in
  let w := clearTimeout (_paginationHideTimeout w) w in
  let w := clearTimeout (_scrollTimeout w) w in
  let w := clearTimeout (_scrollSettleTimeout w) w in
  let w := w <| _cachedPagination := false |> in
  let w := w <| _cachedScroller := false |> in
  w <| _rafPending := false |>.

(** ** The event loop *)

Definition runCallback (cb : Callback) (w : World) : World :=
  match cb with
  | SetInitialPosition startDomIndex => setInitialPosition startDomIndex w
  | EnableSnap => with_scroller (fun d => d <| snap_enabled := true |>) w
  | HandleScrollFrame => handleScrollFrame w
  | ScrollEnd => _onScrollEnd w
  | ClearUserScrolling => w <| _userScrolling := false |>
  | JumpFrame1 => jumpFrame1 w
  | JumpFrame2 => jumpFrame2 w
  | RetryGoTo realIndex smooth => _goToRealIndex realIndex smooth w
  | HidePagination => with_pagination (fun p => p <| hidden := true |>) w
  | ResetFires => resetFires w
  end.

(** What can happen to the widget: calls of the host, input of the user,
    and the browser running what was scheduled. *)
Inductive Event :=
| SetConfig (config : RawConfig)
| SetHass (hass : Hass)
| Connected
| Disconnected
| ResumeBuild (buildId : Z)
| Layout (boxes : list (Z * Z))
| Tick (ms : Z)
| AnimationFrame
| TimerFires (id : nat)
| Scroll (offset : Q)
| TouchStart
| MouseDown
| TouchEnd
| ClickDot (index : nat).

(** One event; [None] when the event cannot happen in this world (no such
    timer, build or element, a timer before it is due). *)
Definition step (helpers : Helpers) (e : Event) (w : World) : option World :=
  match e with
  | SetConfig config =>
      match setConfig config w with
      | Normal w => Some w
      | Throw _ => Some w
      end
  | SetHass hass => Some (set_hass hass w)
  | Connected => Some (connectedCallback w)
  | Disconnected => Some (disconnectedCallback w)
  | ResumeBuild buildId =>
      match filter (fun b => thisBuildId b = buildId) (builds w) with
      | b :: _ =>
          let w := w <| builds := filter (fun b => thisBuildId b <> buildId) (builds w) |> in
          match resume helpers b w with
          | (w, None) => Some w
          | (w, Some b) => Some (w <| builds := builds w ++ [b] |>)
          end
      | [] => None
      end
  | Layout boxes =>
      match shadowRoot w with
      | Some d =>
          if bool_decide (length boxes = length (slides d)) then
            Some (with_scroller
                    (fun d => d <| slides :=
                       zip_with (fun s box => {| child := child s; offsetLeft := fst box;
                                                 offsetWidth := snd box |})
                                (slides d) boxes |>) w)
          else None
      | None => None
      end
  | Tick ms => if 0 <=? ms then Some (w <| now := now w + ms |>) else None
  | AnimationFrame =>
      Some (foldl (fun w cb => runCallback cb w) (w <| rafQueue := [] |>) (rafQueue w))
  | TimerFires id =>
      match filter (fun t => timer_id t = id) (timeouts w) with
      | t :: _ =>
          if due t <=? now w then
            Some (runCallback (callback t)
                    (w <| timeouts := filter (fun t => timer_id t <> id) (timeouts w) |>))
          else None
      | [] => None
      end
  | Scroll offset =>
      match shadowRoot w with
      | Some _ => Some (_handleScroll (with_scroller (fun d => d <| scrollLeft := offset |>) w))
      | None => None
      end
  | TouchStart | MouseDown =>
      match shadowRoot w with
      | Some _ => Some (onScrollStart w)
      | None => None
      end
  | TouchEnd =>
      match shadowRoot w with
      | Some _ => Some (onTouchEnd w)
      | None => None
      end
  | ClickDot index =>
      match shadowRoot w ≫= pagination with
      | Some p =>
          if bool_decide (index < length (dots p))%nat
          then Some (_goToRealIndex (Z.of_nat index) true w) else None
      | None => None
      end
  end.

(** A run of events, left to right. *)
Fixpoint run (helpers : Helpers) (es : list Event) (w : World) : option World :=
  match es with
  | [] => Some w
  | e :: es =>
      match step helpers e w with
      | Some w => run helpers es w
      | None => None
      end
  end.

(** The worlds a page can be in: those a run of events reaches from the
    constructor. *)
Definition reachable (helpers : Helpers) (w : World) : Prop :=
  exists t es, run helpers es (constructor t) = Some w.

(** ** Notions of the specification and sample data *)

(** A child-description list as the configuration surface asks for it: a
    sequence with at least one entry. *)
Definition nonEmptySequence {A} (v : Value A) : Prop :=
  match v with
  | Array (_ :: _) => True
  | _ => False
  end.

(** The current value of the bound external entity, parsed: [None] when
    no binding is configured, the entity is unknown to the host, or its
    state has no leading integer. *)
Definition boundValue (w : World) : option Z :=
  c ← _config w;
  entity ← state_entity c;
  if truthy_string entity
  then hass ← _hass w; state ← states hass !! entity; parseInt state
  else None.

(** A configuration object that sets the card list, the loop mode, the
    state entity and the start card, and leaves the rest out. *)
Definition sampleConfig (cs : Value CardConfig) (loop entity : option string)
    (start : option Z) : RawConfig := {|
  raw_cards := cs;
  raw_show_pagination := None;
  raw_start_card := start;
  raw_loop_mode := loop;
  raw_state_entity := entity;
  raw_auto_hide_pagination := None;
  raw_enable_reset_after := None;
  raw_reset_after_timeout := None;
  raw_reset_target_card := None;
  raw_slide_width := None;
  raw_slide_height := None;
  raw_slide_padding := None;
  raw_slide_gap := None;
  raw_show_version := None;
  raw_border_radius := None;
  raw_auto_reset_enabled_entity := None;
|}.

Definition markdown (text : string) : CardConfig :=
  {| type := "markdown"; content := text |}.

(** A factory that builds every card. *)
Definition allCards : Helpers := fun _ => Resolved.

(** A factory that fails on cards of type [broken]. *)
Definition noBroken : Helpers := fun d =>
  match d with
  | Some c => if String.eqb (type c) "broken" then Rejected "Unknown type: broken" else Resolved
  | None => Rejected "Cannot read properties of undefined"
  end.

(** A host context in which entity [e] has state [s]. *)
Definition hassWith (e s : string) : Hass := {| states := {[ e := s ]} |}.

(** [n] slides laid out side by side, each [width] pixels wide. *)
Definition sideBySide (n : nat) (width : Z) : list (Z * Z) :=
  map (fun i => (width * Z.of_nat i, width)) (seq 0 n).

(** The index an inbound state string asks for: its integer, minus one
    under the [input_number.] naming convention. *)
Definition inboundTarget (entity newState : string) : option Z :=
  v ← parseInt newState;
  Some (if String.prefix "input_number." entity then v - 1 else v).

(** Lines 629-631: the programmatic navigation of an accepted update. *)
Definition navigate (targetIndex : Z) (w : World) : World :=
  (_goToRealIndex targetIndex true (w <| _stateUpdateInProgress := true |>))
    <| _stateUpdateInProgress := false |>.

(** The write of the outbound sync, line 647. *)
Definition setValue (entity : string) (targetValue : Z) : ServiceCall :=
  {| domain := "input_number"; service := "set_value";
     entity_id := entity; value := targetValue |}.

(** The position state and the two flags of a jump, read together: real
    index, DOM index, [_jumping], [_isInfiniteMode], and whether the
    scroller has the class [snap-enabled]. *)
Definition position (w : World) : Z * Z * bool * bool * option bool :=
  (_realIndex w, _currentIndex w, _jumping w, _isInfiniteMode w,
   snap_enabled <$> shadowRoot w).

(** The world in which a jump has landed: the targets of the jump, snap
    back on, the jump flag cleared, no frame pending. *)
Definition landed (targetDomIndex targetRealIndex : Z) (w : World) : World :=
  (with_scroller (fun d => d <| snap_enabled := true |>)
     ((_jumpToSlide targetDomIndex targetRealIndex w) <| rafQueue := [] |>))
    <| _jumping := false |>.

(** Where the scroller stands, in slide widths: [exactIndex] of line
    481, before it is rounded to a double. *)
Definition exactIndexOf (w : World) (scroller : ShadowRoot) : Q :=
  (scrollLeft scroller / inject_Z (_getSlideWidth w))%Q.

(** The world a run of events leaves, from a constructor at time 0; the
    constructor's own world when the run is not possible. *)
Definition after (helpers : Helpers) (es : list Event) : World :=
  default (constructor 0) (run helpers es (constructor 0)).

(** [this._config] as [setConfig] stores [sampleConfig (Array cs) ...]. *)
Definition sampleSettings (cs : list CardConfig) (loop : string) (entity : option string)
    (start : Z) : Config := {|
  cards := cs;
  show_pagination := true;
  start_card := start;
  loop_mode := loop;
  state_entity := entity;
  auto_hide_pagination := 0;
  enable_reset_after := false;
  reset_after_timeout := 30000;
  reset_target_card := 1;
  slide_width := None;
  slide_height := None;
  slide_padding := None;
  slide_gap := None;
  show_version := false;
  border_radius := None;
  auto_reset_enabled_entity := None;
|}.

Definition page : string := "input_number.page".

(** Two cards bound to [input_number.page], which reads 1: the widget is
    built and laid out, and the user swipes to the second card. *)
Definition swipeToSecond : list Event :=
  [SetConfig (sampleConfig (Array [markdown "A"; markdown "B"]) None (Some page) None);
   SetHass (hassWith page "1");
   ResumeBuild 1; ResumeBuild 1; ResumeBuild 1;
   Layout (sideBySide 2 100); AnimationFrame; AnimationFrame;
   TouchStart; Scroll (100 # 1); AnimationFrame; Tick 150; TimerFires 1].

(** The user touches the second card again and lets it snap back, before
    the host has reported the new state. *)
Definition wiggle : list Event :=
  [TouchStart; Scroll (90 # 1); AnimationFrame; Scroll (100 # 1); AnimationFrame;
   Tick 150; TimerFires 4].

(** Three looping cards bound to [input_number.page], which reads 1; the
    widget is built and laid out, the user drags back onto the clone of
    the last card and the scroll comes to rest there.  The last event
    but one is the settle timer becoming due. *)
Definition dragToLeadingClone : list Event :=
  [SetConfig (sampleConfig (Array [markdown "A"; markdown "B"; markdown "C"])
                (Some "infinite") (Some page) None);
   SetHass (hassWith page "1");
   ResumeBuild 1; ResumeBuild 1; ResumeBuild 1; ResumeBuild 1; ResumeBuild 1; ResumeBuild 1;
   Layout (sideBySide 5 100); AnimationFrame; AnimationFrame;
   TouchStart; Scroll (0 # 1); AnimationFrame; Tick 150].

(** The world in which the settle timer [id] has just been taken off the
    pending list, as [TimerFires] does before it runs the callback. *)
Definition timerTaken (id : nat) (w : World) : World :=
  w <| timeouts := filter (fun t => timer_id t <> id) (timeouts w) |>.

(** What the loop of lines 142-153 mounts for a description: the card the
    factory made from it, holding the current context, or the placeholder
    with the message of the failure. *)
Definition cardElement (helpers : Helpers) (hass : option Hass) (cardConfig : CardConfig)
  : CardElement :=
  match helpers (Some cardConfig) with
  | Resolved => Created (Some cardConfig) hass
  | Rejected message => ErrorCard (errorHTML message)
  end.

(** The whole loop, when nothing runs between its turns. *)
Definition createCards (helpers : Helpers) (cardConfigs : list CardConfig) (w : World) : World :=
  foldl (fun w cardConfig => createCard helpers cardConfig w) w cardConfigs.

(** The fields a build writes before it renders. *)
Definition buildState (w : World) :=
  (_cards w, _allSlideCards w, _isInfiniteMode w, nodes w, _config w, _hass w, _buildId w).

(** Line 160: the loop modes that ask for looping. *)
Definition requestsLooping (c : Config) : bool :=
  String.eqb (loop_mode c) "infinite" || String.eqb (loop_mode c) "loopback".

(** The world of an uninterrupted build at line 166: the cards are built,
    the mode is decided, the display sequence is the card list. *)
Definition cardsBuilt (helpers : Helpers) (w : World) (c : Config) : World :=
  let w0 := createCards helpers (cards c) ((_buildCards w) <| _cards := [] |>) in
  w0 <| _isInfiniteMode := requestsLooping c && (cards_length w0 >? 1) |>
     <| _allSlideCards := _cards w0 |>.

(** The widget after [setConfig] and with a host context, before the
    build is called. *)
Definition configured (config : RawConfig) (hass : Hass) : World :=
  match setConfig config (constructor 0) with
  | Normal w => w <| _hass := Some hass |>
  | Throw _ => constructor 0
  end.

(** A description the factory [noBroken] refuses. *)
Definition broken : CardConfig := {| type := "broken"; content := "" |}.

(** Two cards under the loop mode [loopback]: the configuration as
    stored, and the widget with it and a context. *)
Definition loopbackSettings : Config :=
  sampleSettings [markdown "A"; markdown "B"] "loopback" None 1.

Definition loopbackConfigured : World :=
  configured (sampleConfig (Array [markdown "A"; markdown "B"]) (Some "loopback") None None)
             (hassWith page "1").

(** Three looping cards: the configuration as stored. *)
Definition infiniteSettings : Config :=
  sampleSettings [markdown "A"; markdown "B"; markdown "C"] "infinite" None 1.

(** Three looping cards with a context. *)
Definition infiniteConfigured : World :=
  configured (sampleConfig (Array [markdown "A"; markdown "B"; markdown "C"])
                (Some "infinite") None None)
             (hassWith page "1").

(** Three cards bound to [input_number.page], which reads 2, with start
    card 3: the build has made the cards and is about to render. *)
Definition readyToRender : World :=
  let w := createCard allCards (markdown "C")
             (after allCards
                [SetConfig (sampleConfig (Array [markdown "A"; markdown "B"; markdown "C"])
                              None (Some page) (Some 3));
                 SetHass (hassWith page "2");
                 ResumeBuild 1; ResumeBuild 1; ResumeBuild 1]) in
  w <| _allSlideCards := _cards w |>.

(** Two cards, the second one broken, in infinite mode: the host sets the
    configuration and the context, and the build runs through its four
    awaits. *)
Definition brokenLastCard : list Event :=
  [SetConfig (sampleConfig (Array [markdown "A"; broken]) (Some "infinite") None None);
   SetHass (hassWith page "1");
   ResumeBuild 1; ResumeBuild 1; ResumeBuild 1; ResumeBuild 1].

(** The host sends the context again: a second build runs the same way. *)
Definition retryBrokenLastCard : list Event :=
  [SetHass (hassWith page "1"); ResumeBuild 2; ResumeBuild 2; ResumeBuild 2; ResumeBuild 2].

(** The same two cards without looping. *)
Definition brokenLastCardNoLoop : list Event :=
  [SetConfig (sampleConfig (Array [markdown "A"; broken]) None None None);
   SetHass (hassWith page "1");
   ResumeBuild 1; ResumeBuild 1; ResumeBuild 1].

(** Two cards.  Build 1 has passed its first check and waits for the
    first card when the host sends the context again; build 2 starts,
    passes its first check and waits for the first card too. *)
Definition supersede : list Event :=
  [SetConfig (sampleConfig (Array [markdown "A"; markdown "B"]) None None None);
   SetHass (hassWith page "1");
   ResumeBuild 1;
   SetHass (hassWith page "1");
   ResumeBuild 2].

(** The factory answers the two builds in turn. *)
Definition interleave : list Event :=
  [ResumeBuild 1; ResumeBuild 2; ResumeBuild 1; ResumeBuild 2].

(** The description an element was made from; [None] for the
    placeholder of a failed card and for a handle without element. *)
Definition descriptionOf (w : World) (card : nat) : option CardConfig :=
  match nodes w !! card with
  | Some (Created description _) => description
  | _ => None
  end.

(** Two looping cards.  Build 1 has made its first card and waits for the
    second when the host sends the context again; build 2 starts, passes
    its first check, empties the card list and waits for its first card. *)
Definition overtake : list Event :=
  [SetConfig (sampleConfig (Array [markdown "A"; markdown "B"]) (Some "infinite") None None);
   SetHass (hassWith page "1");
   ResumeBuild 1; ResumeBuild 1;
   SetHass (hassWith page "1");
   ResumeBuild 2].

(** The factory answers build 1 for its second card, and then build 2
    for its two cards and its two clones. *)
Definition lateAnswer : list Event :=
  [ResumeBuild 1; ResumeBuild 2; ResumeBuild 2; ResumeBuild 2; ResumeBuild 2].

(** Three looping cards bound to [input_number.page]; the user drags a
    third of a slide back towards the leading clone and holds still until
    the settle timer fires. *)
Definition holdNearClone : list Event :=
  [SetConfig (sampleConfig (Array [markdown "A"; markdown "B"; markdown "C"])
                (Some "infinite") (Some page) None);
   SetHass (hassWith page "1");
   ResumeBuild 1; ResumeBuild 1; ResumeBuild 1; ResumeBuild 1; ResumeBuild 1; ResumeBuild 1;
   Layout (sideBySide 5 100); AnimationFrame; AnimationFrame;
   TouchStart; Scroll (30 # 1); AnimationFrame; Tick 150; TimerFires 1].

(** Three cards, no looping, start card 5. *)
Definition startBeyondLast : list Event :=
  [SetConfig (sampleConfig (Array [markdown "A"; markdown "B"; markdown "C"])
                None None (Some 5));
   SetHass (hassWith page "1");
   ResumeBuild 1; ResumeBuild 1; ResumeBuild 1; ResumeBuild 1].

(** What a build commits: the position, the flag, the rendered tree and
    what the render schedules. *)
Definition committed (w : World) :=
  (_realIndex w, _currentIndex w, _initialized w, shadowRoot w, rafQueue w, timeouts w,
   _cachedScroller w, _cachedPagination w, _buildId w).

(** The indices and the two lists they index. *)
Definition indices (w : World) :=
  (_realIndex w, _currentIndex w, _isInfiniteMode w, _cards w, _allSlideCards w).

(** The real index lies among the real slides. *)
Definition realInRange (w : World) : Prop :=
  0 <= _realIndex w <= cards_length w - 1.

(** Two cards, the second one broken, no looping: the configuration as
    stored, and the widget with it and a context. *)
Definition brokenSettings : Config :=
  sampleSettings [markdown "A"; broken] "none" None 1.

Definition brokenConfigured : World :=
  configured (sampleConfig (Array [markdown "A"; broken]) None None None) (hassWith page "1").

(** The scroller of a rendered world. *)
Definition scrollerOf (w : World) : ShadowRoot :=
  default {| slides := []; scrollLeft := 0; snap_enabled := false;
             scrollTo_request := None; pagination := None; version_overlay := false |}
          (shadowRoot w).

(** The scroll has come to rest on the leading clone and the settle timer
    is about to run [_onScrollEnd]. *)
Definition restingOnClone : World := timerTaken 1 (after allCards dragToLeadingClone).

(** The pending settle timer of [dragToLeadingClone], now due. *)
Definition settleTimer : Timeout := {| timer_id := 1; due := 150; callback := ScrollEnd |}.

(** The same cards, built and laid out; the element is then taken out of
    the document and put back, and the user drags onto the clone of the
    last card and lets the scroll come to rest there. *)
Definition reattachedOnClone : list Event :=
  [SetConfig (sampleConfig (Array [markdown "A"; markdown "B"; markdown "C"])
                (Some "infinite") (Some page) None);
   SetHass (hassWith page "1");
   ResumeBuild 1; ResumeBuild 1; ResumeBuild 1; ResumeBuild 1; ResumeBuild 1; ResumeBuild 1;
   Layout (sideBySide 5 100); AnimationFrame; AnimationFrame;
   Disconnected; Connected;
   TouchStart; Scroll (0 # 1); AnimationFrame; Tick 150; TimerFires 1].

(** Two looping cards, 102 pixels apart; the scroll comes to rest at the
    offset 295.8, as a double: 2.9 slide widths in double precision, a
    tenth of a slide short of the trailing clone at DOM index 3. *)
Definition restAtTheTolerance : list Event :=
  [SetConfig (sampleConfig (Array [markdown "A"; markdown "B"]) (Some "infinite") None None);
   SetHass (hassWith page "1");
   ResumeBuild 1; ResumeBuild 1; ResumeBuild 1; ResumeBuild 1; ResumeBuild 1;
   Layout (sideBySide 4 102); AnimationFrame; AnimationFrame;
   TouchStart; Scroll (5203768631938253 # 17592186044416); AnimationFrame;
   Tick 150; TimerFires 1].

(** How far a settle has to stay clear of the tolerance of line 476 for
    the comparison of doubles in [_onScrollEnd] to come out as the
    comparison of the exact numbers would.  Rounding to 53 bits moves
    each side of a comparison by at most its 2^-53th part; the numbers
    compared lie below the number of slides. *)
Definition roundingMargin (totalSlides : Z) : Q := (inject_Z totalSlides / inject_Z (2 ^ 50))%Q.

(** What the outbound sync has to write at real index [k]: the value
    [k + 1] to the bound [input_number] entity, unless the host context
    already reads it; nothing without such a binding or without a
    context. *)
Definition outboundWrite (w : World) (k : Z) : list ServiceCall :=
  match _config w ≫= state_entity, _hass w with
  | Some entity, Some _ =>
      if String.prefix "input_number." entity
         && negb (bool_decide (boundValue w = Some (k + 1)))
      then [setValue entity (k + 1)]
      else []
  | _, _ => []
  end.

(** The pagination after a settle at real index [k]: the dot of [k] is
    the active one and the class [scrolling] is gone. *)
Definition settledPagination (k : Z) (p : Pagination) : Pagination :=
  {| hidden := hidden p; scrolling := false;
     dots := imap (fun i _ => Z.of_nat i =? k) (dots p) |}.

(** ** The size hint *)

(** [getCardSize], lines 693-701.  [sizeOf card] is the number the
    card's own [getCardSize] returns, [None] when the element has no such
    method.  Before [setConfig] the read of
    [this._config.show_pagination] raises a [TypeError]. *)
Definition getCardSize (sizeOf : CardElement -> option Z) (w : World) : Completion Z :=
  let maxSize :=
    foldl (fun maxSize card =>
             match nodes w !! card ≫= sizeOf with
             | Some size => Math_max maxSize size
             | None => maxSize
             end) 1 (_cards w) in
  match _config w with
  | Some c => Normal (maxSize + (if show_pagination c then 1 else 0))
  | None => Throw "Cannot read properties of null (reading 'show_pagination')"
  end.

(** ** The editor

    [class SwipeCardLiteEditor], lines 713-1079: the form the host shows
    to edit the widget's configuration.  It keeps a copy of the
    configuration object, changes it on input and announces every change
    with a [config-changed] event.  Modelled are the card list with its
    buttons, the loop switch and the reset-timeout field; the dialog the
    editor opens on a card ([_openCardEditor]) belongs to the host. *)

Definition RawConfig_eta (c : RawConfig) : RawConfig := {|
  raw_cards := raw_cards c;
  raw_show_pagination := raw_show_pagination c;
  raw_start_card := raw_start_card c;
  raw_loop_mode := raw_loop_mode c;
  raw_state_entity := raw_state_entity c;
  raw_auto_hide_pagination := raw_auto_hide_pagination c;
  raw_enable_reset_after := raw_enable_reset_after c;
  raw_reset_after_timeout := raw_reset_after_timeout c;
  raw_reset_target_card := raw_reset_target_card c;
  raw_slide_width := raw_slide_width c;
  raw_slide_height := raw_slide_height c;
  raw_slide_padding := raw_slide_padding c;
  raw_slide_gap := raw_slide_gap c;
  raw_show_version := raw_show_version c;
  raw_border_radius := raw_border_radius c;
  raw_auto_reset_enabled_entity := raw_auto_reset_enabled_entity c;
|}.

#[global] Instance setter_raw_cards : Setter raw_cards :=
  ltac:(mk_setter RawConfig_eta raw_cards).
Arguments setter_raw_cards _ _ /.
#[global] Instance setter_raw_loop_mode : Setter raw_loop_mode :=
  ltac:(mk_setter RawConfig_eta raw_loop_mode).
Arguments setter_raw_loop_mode _ _ /.
#[global] Instance setter_raw_enable_reset_after : Setter raw_enable_reset_after :=
  ltac:(mk_setter RawConfig_eta raw_enable_reset_after).
Arguments setter_raw_enable_reset_after _ _ /.
#[global] Instance setter_raw_reset_after_timeout : Setter raw_reset_after_timeout :=
  ltac:(mk_setter RawConfig_eta raw_reset_after_timeout).
Arguments setter_raw_reset_after_timeout _ _ /.

Module Editor.

(** [parseInt(s)] without a radix reads as with radix 10, except that
    [0x] or [0X] after the sign selects radix 16. *)
Definition hexDigit (a : ascii) : option Z :=
  let n := nat_of_ascii a in
  if ((48 <=? n) && (n <=? 57))%nat then Some (Z.of_nat n - 48)
  else if ((65 <=? n) && (n <=? 70))%nat then Some (Z.of_nat n - 55)
  else if ((97 <=? n) && (n <=? 102))%nat then Some (Z.of_nat n - 87)
  else None.

Fixpoint hexDigits (s : string) (acc : option Z) : option Z :=
  match s with
  | String a r =>
      match hexDigit a with
      | Some d => hexDigits r (Some (16 * default 0 acc + d))
      | None => acc
      end
  | EmptyString => acc
  end.

Definition unsigned (s : string) : option Z :=
  match s with
  | String "0" (String "x" r) | String "0" (String "X" r) => hexDigits r None
  | _ => digits s None
  end.

(** The Number a parsed integer becomes: the integer itself up to 2^53
    in absolute value; beyond, its 53 leading bits, rounded to nearest,
    ties to the even significand.  (The integers beyond the range of a
    double, which a text of more than 308 digits can denote and
    JavaScript turns into [Infinity], are outside the model.) *)
Definition nearestDouble (n : Z) : Z :=
  let a := Z.abs n in
  let dropped := Z.log2 a - 52 in
  if dropped <=? 0 then n
  else
    let significand := Z.shiftr a dropped in
    let rest := a - Z.shiftl significand dropped in
    let half := Z.shiftl 1 (dropped - 1) in
    let significand :=
      if (half <? rest) || ((rest =? half) && Z.odd significand)
      then significand + 1 else significand in
    Z.sgn n * Z.shiftl significand dropped.

(** The integer a text starts with, after white space and a sign:
    [sign * mathInt] in the words of the language specification; [None]
    when no digit follows. *)
Definition mathInt (s : string) : option Z :=
  match trimStart s with
  | String "-" r => Z.opp <$> unsigned r
  | String "+" r => unsigned r
  | t => unsigned t
  end.

(** [parseInt(s)]: that integer as a Number; [None] is [NaN]. *)
Definition parseInt (s : string) : option Z := nearestDouble <$> mathInt s.

(** The editor's [this._config], and the [detail.config] of the
    [config-changed] events it has dispatched, oldest first. *)
Record State := {
  _config : RawConfig;
  dispatched : list RawConfig;
}.

(** [setConfig], lines 721-724. *)
Definition setConfig (config : RawConfig) (s : State) : State :=
  {| _config := config; dispatched := dispatched s |}.

(** [_fireConfigChanged], lines 1072-1078. *)
Definition _fireConfigChanged (s : State) : State :=
  {| _config := _config s; dispatched := dispatched s ++ [_config s] |}.

(** [[...(this._config.cards || [])]]: the items of an array, nothing
    for a missing or falsy value.  A truthy value that is no array is not
    iterable (a string would be, character by character; card lists
    written as strings are outside the model). *)
Definition spread (cards : Value CardConfig) : Completion (list CardConfig) :=
  match cards with
  | Array items => Normal items
  | _ => if truthy cards then Throw "cards is not iterable" else Normal []
  end.

(** [this._config = { ...this._config, cards }; this._fireConfigChanged()],
    as in lines 955-956. *)
Definition storeCards (cards : list CardConfig) (s : State) : State :=
  _fireConfigChanged
    {| _config := (_config s) <| raw_cards := Array cards |>; dispatched := dispatched s |}.

(** The destructuring swap of lines 960 and 966, on two indices of the
    list. *)
Definition swap (i j : nat) (cards : list CardConfig) : list CardConfig :=
  match cards !! i, cards !! j with
  | Some a, Some b => <[i := b]> (<[j := a]> cards)
  | _, _ => cards
  end.

(** The buttons of a card row that change the list. *)
Inductive Action := Delete | MoveUp | MoveDown.

(** Lines 845 and 848: whether the button is rendered [disabled] in row
    [i] of [cards]. *)
Definition disabled (action : Action) (i : nat) (cards : list CardConfig) : bool :=
  match action with
  | Delete => false
  | MoveUp => bool_decide (i = 0%nat)
  | MoveDown => bool_decide (Z.of_nat i = Z.of_nat (length cards) - 1)
  end.

(** The click listener of lines 946-971 on the button [action] of row
    [index]; [None] when no such row was rendered, or the spread throws. *)
Definition click (action : Action) (index : nat) (s : State) : option State :=
  match spread (raw_cards (_config s)) with
  | Throw _ => None
  | Normal cards =>
      if bool_decide (index < length cards)%nat then
        match action with
        | Delete => Some (storeCards (delete index cards) s)
        | MoveUp =>
            if bool_decide (Z.of_nat index > 0)
            then Some (storeCards (swap (index - 1) index cards) s)
            else Some s
        | MoveDown =>
            if bool_decide (Z.of_nat index < Z.of_nat (length cards) - 1)
            then Some (storeCards (swap index (index + 1) cards) s)
            else Some s
        end
      else None
  end.

(** [_addCard], lines 1063-1070, up to the dialog it opens. *)
Definition _addCard (s : State) : option State :=
  match spread (raw_cards (_config s)) with
  | Throw _ => None
  | Normal cards =>
      Some (storeCards (cards ++ [{| type := "markdown"; content := "New card" |}]) s)
  end.

(** Line 873: whether the loop switch is rendered checked. *)
Definition infiniteLoopChecked (c : RawConfig) : bool :=
  bool_decide (raw_loop_mode c = Some "infinite"%string).

(** Lines 975-978: the loop switch is toggled. *)
Definition changeInfiniteLoop (checked : bool) (s : State) : State :=
  _fireConfigChanged
    {| _config := (_config s) <| raw_loop_mode :=
                                   Some (if checked then "infinite" else "none")%string |>;
       dispatched := dispatched s |}.

(** Line 889: the number shown in the reset-timeout field. *)
Definition resetTimeoutShown (c : RawConfig) : Z :=
  if default false (raw_enable_reset_after c)
  then or_default (default 0 (raw_reset_after_timeout c)) 30000
  else 0.

(** Lines 990-998: the reset-timeout field is changed to [text]. *)
Definition changeResetTimeout (text : string) (s : State) : State :=
  let value := or_default (default 0 (parseInt text)) 0 in
  _fireConfigChanged
    {| _config := (_config s) <| raw_enable_reset_after := Some (value >? 0) |>
                              <| raw_reset_after_timeout :=
                                   Some (if value >? 0 then value else 30000) |>;
       dispatched := dispatched s |}.

End Editor.

(** ** Views of the state

    A view is a tuple of fields read together.  Setting a field outside
    a view leaves the view as it is. *)

Class Outside {A T : Type} (V : World -> A) (proj : World -> T) {S : Setter proj} : Prop :=
  outside : forall v w, V (w <| proj := v |>) = V w.
#[global] Hint Extern 0 (Outside _ _) => (intros ? ?; reflexivity) : typeclass_instances.

(** Which card is mounted in which slide of the rendered tree. *)
Definition mounted (w : World) : option (list (option nat)) :=
  (fun d => map child (slides d)) <$> shadowRoot w.

(** What scrolling, touches, clicks, timers, animation frames, layout and
    the life-cycle callbacks have no business writing: the configuration,
    the context, the cards and their elements, the display sequence and
    what is mounted, the mode, the build counter and the builds in
    flight, and the flags [_initialized] and [_stateUpdateInProgress]. *)
Definition structure (w : World) :=
  (_config w, _hass w, _cards w, _allSlideCards w, _initialized w, _buildId w,
   _isInfiniteMode w, nodes w, builds w, _stateUpdateInProgress w, mounted w).

(** The events through which the host configures the widget, hands it a
    context, or lets a build run on. *)
Definition buildEvent (e : Event) : bool :=
  match e with
  | SetConfig _ | SetHass _ | ResumeBuild _ => true
  | _ => false
  end.

(** What the post-settle effects read of the host and the clock, and the
    calls made to the host. *)
Definition hostView (w : World) :=
  (_config w, _hass w, _realIndex w, now w, serviceCalls w).

(** What a finished build has fixed. *)
Definition built (w : World) :=
  (_cards w, _allSlideCards w, _isInfiniteMode w, _initialized w, _buildId w, builds w,
   mounted w).

(** ** Timers *)

#[global] Instance Callback_eq_dec : EqDecision Callback.
Proof. solve_decision. Defined.

(** The field in which the widget keeps the id of the timer it armed
    with this callback: [ScrollEnd] in [_scrollTimeout] (line 465),
    [ClearUserScrolling] in [_scrollSettleTimeout] (line 521),
    [HidePagination] in [_paginationHideTimeout] (line 666) and
    [ResetFires] in [_resetTimeout] (line 681).  The retry of
    [_goToRealIndex] (line 583) keeps no id. *)
Definition tracked (cb : Callback) (w : World) : option (option nat) :=
  match cb with
  | ScrollEnd => Some (_scrollTimeout w)
  | ClearUserScrolling => Some (_scrollSettleTimeout w)
  | HidePagination => Some (_paginationHideTimeout w)
  | ResetFires => Some (_resetTimeout w)
  | _ => None
  end.

(** The pending timers that will run this callback. *)
Definition pending (cb : Callback) (w : World) : list Timeout :=
  filter (fun t => callback t = cb) (timeouts w).

(** The pending timers, the next id and the four fields that hold ids. *)
Definition timerView (w : World) :=
  (timeouts w, nextTimer w, _scrollTimeout w, _scrollSettleTimeout w,
   _paginationHideTimeout w, _resetTimeout w).

(** The closures the source hands to [setTimeout]; the others go to
    [requestAnimationFrame]. *)
Definition timerCallback (cb : Callback) : bool :=
  match cb with
  | ScrollEnd | ClearUserScrolling | RetryGoTo _ _ | HidePagination | ResetFires => true
  | _ => false
  end.

(** Ids are not reused, a pending timer runs a closure that was handed
    to [setTimeout], one whose callback is tracked is the timer its field
    names, and an id the widget keeps was handed out before. *)
Definition timers_ok (w : World) : Prop :=
  NoDup (timer_id <$> timeouts w)
  /\ (forall t, t ∈ timeouts w ->
       (timer_id t < nextTimer w)%nat
       /\ timerCallback (callback t) = true
       /\ forall field, tracked (callback t) w = Some field -> field = Some (timer_id t))
  /\ forall cb id, tracked cb w = Some (Some id) -> (id < nextTimer w)%nat.

(** Two cards with automatic reset after 5000 ms, paused by
    [input_boolean.auto_reset]: the configuration object, the
    configuration as stored, and a run in which the host configures the
    widget, reports the entity [on] and attaches the element, and a
    second passes. *)
Definition resetSwitch : string := "input_boolean.auto_reset".

Definition pausableResetConfig : RawConfig := {|
  raw_cards := Array [markdown "A"; markdown "B"];
  raw_show_pagination := None;
  raw_start_card := None;
  raw_loop_mode := None;
  raw_state_entity := None;
  raw_auto_hide_pagination := None;
  raw_enable_reset_after := Some true;
  raw_reset_after_timeout := Some 5000;
  raw_reset_target_card := None;
  raw_slide_width := None;
  raw_slide_height := None;
  raw_slide_padding := None;
  raw_slide_gap := None;
  raw_show_version := None;
  raw_border_radius := None;
  raw_auto_reset_enabled_entity := Some resetSwitch;
|}.

Definition pausableResetSettings : Config := {|
  cards := [markdown "A"; markdown "B"];
  show_pagination := true;
  start_card := 1;
  loop_mode := "none";
  state_entity := None;
  auto_hide_pagination := 0;
  enable_reset_after := true;
  reset_after_timeout := 5000;
  reset_target_card := 1;
  slide_width := None;
  slide_height := None;
  slide_padding := None;
  slide_gap := None;
  show_version := false;
  border_radius := None;
  auto_reset_enabled_entity := Some resetSwitch;
|}.

Definition pausableReset : list Event :=
  [SetConfig pausableResetConfig; SetHass (hassWith resetSwitch "on"); Connected; Tick 1000].

(** The configuration the widget stores when the reset-timeout field of
    [pausableResetConfig] was changed to 16. *)
Definition sixteenSettings : Config := {|
  cards := [markdown "A"; markdown "B"];
  show_pagination := true;
  start_card := 1;
  loop_mode := "none";
  state_entity := None;
  auto_hide_pagination := 0;
  enable_reset_after := true;
  reset_after_timeout := 16;
  reset_target_card := 1;
  slide_width := None;
  slide_height := None;
  slide_padding := None;
  slide_gap := None;
  show_version := false;
  border_radius := None;
  auto_reset_enabled_entity := Some resetSwitch;
|}.

(** An editor that was handed [pausableResetConfig] and has dispatched
    nothing yet. *)
Definition editing : Editor.State :=
  {| Editor._config := pausableResetConfig; Editor.dispatched := [] |}.

(** ** The element references *)

(** The widget holds no reference to its scroller and its pagination:
    the state [disconnectedCallback] leaves (lines 121-122). *)
Definition detached (w : World) : Prop :=
  _cachedScroller w = false /\ _cachedPagination w = false.

(** What navigation and the tracking of the scroll position maintain:
    the two indices, the element references, the pagination element and
    the last programmatic scroll request. *)
Definition tracking (w : World) :=
  (_realIndex w, _currentIndex w, _cachedScroller w, _cachedPagination w,
   pagination <$> shadowRoot w, scrollTo_request <$> shadowRoot w).

(** [w] tracks what [w0] tracked. *)
Definition still (w0 w : World) : Prop := tracking w = tracking w0.

(** After the element was detached: it is attached again, the user
    scrolls back to the first card and lets go, and clicks the first
    dot. *)
Definition reattach : list Event :=
  [Connected; Scroll (0 # 1); AnimationFrame; Tick 150; TimerFires 3; ClickDot 0].

(** ** The scroll throttle *)

(** How many animation-frame callbacks of [_handleScroll] are queued. *)
Definition queuedScrollFrames (w : World) : nat :=
  length (filter (fun cb => cb = HandleScrollFrame) (rafQueue w)).

(** The throttle of lines 427-431: the queued callbacks and the flag. *)
Definition throttle (w : World) := (queuedScrollFrames w, _rafPending w).

(** The flag says whether a callback is queued, and at most one is. *)
Definition throttle_ok (w : World) : Prop :=
  queuedScrollFrames w = if _rafPending w then 1%nat else 0%nat.

(** No event of the run is [disconnectedCallback]. *)
Definition staysConnected (es : list Event) : bool :=
  forallb (fun e => match e with Disconnected => false | _ => true end) es.

(** ** The user-scrolling flag *)

(** The user is taken to be scrolling and no timer is pending that would
    say otherwise (lines 521-523). *)
Definition heldScrolling (w : World) : Prop :=
  _userScrolling w = true /\ pending ClearUserScrolling w = [].

(** The flag and the timers. *)
Definition scrollingView (w : World) := (_userScrolling w, timeouts w).

(** Two cards, start card 2: the widget is built, the layout is not yet
    known. *)
Definition awaitingLayout : World :=
  after allCards
    [SetConfig (sampleConfig (Array [markdown "A"; markdown "B"]) None None (Some 2));
     SetHass (hassWith page "1");
     ResumeBuild 1; ResumeBuild 1; ResumeBuild 1].

(** A card that reports its size: a markdown card as tall as its text is
    long, no size for the placeholder of a failed card. *)
Definition textLength (e : CardElement) : option Z :=
  match e with
  | Created (Some c) _ => Some (Z.of_nat (String.length (content c)))
  | _ => None
  end.

(** Three looping markdown cards, built: the configuration as stored and
    the widget. *)
Definition threeTextsSettings : Config :=
  sampleSettings [markdown "one"; markdown "three"; markdown ""] "infinite" None 1.

Definition threeTexts : World :=
  after allCards
    [SetConfig (sampleConfig (Array [markdown "one"; markdown "three"; markdown ""])
                  (Some "infinite") None None);
     SetHass (hassWith page "1");
     ResumeBuild 1; ResumeBuild 1; ResumeBuild 1; ResumeBuild 1; ResumeBuild 1; ResumeBuild 1].

(** * Properties *)

(** Methods and numeric primitives are unfolded by name only. *)
#[global] Arguments toLong : simpl never.
#[global] Arguments Math_round : simpl never.
#[global] Arguments double : simpl never.
#[global] Arguments Qltb : simpl never.
#[global] Arguments parseInt : simpl never.
#[global] Arguments cards_length : simpl never.
#[global] Arguments _getSlideWidth : simpl never.
#[global] Arguments _updatePagination : simpl never.
#[global] Arguments _goToRealIndex : simpl never.
#[global] Arguments _syncToStateEntity : simpl never.
#[global] Arguments _syncFromStateEntity : simpl never.
#[global] Arguments _resetResetTimer : simpl never.
#[global] Arguments _startPaginationHideTimer : simpl never.
#[global] Arguments settleEffects : simpl never.
#[global] Arguments settled : simpl never.
#[global] Arguments _jumpToSlide : simpl never.
#[global] Arguments _onScrollEnd : simpl never.
#[global] Arguments handleScrollFrame : simpl never.
#[global] Arguments trackScroll : simpl never.
#[global] Arguments _render : simpl never.
#[global] Arguments commitBuild : simpl never.


(** ** Index translation *)

(** C8. For N >= 1, either mode and every real index in [0, N-1], the
    translation to a DOM index, back to a real index and to a DOM index
    again gives the DOM index of the start. *)
Theorem index_translation_round_trip (infinite : bool) (N realIndex : Z) :
  1 <= N -> 0 <= realIndex <= N - 1 ->
  domIndexOf infinite (realIndexOf infinite N (domIndexOf infinite realIndex))
  = domIndexOf infinite realIndex.
Proof.
  intros HN Hr. unfold domIndexOf, realIndexOf, clampReal, Math_max, Math_min.
  destruct infinite; lia.
Qed.

Lemma index_translation_round_trip_witness :
  domIndexOf true (realIndexOf true 3 (domIndexOf true 2)) = domIndexOf true 2.
Proof. apply index_translation_round_trip; lia. Defined.

(** ** Configuration acceptance *)

Lemma guard_is_array {A} (v : Value A) :
  negb (truthy v) || negb (Array_isArray v) = negb (Array_isArray v).
Proof. destruct v; cbn; try done; apply orb_true_r. Qed.

(** C9 as stated fails: an empty card list is not a non-empty sequence,
    and [setConfig] accepts it. *)
Lemma setConfig_accepts_empty_list :
  ~ (forall config w,
        ~ nonEmptySequence (raw_cards config) -> exists m, setConfig config w = Throw m).
Proof.
  intros H.
  destruct (H (sampleConfig (Array []) None None None) (constructor 0)) as [m Hm].
  - cbn. tauto.
  - discriminate Hm.
Qed.

(** C9, amended. [setConfig] throws, with the message [Please define
    cards], exactly when the card list is not an array (missing, null or
    any other value); every array is accepted and stored, the empty one
    included. *)
Theorem setConfig_rejects_iff_not_array (config : RawConfig) (w : World) :
  match raw_cards config with
  | Array items =>
      exists w', setConfig config w = Normal w' /\ cards <$> _config w' = Some items
  | _ => setConfig config w = Throw "Please define cards"
  end.
Proof.
  unfold setConfig. rewrite guard_is_array.
  destruct (raw_cards config) eqn:E; cbn; try reflexivity.
  eexists. split; [reflexivity|].
  unfold _buildCards. cbn.
  repeat (case_match; cbn); reflexivity.
Qed.

(** ** The start position *)

(** C10. At the first render the real index is max(0, start_card - 1),
    unless a state entity is bound, known to the host, and its state
    parses to an integer v in [1, N]: then it is v - 1.  The DOM index is
    the real index, plus one in infinite mode. *)
Theorem render_start_position (w : World) (c : Config) :
  _config w = Some c ->
  _realIndex (_render w) =
    match boundValue w with
    | Some v =>
        if bool_decide (1 <= v <= cards_length w) then v - 1
        else Z.max 0 (start_card c - 1)
    | None => Z.max 0 (start_card c - 1)
    end
  /\ _currentIndex (_render w) = domIndexOf (_isInfiniteMode w) (_realIndex (_render w)).
Proof.
  intros Hc. unfold _render, boundValue. rewrite Hc. cbn. split; [|reflexivity].
  assert (Hs : Math_max 0 (or_default (start_card c) 1 - 1) = Z.max 0 (start_card c - 1)).
  { unfold Math_max, or_default. destruct (Z.eqb_spec (start_card c) 0); lia. }
  rewrite Hs.
  destruct (state_entity c) as [entity|]; cbn; [|done].
  destruct (truthy_string entity); cbn; [|done].
  destruct (_hass w) as [h|]; cbn; [|done].
  destruct (states h !! entity) as [st|]; cbn; [|done].
  destruct (parseInt st) as [v|]; cbn; [|done].
  case_bool_decide as Hv.
  - replace (v >=? 1) with true by lia. replace (v <=? cards_length w) with true by lia. done.
  - destruct (Z.geb_spec v 1), (Z.leb_spec v (cards_length w)); cbn; try done. lia.
Qed.

Lemma render_start_position_witness :
  _realIndex (_render readyToRender) = 1 /\ _currentIndex (_render readyToRender) = 1.
Proof.
  destruct (render_start_position readyToRender
              (sampleSettings [markdown "A"; markdown "B"; markdown "C"] "none" (Some page) 3))
    as [Hreal Hdom]; [vm_compute; reflexivity|].
  rewrite Hdom, Hreal. vm_compute. split; reflexivity.
Defined.

(** ** Inbound synchronisation *)

(** Every call of [_syncFromStateEntity] either leaves the world as it
    is, or passed every guard and navigates. *)
Lemma syncFromStateEntity_cases oldHass newHass w :
  _syncFromStateEntity oldHass newHass w = w \/
  exists c entity newState stateValue targetIndex,
    _config w = Some c /\ state_entity c = Some entity /\ entity <> ""%string /\
    _userScrolling w = false /\
    states newHass !! entity = Some newState /\
    parseInt newState = Some stateValue /\
    inboundTarget entity newState = Some targetIndex /\
    0 <= targetIndex < cards_length w /\
    targetIndex <> _realIndex w /\
    ~ (_lastSyncedValue w = Some stateValue /\ now w - _syncedAt w < 2000) /\
    _syncFromStateEntity oldHass newHass w = navigate targetIndex w.
Proof.
  unfold _syncFromStateEntity.
  destruct (_config w) as [c|] eqn:Hc; [|by left].
  destruct (state_entity c) as [entity|] eqn:He; [|by left].
  destruct (truthy_string entity) eqn:Ht; cbn [negb]; [|by left].
  destruct (_userScrolling w) eqn:Hu; [by left|].
  destruct (states newHass !! entity) as [newState|] eqn:Hs; [|by left].
  destruct (truthy_string newState) eqn:Hn; cbn [negb]; [|by left].
  destruct (parseInt newState) as [stateValue|] eqn:Hp; [|by left].
  set (targetIndex := if String.prefix "input_number." entity
                      then stateValue - 1 else stateValue).
  destruct ((targetIndex <? 0) || (targetIndex >=? cards_length w)) eqn:Hr; [by left|].
  destruct (targetIndex =? _realIndex w) eqn:Hq; [by left|].
  destruct (bool_decide (_lastSyncedValue w = Some stateValue)
            && (now w - _syncedAt w <? 2000)) eqn:Hm; [by left|].
  right. exists c, entity, newState, stateValue, targetIndex.
  apply orb_false_iff in Hr.
  repeat split; try done; try lia.
  - intros ->. discriminate Ht.
  - unfold inboundTarget. rewrite Hp. reflexivity.
  - intros [H1 H2]. apply andb_false_iff in Hm. destruct Hm as [Hm|Hm].
    + apply bool_decide_eq_false in Hm. done.
    + lia.
Qed.

(** C4. An inbound update carrying [newState] for the bound entity:
    (a) changes nothing while the user is scrolling; (b) changes nothing
    when its value is the one last pushed and less than 2000 ms have
    passed since; (c) changes nothing when the value does not parse, (d)
    or is out of range, (e) or its target is the current real index; (f)
    in every other case it is the programmatic navigation to the target. *)
Theorem inbound_sync (oldHass : option Hass) (newHass : Hass) (w : World)
    (c : Config) (entity newState : string) :
  _config w = Some c ->
  state_entity c = Some entity ->
  entity <> ""%string ->
  states newHass !! entity = Some newState ->
  let result := _syncFromStateEntity oldHass newHass w in
  (_userScrolling w = true -> result = w)
  /\ (forall v, parseInt newState = Some v -> _lastSyncedValue w = Some v ->
                now w - _syncedAt w < 2000 -> result = w)
  /\ (parseInt newState = None -> result = w)
  /\ (forall t, inboundTarget entity newState = Some t ->
                t < 0 \/ cards_length w <= t -> result = w)
  /\ (forall t, inboundTarget entity newState = Some t -> t = _realIndex w -> result = w)
  /\ (forall v t, parseInt newState = Some v -> inboundTarget entity newState = Some t ->
                  _userScrolling w = false ->
                  0 <= t < cards_length w ->
                  t <> _realIndex w ->
                  _lastSyncedValue w <> Some v \/ 2000 <= now w - _syncedAt w ->
                  result = navigate t w).
Proof.
  intros Hc He Hne Hs result.
  repeat split.
  - intros Hu. destruct (_userScrolling w) eqn:E; [|done].
    unfold result, _syncFromStateEntity. rewrite Hc, He.
    destruct (truthy_string entity); cbn; by rewrite ?E.
  - intros v Hv Hl Ht. unfold result, _syncFromStateEntity. rewrite Hc, He, Hs, Hv, Hl.
    repeat (case_match; try done);
      exfalso; rewrite bool_decide_eq_true_2 in * by done; cbn in *; lia.
  - intros Hp. unfold result, _syncFromStateEntity. rewrite Hc, He, Hs, Hp.
    repeat (case_match; try done).
  - intros t Ht Hr. unfold inboundTarget in Ht.
    destruct (parseInt newState) as [v|] eqn:Hp; [|done]. cbn in Ht. injection Ht as <-.
    unfold result, _syncFromStateEntity. rewrite Hc, He, Hs, Hp.
    repeat (case_match; try done); exfalso; cbn in *; lia.
  - intros t Ht Hr. unfold inboundTarget in Ht.
    destruct (parseInt newState) as [v|] eqn:Hp; [|done]. cbn in Ht. injection Ht as <-.
    unfold result, _syncFromStateEntity. rewrite Hc, He, Hs, Hp.
    repeat (case_match; try done); exfalso; cbn in *; lia.
  - intros v t Hp Ht Hu Hr Hq Hm. unfold inboundTarget in Ht. rewrite Hp in Ht.
    cbn in Ht. injection Ht as <-.
    assert (Hts : truthy_string entity = true).
    { unfold truthy_string. destruct (String.eqb_spec entity ""); done. }
    assert (Hns : truthy_string newState = true).
    { unfold truthy_string. destruct (String.eqb_spec newState "") as [->|]; done. }
    unfold result, _syncFromStateEntity, navigate. rewrite Hc, He, Hs, Hp, Hts, Hns, Hu. cbn.
    repeat (case_match; try done); exfalso; cbn in *; try lia;
      (destruct Hm as [Hm|Hm]; [|lia]);
      rewrite bool_decide_eq_false_2 in * by done; done.
Qed.

Lemma inbound_sync_witness :
  _syncFromStateEntity None (hassWith page "2") (after allCards swipeToSecond)
  = after allCards swipeToSecond.
Proof.
  destruct (inbound_sync None (hassWith page "2") (after allCards swipeToSecond)
              (sampleSettings [markdown "A"; markdown "B"] "none" (Some page) 1)
              page "2") as (_ & Hecho & _).
  - vm_compute; reflexivity.
  - vm_compute; reflexivity.
  - discriminate.
  - vm_compute; reflexivity.
  - apply (Hecho 2); vm_compute; reflexivity.
Defined.

(** ** Outbound synchronisation *)

Lemma prefix_nonempty (p s : string) :
  p <> ""%string -> String.prefix p s = true -> truthy_string s = true.
Proof. destruct p, s; cbn; done. Qed.

(** C5 as stated fails: the user settles on the second card, the widget
    pushes 2; the user settles on the same card again while the host
    context still reads 1, and the widget pushes 2 a second time. *)
Lemma second_commit_pushes_again :
  serviceCalls <$> run allCards (swipeToSecond ++ wiggle) (constructor 0)
  = Some [setValue page 2; setValue page 2]
  /\ _realIndex <$> run allCards swipeToSecond (constructor 0) = Some 1
  /\ _realIndex <$> run allCards (swipeToSecond ++ wiggle) (constructor 0) = Some 1.
Proof. vm_compute. repeat split. Qed.

(** C5, amended. With no state entity bound the outbound sync changes
    nothing.  With an entity [input_number.*] and real index k: if the
    host context already reads k + 1 nothing is written; otherwise the
    value k + 1 and the time are recorded first and then [set_value] is
    called with k + 1; and once the host context reads k + 1, a further
    sync at the same real index writes nothing. *)
Theorem outbound_sync (w : World) (c : Config) :
  _config w = Some c ->
  (state_entity c = None -> _syncToStateEntity w = w)
  /\ (forall entity hass,
        state_entity c = Some entity ->
        String.prefix "input_number." entity = true ->
        _hass w = Some hass ->
        let k := _realIndex w in
        (parseInt_opt (states hass !! entity) = Some (k + 1) -> _syncToStateEntity w = w)
        /\ (parseInt_opt (states hass !! entity) <> Some (k + 1) ->
              _syncToStateEntity w
              = callService (setValue entity (k + 1)) (recordSync (k + 1) w)
              /\ _lastSyncedValue (recordSync (k + 1) w) = Some (k + 1)
              /\ _syncedAt (recordSync (k + 1) w) = now w
              /\ serviceCalls (recordSync (k + 1) w) = serviceCalls w
              /\ serviceCalls (_syncToStateEntity w)
                 = serviceCalls w ++ [setValue entity (k + 1)])
        /\ (forall hass',
              parseInt_opt (states hass' !! entity) = Some (k + 1) ->
              let w1 := (_syncToStateEntity w) <| _hass := Some hass' |> in
              _realIndex w1 = k /\ _syncToStateEntity w1 = w1)).
Proof.
  intros Hc. split.
  - intros He. unfold _syncToStateEntity. by rewrite Hc, He.
  - intros entity hass He Hp Hh k.
    assert (Ht : truthy_string entity = true)
      by (apply (prefix_nonempty "input_number." entity); [discriminate|done]).
    assert (Hskip : forall w0 h0, _config w0 = Some c -> _hass w0 = Some h0 ->
              parseInt_opt (states h0 !! entity) = Some (_realIndex w0 + 1) ->
              _syncToStateEntity w0 = w0).
    { intros w0 h0 Hc0 Hh0 Hv. unfold _syncToStateEntity.
      rewrite Hc0, He, Hh0, Ht, Hp. cbn. by rewrite bool_decide_eq_true_2. }
    split; [|split].
    + by apply Hskip.
    + intros Hv. unfold _syncToStateEntity. rewrite Hc, He, Hh, Ht, Hp. cbn.
      rewrite bool_decide_eq_false_2 by done. by repeat split.
    + intros hass' Hv w1.
      assert (Hk : _realIndex w1 = k).
      { unfold w1, _syncToStateEntity. rewrite Hc, He, Hh, Ht, Hp. cbn.
        by case_match. }
      split; [done|]. apply (Hskip w1 hass').
      * unfold w1, _syncToStateEntity. rewrite Hc, He, Hh, Ht, Hp. cbn. by case_match.
      * reflexivity.
      * by rewrite Hk.
Qed.

Lemma outbound_sync_witness :
  serviceCalls (_syncToStateEntity
                  ((after allCards swipeToSecond) <| serviceCalls := [] |>))
  = [setValue page 2].
Proof.
  destruct (outbound_sync ((after allCards swipeToSecond) <| serviceCalls := [] |>)
              (sampleSettings [markdown "A"; markdown "B"] "none" (Some page) 1))
    as [_ H]; [vm_compute; reflexivity|].
  destruct (H page (hassWith page "1")) as (_ & Hpush & _);
    [vm_compute; reflexivity..|].
  destruct Hpush as (_ & _ & _ & _ & Hcalls).
  - intros Heq. vm_compute in Heq. discriminate Heq.
  - rewrite Hcalls. vm_compute. reflexivity.
Defined.

(** ** The clone jump *)

Ltac methods :=
  unfold settleEffects, settled, _updatePagination, _syncToStateEntity, _resetResetTimer,
    _startPaginationHideTimer, _showPagination, with_pagination, with_scroller, clearTimeout,
    setTimeout, requestAnimationFrame, callService, recordSync, scrollTo.

Lemma position_updatePagination w : position (_updatePagination w) = position w.
Proof.
  unfold position. methods.
  repeat (case_match; cbn); try done; by destruct (shadowRoot w).
Qed.

Lemma position_syncToStateEntity w : position (_syncToStateEntity w) = position w.
Proof. unfold position. methods. repeat (case_match; cbn); done. Qed.

Lemma position_resetResetTimer w : position (_resetResetTimer w) = position w.
Proof. unfold position. methods. repeat (case_match; cbn); done. Qed.

Lemma position_startPaginationHideTimer w :
  position (_startPaginationHideTimer w) = position w.
Proof. unfold position. methods. repeat (case_match; cbn); done. Qed.

Lemma position_with_pagination f w : position (with_pagination f w) = position w.
Proof.
  unfold position. methods.
  repeat (case_match; cbn); try done; by destruct (shadowRoot w).
Qed.

(** The post-settle effects touch neither the position nor the jump. *)
Lemma position_settleEffects w : position (settleEffects w) = position w.
Proof.
  unfold settleEffects. destruct (_config w) as [c|] eqn:Hc; [|done].
  rewrite position_with_pagination.
  destruct (auto_hide_pagination c >? 0); rewrite ?position_startPaginationHideTimer;
    destruct (enable_reset_after c); rewrite ?position_resetResetTimer;
    by rewrite position_syncToStateEntity, position_updatePagination.
Qed.

Lemma Qltb_true x y : (x < y)%Q -> Qltb x y = true.
Proof.
  intros H. unfold Qltb. destruct (Qle_bool y x) eqn:E; [|done].
  apply Qle_bool_iff in E. lra.
Qed.

Lemma Qltb_false x y : (y <= x)%Q -> Qltb x y = false.
Proof. intros H. unfold Qltb. apply Qle_bool_iff in H. by rewrite H. Qed.

(** A jump, followed through its two animation frames. *)
Lemma jump_two_frames helpers targetDomIndex targetRealIndex w scroller :
  _cachedScroller w = true ->
  shadowRoot w = Some scroller ->
  rafQueue w = [] ->
  position (_jumpToSlide targetDomIndex targetRealIndex w)
    = (targetRealIndex, targetDomIndex, true, _isInfiniteMode w, Some false)
  /\ position (landed targetDomIndex targetRealIndex w)
    = (targetRealIndex, targetDomIndex, false, _isInfiniteMode w, Some true)
  /\ run helpers [AnimationFrame; AnimationFrame]
        (_jumpToSlide targetDomIndex targetRealIndex w)
    = Some (settleEffects (landed targetDomIndex targetRealIndex w)).
Proof.
  intros Hs Hd Hq. unfold landed, _jumpToSlide, position. rewrite Hs. cbn.
  unfold with_scroller, requestAnimationFrame. cbn. rewrite Hd, Hq. cbn.
  split; [reflexivity|]. split; [reflexivity|].
  unfold jumpFrame1, jumpFrame2, with_scroller, requestAnimationFrame.
  cbn -[settleEffects]. reflexivity.
Qed.

(** ** The build *)

Lemma createCard_eq helpers c w :
  createCard helpers c w
  = w <| nodes := nodes w ++ [cardElement helpers (_hass w) c] |>
      <| _cards := _cards w ++ [length (nodes w)] |>.
Proof. unfold createCard, cardElement. by destruct (helpers (Some c)). Qed.

Lemma createCards_eq helpers cs w :
  createCards helpers cs w
  = w <| nodes := nodes w ++ map (cardElement helpers (_hass w)) cs |>
      <| _cards := _cards w ++ seq (length (nodes w)) (length cs) |>.
Proof.
  revert w. induction cs as [|c cs IH]; intros w.
  - cbn. rewrite !app_nil_r. by destruct w.
  - unfold createCards in *. cbn [foldl]. rewrite IH, createCard_eq. cbn.
    rewrite length_app, <- !app_assoc. cbn.
    replace (length (nodes w) + 1)%nat with (S (length (nodes w))) by lia. reflexivity.
Qed.

Lemma runBuild_cards helpers fuel b c rest w :
  runBuild (S (length rest) + fuel) helpers {| thisBuildId := b; pc := AwaitCard c rest |} w
  = match afterCards b (createCards helpers (c :: rest) w) with
    | (w', None) => Some w'
    | (w', Some b') => runBuild fuel helpers b' w'
    end.
Proof.
  revert c w. induction rest as [|c' rest IH]; intros c w.
  - cbn. unfold createCards. cbn. by destruct (afterCards b (createCard helpers c w)) as [? []].
  - cbn [length]. change (runBuild (S (S (length rest)) + fuel) helpers ?x w) with
      (runBuild (S (S (length rest) + fuel)) helpers x w). cbn [runBuild resume pc thisBuildId nextCard].
    rewrite IH. reflexivity.
Qed.

Lemma buildState_render w : buildState (_render w) = buildState w.
Proof. unfold _render, buildState, requestAnimationFrame. destruct (_config w) eqn:E; cbn; by rewrite ?E. Qed.

Lemma initialized_render w : _initialized (_render w) = _initialized w.
Proof. unfold _render, requestAnimationFrame. destruct (_config w); cbn; done. Qed.

Lemma buildState_startPaginationHideTimer w :
  buildState (_startPaginationHideTimer w) = buildState w
  /\ _initialized (_startPaginationHideTimer w) = _initialized w.
Proof.
  unfold _startPaginationHideTimer, buildState, clearTimeout, setTimeout.
  repeat (case_match; cbn); split; congruence.
Qed.

Lemma buildState_commitBuild b w :
  buildState (commitBuild b w) = buildState w
  /\ _initialized (commitBuild b w) = (b =? _buildId w) || _initialized w.
Proof.
  unfold commitBuild. destruct (b =? _buildId w); cbn [negb orb]; [|done].
  assert (H1 := buildState_render w).
  set (w1 := (_render w) <| _initialized := true |>).
  assert (H2 : buildState w1 = buildState w) by (rewrite <- H1; done).
  destruct (_config w1); [|done].
  destruct (auto_hide_pagination c >? 0); [|done].
  destruct (buildState_startPaginationHideTimer w1) as [-> ->]. done.
Qed.

Lemma build_reaches_cardsBuilt helpers w c h fuel :
  _config w = Some c -> _hass w = Some h -> _initialized w = false ->
  let b := _buildId w + 1 in
  runBuild (length (cards c) + S fuel) helpers {| thisBuildId := b; pc := AwaitHelpers |} (_buildCards w)
  = if _isInfiniteMode (cardsBuilt helpers w c)
    then runBuild fuel helpers
           {| thisBuildId := b; pc := AwaitCloneOfLast (cards c !! (length (cards c) - 1)%nat) |}
           (cardsBuilt helpers w c)
    else Some (commitBuild b (cardsBuilt helpers w c)).
Proof.
  intros Hc Hh Hi b.
  assert (Hb : _buildCards w = w <| _buildId := b |>
                 <| builds := builds w ++ [{| thisBuildId := b; pc := AwaitHelpers |}] |>).
  { unfold _buildCards. rewrite Hc, Hh. cbn. by rewrite Hi. }
  set (w1 := (_buildCards w) <| _cards := [] |>).
  assert (Hafter : forall cs,
    afterCards b (createCards helpers cs w1)
    = let w0 := createCards helpers cs w1 in
      let w2 := w0 <| _isInfiniteMode := requestsLooping c && (cards_length w0 >? 1) |>
                   <| _allSlideCards := _cards w0 |> in
      if _isInfiniteMode w2
      then (w2, Some {| thisBuildId := b; pc := AwaitCloneOfLast (cards c !! (length (cards c) - 1)%nat) |})
      else (commitBuild b w2, None)).
  { intros cs. unfold afterCards. rewrite createCards_eq. unfold w1. rewrite Hb. cbn.
    rewrite Z.eqb_refl, Hc. cbn. reflexivity. }
  destruct (cards c) as [|c0 rest] eqn:Hcs.
  - change (length [] + S fuel)%nat with (S fuel). cbn [runBuild resume pc thisBuildId].
    replace (b =? _buildId (_buildCards w)) with true by (rewrite Hb; cbn; lia).
    cbn [negb]. fold w1. replace (_config w1) with (Some c) by (unfold w1; rewrite Hb; done).
    rewrite Hcs. cbn [nextCard].
    specialize (Hafter []). unfold createCards in Hafter. cbn [foldl] in Hafter.
    rewrite Hafter. unfold cardsBuilt. rewrite Hcs. unfold createCards. cbn [foldl]. fold w1.
    cbv zeta.
    match goal with |- context [if ?x then _ else _] => destruct x end; reflexivity.
  - replace (length (c0 :: rest) + S fuel)%nat with (S (S (length rest) + fuel)) by (cbn; lia).
    cbn [runBuild resume pc thisBuildId].
    replace (b =? _buildId (_buildCards w)) with true by (rewrite Hb; cbn; lia).
    cbn [negb]. fold w1. replace (_config w1) with (Some c) by (unfold w1; rewrite Hb; done).
    rewrite Hcs. cbn [nextCard].
    rewrite runBuild_cards, Hafter. unfold cardsBuilt. rewrite Hcs. fold w1.
    cbv zeta.
    match goal with |- context [if ?x then _ else _] => destruct x end; reflexivity.
Qed.

Lemma requestsLooping_iff c :
  requestsLooping c = true <-> loop_mode c = "infinite"%string \/ loop_mode c = "loopback"%string.
Proof.
  unfold requestsLooping. rewrite orb_true_iff, !String.eqb_eq. reflexivity.
Qed.

Lemma cardsBuilt_fields helpers w c h :
  _config w = Some c -> _hass w = Some h -> _initialized w = false ->
  let w2 := cardsBuilt helpers w c in
  _cards w2 = seq (length (nodes w)) (length (cards c))
  /\ nodes w2 = nodes w ++ map (cardElement helpers (Some h)) (cards c)
  /\ _isInfiniteMode w2 = requestsLooping c && (Z.of_nat (length (cards c)) >? 1)
  /\ _allSlideCards w2 = _cards w2
  /\ _config w2 = Some c /\ _hass w2 = Some h /\ _buildId w2 = _buildId w + 1
  /\ _initialized w2 = false.
Proof.
  intros Hc Hh Hi w2. unfold w2, cardsBuilt. rewrite createCards_eq.
  unfold _buildCards. rewrite Hc, Hh. cbn. rewrite Hi. cbn. rewrite Hh.
  unfold cards_length. cbn. rewrite length_seq. done.
Qed.

(** X25. A build that nothing interrupts (it is resumed from one await
    to the next, and no other build and no call of the host runs in
    between) returns; it leaves as many cards as there are descriptions;
    it turns infinite mode on exactly when the loop mode is [infinite] or
    [loopback] and there is more than one card; and when it has committed
    in infinite mode, the display sequence is a clone made from the last
    description, the real cards in order, and a clone made from the first
    description, N + 2 entries in all. *)
Theorem uninterrupted_build (helpers : Helpers) (w : World) (c : Config) (h : Hass) :
  _config w = Some c -> _hass w = Some h -> _initialized w = false ->
  exists w',
    runBuild (length (cards c) + 3) helpers
      {| thisBuildId := _buildId w + 1; pc := AwaitHelpers |} (_buildCards w) = Some w'
    /\ length (_cards w') = length (cards c)
    /\ (_isInfiniteMode w' = true <->
        (loop_mode c = "infinite"%string \/ loop_mode c = "loopback"%string)
        /\ (1 < length (cards c))%nat)
    /\ (_isInfiniteMode w' = true -> _initialized w' = true ->
        exists cloneOfLast cloneOfFirst,
          _allSlideCards w' = [cloneOfLast] ++ _cards w' ++ [cloneOfFirst]
          /\ length (_allSlideCards w') = (length (cards c) + 2)%nat
          /\ nodes w' !! cloneOfLast = Some (Created (last (cards c)) (Some h))
          /\ nodes w' !! cloneOfFirst = Some (Created (head (cards c)) (Some h))
          /\ forall i card, _cards w' !! i = Some card ->
               exists cardConfig, cards c !! i = Some cardConfig
                 /\ nodes w' !! card = Some (cardElement helpers (Some h) cardConfig)).
Proof.
  intros Hc Hh Hi.
  rewrite (build_reaches_cardsBuilt helpers w c h 2 Hc Hh Hi).
  destruct (cardsBuilt_fields helpers w c h Hc Hh Hi)
    as (Hcards & Hnodes & Hinf & Hall & Hc2 & Hh2 & Hb2 & Hi2).
  remember (cardsBuilt helpers w c) as w2 eqn:Hw2. clear Hw2.
  remember (_buildId w + 1) as b eqn:Hb. clear Hb.
  assert (Hiff : forall w', _isInfiniteMode w' = _isInfiniteMode w2 ->
            (_isInfiniteMode w' = true <->
             (loop_mode c = "infinite"%string \/ loop_mode c = "loopback"%string)
             /\ (1 < length (cards c))%nat)).
  { intros w' ->. rewrite Hinf, andb_true_iff, requestsLooping_iff. 
    split; intros [H1 H2]; (split; [done|lia]). }
  destruct (_isInfiniteMode w2) eqn:Hmode.
  - (* clones *)
    cbn [runBuild resume pc thisBuildId].
    destruct (helpers (cards c !! (length (cards c) - 1)%nat)) eqn:Hlast.
    2:{ exists w2. repeat split; try (by apply Hiff); try (by (apply (Hiff w2); done)).
        - by rewrite Hcards, length_seq.
        - congruence. }
    cbn. rewrite Hc2. cbn.
    destruct (helpers (cards c !! 0%nat)) eqn:Hfirst.
    2:{ eexists. split; [reflexivity|]. cbn. repeat split; try (by (apply (Hiff w2); done)).
        - by rewrite Hcards, length_seq.
        - rewrite Hi2. congruence. }
    cbn.
    match goal with |- context [commitBuild b ?x] => set (w4 := x) end.
    destruct (buildState_commitBuild b w4) as [Hst Hin].
    exists (commitBuild b w4). split; [reflexivity|].
    unfold buildState in Hst. injection Hst as E1 E2 E3 E4 E5 E6 E7.
    rewrite E1, E2, E4. subst w4. cbn. cbn in E3.
    split; [by rewrite Hcards, length_seq|].
    split; [apply Hiff; by rewrite E3|].
    intros _ _. exists (length (nodes w2)), (length (nodes w2 ++ [Created (cards c !! (length (cards c) - 1)%nat) (_hass w2)])).
    split; [reflexivity|].
    split; [rewrite length_app, Hcards, length_seq; cbn; lia|].
    rewrite Hh2.
    split.
    { rewrite lookup_app_l by (rewrite length_app; cbn; lia).
      rewrite lookup_app_r by lia. rewrite Nat.sub_diag. cbn.
      by rewrite last_lookup, Nat.sub_1_r. }
    split.
    { rewrite lookup_app_r by lia. rewrite Nat.sub_diag. cbn. by rewrite head_lookup. }
    intros i card Hlook. rewrite Hcards in Hlook.
    apply lookup_seq in Hlook as [-> Hlt].
    destruct (lookup_lt_is_Some_2 (cards c) i Hlt) as [cardConfig Hcfg].
    exists cardConfig. split; [done|].
    rewrite <- app_assoc, Hnodes, <- app_assoc, lookup_app_r by lia.
    replace (length (nodes w) + i - length (nodes w))%nat with i by lia.
    rewrite lookup_app_l by (rewrite length_map; lia).
    by rewrite list_lookup_fmap, Hcfg.
  - (* no clones *)
    destruct (buildState_commitBuild b w2) as [Hst Hin].
    exists (commitBuild b w2). split; [reflexivity|].
    unfold buildState in Hst. injection Hst as E1 E2 E3 E4 E5 E6 E7.
    rewrite E1. split; [by rewrite Hcards, length_seq|].
    split; [apply Hiff; by rewrite E3|].
    intros Ht. rewrite E3 in Ht. congruence.
Qed.

Lemma uninterrupted_build_witness :
  exists w',
    runBuild (length (cards infiniteSettings) + 3) allCards
      {| thisBuildId := _buildId infiniteConfigured + 1; pc := AwaitHelpers |}
      (_buildCards infiniteConfigured) = Some w'
    /\ length (_cards w') = length (cards infiniteSettings)
    /\ _isInfiniteMode w' = true.
Proof.
  destruct (uninterrupted_build allCards infiniteConfigured infiniteSettings
              (hassWith page "1"))
    as (w' & Hrun & Hlen & Hmode & _); [vm_compute; reflexivity..|].
  exists w'. split; [exact Hrun|]. split; [exact Hlen|].
  apply Hmode. split; [left; reflexivity|]. unfold infiniteSettings. cbn. lia.
Defined.

(** Line 160 takes the loop mode [loopback], which the configuration
    surface does not list, for [infinite]: a build of two cards under it
    turns infinite mode on. *)
Lemma loopback_turns_infinite_mode_on :
  ~ (forall helpers w c h w',
        _config w = Some c -> _hass w = Some h -> _initialized w = false ->
        runBuild (length (cards c) + 3) helpers
          {| thisBuildId := _buildId w + 1; pc := AwaitHelpers |} (_buildCards w) = Some w' ->
        (_isInfiniteMode w' = true <->
         loop_mode c = "infinite"%string /\ (1 < length (cards c))%nat)).
Proof.
  intros H.
  specialize (H allCards loopbackConfigured loopbackSettings (hassWith page "1")
                (default (constructor 0)
                   (runBuild 5 allCards {| thisBuildId := 1; pc := AwaitHelpers |}
                      (_buildCards loopbackConfigured)))).
  destruct H as [H _]; [vm_compute; reflexivity..|].
  destruct H as [Heq _]; [vm_compute; reflexivity|].
  discriminate Heq.
Qed.

(** ** What the build and the position tracker do keep *)

Lemma committed_createCard helpers c w : committed (createCard helpers c w) = committed w.
Proof. rewrite createCard_eq. reflexivity. Qed.

(** X4. A build whose token is no longer the counter, resumed at any of
    its awaits, leaves the position, the initialized flag, the rendered
    tree, the scheduled frames and timers and the cached references as
    they are. *)
Theorem superseded_build_commits_nothing (helpers : Helpers) (b : Build) (w : World) :
  thisBuildId b <> _buildId w ->
  committed (fst (resume helpers b w)) = committed w.
Proof.
  intros Hne. apply Z.eqb_neq in Hne.
  assert (Hcommit : forall w', _buildId w' = _buildId w -> commitBuild (thisBuildId b) w' = w').
  { intros w' Hw'. unfold commitBuild. by rewrite Hw', Hne. }
  assert (Hafter : forall w', committed w' = committed w ->
            committed (fst (afterCards (thisBuildId b) w')) = committed w).
  { intros w' Hw'. unfold afterCards.
    replace (_buildId w') with (_buildId w) by (unfold committed in Hw'; congruence).
    by rewrite Hne. }
  unfold resume. destruct (pc b) as [|cardConfig rest|lastCardConfig|cloneOfLast firstCardConfig].
  - by rewrite Hne.
  - destruct rest as [|c' rest']; cbn [nextCard fst].
    + apply Hafter, committed_createCard.
    + apply committed_createCard.
  - destruct (helpers lastCardConfig); [|done]. cbn. by destruct (_config w).
  - destruct (helpers firstCardConfig); [|done]. cbn [fst]. by rewrite Hcommit.
Qed.

Lemma superseded_build_commits_nothing_witness :
  committed (fst (resume allCards {| thisBuildId := 1; pc := AwaitCard (markdown "A") [markdown "B"] |}
                    (after allCards supersede)))
  = committed (after allCards supersede).
Proof. apply superseded_build_commits_nothing. vm_compute. discriminate. Defined.

(** X1. While the widget holds its scroller reference (it has rendered
    and was not detached since), with at least one card, a measurable
    slide width and a display sequence of N (or, in infinite mode, N + 2)
    entries, programmatic navigation leaves the requested index clamped
    to [0, N-1] as real index, a DOM index inside the display sequence,
    and DOM index = real index + 1 in infinite mode, = real index
    otherwise. *)
Theorem goToRealIndex_restores_position (realIndex : Z) (smooth : bool) (w : World) :
  _cachedScroller w = true ->
  _getSlideWidth w <> 0 ->
  1 <= cards_length w ->
  length (_allSlideCards w) = (length (_cards w) + (if _isInfiniteMode w then 2 else 0))%nat ->
  let w' := _goToRealIndex realIndex smooth w in
  _realIndex w' = clampReal (cards_length w) realIndex
  /\ 0 <= _realIndex w' <= cards_length w' - 1
  /\ 0 <= _currentIndex w' <= Z.of_nat (length (_allSlideCards w')) - 1
  /\ _currentIndex w' = _realIndex w' + (if _isInfiniteMode w' then 1 else 0).
Proof.
  intros Hs Hw HN Hlen w'.
  assert (Hfields : (_realIndex w', _currentIndex w', _isInfiniteMode w', _cards w', _allSlideCards w')
          = (clampReal (cards_length w) realIndex,
             domIndexOf (_isInfiniteMode w) (clampReal (cards_length w) realIndex),
             _isInfiniteMode w, _cards w, _allSlideCards w)).
  { unfold w', _goToRealIndex. rewrite Hs. cbn.
    replace (_getSlideWidth _ =? 0) with false.
    2:{ symmetry. apply Z.eqb_neq. exact Hw. }
    unfold _updatePagination, with_pagination, scrollTo, with_scroller. cbn.
    by destruct (_cachedPagination w). }
  injection Hfields as -> -> -> Hc ->.
  unfold cards_length in *. rewrite Hc, Hlen.
  unfold clampReal, domIndexOf, Math_max, Math_min. destruct (_isInfiniteMode w); lia.
Qed.


Lemma goToRealIndex_restores_position_witness :
  _realIndex (_goToRealIndex 7 true (after allCards swipeToSecond)) = 1.
Proof.
  destruct (goToRealIndex_restores_position 7 true (after allCards swipeToSecond))
    as (Hreal & _); [vm_compute; reflexivity|vm_compute; discriminate
                    |vm_compute; discriminate|vm_compute; reflexivity|].
  rewrite Hreal. vm_compute. reflexivity.
Defined.

Lemma indices_with_pagination f w : indices (with_pagination f w) = indices w.
Proof. unfold with_pagination, with_scroller. by destruct (_cachedPagination w). Qed.

Lemma indices_clearTimeout id w : indices (clearTimeout id w) = indices w.
Proof. by destruct id. Qed.

Lemma trackScroll_in_range w :
  1 <= cards_length w -> realInRange w ->
  realInRange (trackScroll w) /\ _cards (trackScroll w) = _cards w.
Proof.
  intros HN Hr. unfold trackScroll.
  destruct (_cachedScroller w); [|done].
  destruct (shadowRoot w) as [scroller|]; [|done].
  destruct (_getSlideWidth w >? 0); [|done].
  set (d := Math_round _).
  destruct (negb _); [|done].
  unfold _updatePagination.
  match goal with |- context [with_pagination ?f ?x] =>
    assert (Hi := indices_with_pagination f x); set (w' := with_pagination f x) in * end.
  unfold indices in Hi. cbn in Hi. injection Hi as E1 _ _ E4 _.
  unfold realInRange, cards_length. rewrite E1, E4. split; [|done].
  unfold realIndexOf, clampReal, Math_max, Math_min, cards_length in *. lia.
Qed.

(** X2. With at least one card, the live index update of a scroll frame
    keeps a real index that lies in [0, N-1] in [0, N-1]. *)
Theorem handleScrollFrame_keeps_real_index_in_range (w : World) :
  1 <= cards_length w ->
  realInRange w ->
  realInRange (handleScrollFrame w).
Proof.
  intros HN Hr. unfold handleScrollFrame.
  set (w0 := w <| _rafPending := false |>).
  assert (H0 : realInRange w0 /\ _cards w0 = _cards w) by done.
  destruct (_jumping w0); [tauto|].
  set (w1 := clearTimeout _ (with_pagination _ w0)).
  assert (H1 : indices w1 = indices w0)
    by (unfold w1; by rewrite indices_clearTimeout, indices_with_pagination).
  assert (H1' : realInRange w1 /\ _cards w1 = _cards w).
  { unfold indices in H1. injection H1 as E1 _ _ E4 _.
    unfold realInRange, cards_length in *. rewrite E1, E4. done. }
  destruct (trackScroll_in_range w1) as [H2 H2c]; [|tauto|].
  { unfold cards_length in *. destruct H1' as [_ ->]. done. }
  set (w2 := trackScroll w1) in *.
  set (w3 := clearTimeout (_scrollTimeout w2) w2).
  assert (H3 : indices w3 = indices w2) by apply indices_clearTimeout.
  unfold setTimeout. cbn.
  unfold indices in H3. injection H3 as E1 _ _ E4 _.
  unfold realInRange, cards_length in *. cbn. rewrite E1, E4. done.
Qed.

Lemma handleScrollFrame_keeps_real_index_in_range_witness :
  realInRange (handleScrollFrame (after allCards swipeToSecond)).
Proof.
  apply handleScrollFrame_keeps_real_index_in_range.
  - vm_compute. discriminate.
  - split; vm_compute; discriminate.
Defined.

Lemma slides_render w c :
  _config w = Some c ->
  (fun d => child <$> slides d) <$> shadowRoot (_render w) = Some (Some <$> _allSlideCards w).
Proof.
  intros Hc. unfold _render, requestAnimationFrame. rewrite Hc. cbn.
  f_equal. induction (_allSlideCards w) as [|x l IH]; cbn; [done|]. by rewrite IH.
Qed.

Lemma shadowRoot_startPaginationHideTimer w :
  shadowRoot (_startPaginationHideTimer w) = shadowRoot w.
Proof.
  unfold _startPaginationHideTimer, clearTimeout, setTimeout.
  repeat (case_match; cbn); done.
Qed.

Lemma slides_commitBuild w c :
  _config w = Some c ->
  (fun d => child <$> slides d) <$> shadowRoot (commitBuild (_buildId w) w)
  = Some (Some <$> _allSlideCards w).
Proof.
  intros Hc. unfold commitBuild. rewrite Z.eqb_refl. cbn [negb].
  assert (Hst := buildState_render w). unfold buildState in Hst.
  injection Hst as _ _ _ _ Hc' _ _.
  replace (_config ((_render w) <| _initialized := true |>)) with (Some c)
    by (cbn; congruence).
  destruct (auto_hide_pagination c >? 0); rewrite ?shadowRoot_startPaginationHideTimer;
    cbn; by apply (slides_render w c).
Qed.

(** X3. A build that nothing interrupts (it is resumed from one await
    to the next, and no other build and no call of the host runs in
    between) and that does not loop (the loop mode asks for none, or
    there is at most one card) commits and renders whatever the factory
    answers: one slide per description, in order, each holding the card
    made from its description or, where the factory failed, the
    placeholder with the failure's message. *)
Theorem build_without_looping_renders (helpers : Helpers) (w : World) (c : Config) (h : Hass) :
  _config w = Some c -> _hass w = Some h -> _initialized w = false ->
  requestsLooping c = false \/ (length (cards c) <= 1)%nat ->
  exists w',
    runBuild (length (cards c) + 3) helpers
      {| thisBuildId := _buildId w + 1; pc := AwaitHelpers |} (_buildCards w) = Some w'
    /\ _initialized w' = true
    /\ (fun d => child <$> slides d) <$> shadowRoot w' = Some (Some <$> _cards w')
    /\ length (_cards w') = length (cards c)
    /\ forall i cardConfig, cards c !! i = Some cardConfig ->
         exists card, _cards w' !! i = Some card
           /\ nodes w' !! card = Some (cardElement helpers (Some h) cardConfig).
Proof.
  intros Hc Hh Hi Hno.
  rewrite (build_reaches_cardsBuilt helpers w c h 2 Hc Hh Hi).
  destruct (cardsBuilt_fields helpers w c h Hc Hh Hi)
    as (Hcards & Hnodes & Hinf & Hall & Hc2 & Hh2 & Hb2 & Hi2).
  remember (cardsBuilt helpers w c) as w2 eqn:Hw2. clear Hw2.
  assert (Hmode : _isInfiniteMode w2 = false).
  { rewrite Hinf. apply andb_false_iff. destruct Hno as [Hno|Hno]; [by left|right]. lia. }
  rewrite Hmode, <- Hb2.
  destruct (buildState_commitBuild (_buildId w2) w2) as [Hst Hin].
  unfold buildState in Hst. injection Hst as E1 E2 E3 E4 E5 E6 E7.
  exists (commitBuild (_buildId w2) w2).
  split; [reflexivity|].
  split; [by rewrite Hin, Z.eqb_refl|].
  split; [by rewrite (slides_commitBuild w2 c Hc2), E1, Hall|].
  rewrite E1, E4, Hcards, Hnodes.
  split; [by rewrite length_seq|].
  intros i cardConfig Hcfg.
  assert (Hlt : (i < length (cards c))%nat) by (by eapply lookup_lt_Some).
  exists (length (nodes w) + i)%nat. split; [by apply lookup_seq|].
  rewrite lookup_app_r by lia.
  replace (length (nodes w) + i - length (nodes w))%nat with i by lia.
  by rewrite list_lookup_fmap, Hcfg.
Qed.


Lemma build_without_looping_renders_witness :
  exists w',
    runBuild (length (cards brokenSettings) + 3) noBroken
      {| thisBuildId := _buildId brokenConfigured + 1; pc := AwaitHelpers |}
      (_buildCards brokenConfigured) = Some w'
    /\ _initialized w' = true
    /\ exists card, _cards w' !! 1%nat = Some card
         /\ nodes w' !! card = Some (ErrorCard (errorHTML "Unknown type: broken")).
Proof.
  destruct (build_without_looping_renders noBroken brokenConfigured brokenSettings
              (hassWith page "1"))
    as (w' & Hrun & Hinit & _ & _ & Hcards);
    [vm_compute; reflexivity..|left; vm_compute; reflexivity|].
  exists w'. split; [exact Hrun|]. split; [exact Hinit|].
  exact (Hcards 1%nat broken eq_refl).
Defined.

(** ** Where the code departs from the claims *)

(** Closed facts about a run of events, by evaluation. *)
Ltac evaluate :=
  repeat match goal with |- _ /\ _ => split end; vm_compute; reflexivity.

(** C7 at a failing input.  The second of two cards cannot be built.  The
    loop puts the placeholder in its place; in infinite mode the build
    then asks the factory for the clone of that card outside any [try],
    the rejection ends the build, and nothing is rendered.  A second build
    ends the same way.  Without looping the same cards render. *)
Lemma broken_last_card_aborts_infinite_build :
  (exists w, run noBroken brokenLastCard (constructor 0) = Some w
     /\ _cards w = [0; 1]%nat
     /\ nodes w !! 1%nat = Some (ErrorCard (errorHTML "Unknown type: broken"))
     /\ builds w = []
     /\ _initialized w = false
     /\ shadowRoot w = None)
  /\ (exists w, run noBroken (brokenLastCard ++ retryBrokenLastCard) (constructor 0) = Some w
        /\ builds w = []
        /\ _initialized w = false
        /\ shadowRoot w = None)
  /\ (exists w, run noBroken brokenLastCardNoLoop (constructor 0) = Some w
        /\ _cards w = [0; 1]%nat
        /\ nodes w !! 1%nat = Some (ErrorCard (errorHTML "Unknown type: broken"))
        /\ _initialized w = true
        /\ length (slides (scrollerOf w)) = 2%nat).
Proof.
  split; [|split].
  - exists (after noBroken brokenLastCard). evaluate.
  - exists (after noBroken (brokenLastCard ++ retryBrokenLastCard)).
    evaluate.
  - exists (after noBroken brokenLastCardNoLoop). evaluate.
Qed.

(** C1 at a failing input.  Two looping cards, A and B.  Build 2 starts
    while build 1 waits for its second card, and empties the card list;
    its token stays the counter to the end.  The factory then answers
    build 1, which appends its card B to the list without a look at the
    counter (lines 144-146) and returns at the check after the loop.
    Build 2 goes on with that list: it commits three real slides, B, A,
    B, for two descriptions, between a clone of B and a clone of A, so
    that the clone at the end, made from the first description, no
    longer shows the first real slide. *)
Lemma late_card_shifts_the_looping_slides :
  exists w0 w,
    run allCards overtake (constructor 0) = Some w0
    /\ _buildId w0 = 2
    /\ thisBuildId <$> builds w0 = [1; 2]
    /\ _cards w0 = []
    /\ run allCards (overtake ++ lateAnswer) (constructor 0) = Some w
    /\ _buildId w = 2
    /\ builds w = []
    /\ _initialized w = true
    /\ _isInfiniteMode w = true
    /\ cards <$> _config w = Some [markdown "A"; markdown "B"]
    /\ descriptionOf w <$> _cards w
       = [Some (markdown "B"); Some (markdown "A"); Some (markdown "B")]
    /\ descriptionOf w <$> _allSlideCards w
       = [Some (markdown "B"); Some (markdown "B"); Some (markdown "A");
          Some (markdown "B"); Some (markdown "A")]
    /\ mounted w = Some (Some <$> _allSlideCards w)
    /\ last (_allSlideCards w) ≫= descriptionOf w = Some (markdown "A")
    /\ head (_cards w) ≫= descriptionOf w = Some (markdown "B").
Proof.
  exists (after allCards overtake), (after allCards (overtake ++ lateAnswer)).
  evaluate.
Qed.

(** C6 at a failing input.  Build 1 is superseded by build 2.  Resumed, it
    appends its card to the shared card list without a look at the
    counter; the two builds fill the list in turn, and build 2 commits four
    cards for two descriptions. *)
Lemma superseded_build_writes_card_list :
  exists w0 w1 w2,
    run allCards supersede (constructor 0) = Some w0
    /\ _buildId w0 = 2
    /\ thisBuildId <$> builds w0 = [1; 2]
    /\ _cards w0 = []
    /\ step allCards (ResumeBuild 1) w0 = Some w1
    /\ _cards w1 = [0%nat]
    /\ run allCards (supersede ++ interleave) (constructor 0) = Some w2
    /\ _initialized w2 = true
    /\ cards <$> _config w2 = Some [markdown "A"; markdown "B"]
    /\ _cards w2 = [0; 1; 2; 3]%nat
    /\ length (slides (scrollerOf w2)) = 4%nat.
Proof.
  exists (after allCards supersede), (after allCards (supersede ++ [ResumeBuild 1])),
    (after allCards (supersede ++ interleave)).
  evaluate.
Qed.

(** C2 at a failing input.  In infinite mode with three cards the scroll
    comes to rest 0.3 slide widths from the leading clone: more than the
    0.1 of the jump, less than the 0.5 at which rounding leaves DOM index
    0.  [_onScrollEnd] sets the real index to -1, no jump is pending, and
    the outbound sync writes 0 to the bound entity. *)
Lemma settle_near_clone_leaves_range :
  exists w,
    run allCards holdNearClone (constructor 0) = Some w
    /\ reachable allCards w
    /\ _initialized w = true
    /\ _isInfiniteMode w = true
    /\ _jumping w = false
    /\ rafQueue w = []
    /\ cards_length w = 3
    /\ _currentIndex w = 0
    /\ _realIndex w = -1
    /\ serviceCalls w = [setValue page 0].
Proof.
  exists (after allCards holdNearClone).
  split; [vm_compute; reflexivity|].
  split; [exists 0, holdNearClone; vm_compute; reflexivity|].
  evaluate.
Qed.

(** The first render does not clamp the start card: with three cards and
    start card 5 the widget is initialized at real index 4. *)
Lemma start_card_beyond_last_slide :
  exists w,
    run allCards startBeyondLast (constructor 0) = Some w
    /\ _initialized w = true
    /\ cards_length w = 3
    /\ _realIndex w = 4
    /\ _currentIndex w = 4.
Proof.
  exists (after allCards startBeyondLast). evaluate.
Qed.

(** * Further properties

    ** Frames *)

(** A method is unfolded to writes that leave the view alone. *)
Tactic Notation "frame" "with" ident(db) :=
  repeat first
    [ reflexivity
    | progress autorewrite with db
    | match goal with
      | |- context [if ?c then _ else _] => destruct c
      | |- context [match ?x with _ => _ end] => destruct x
      end ].

(** ** What only a build may write *)

Create Rewrite HintDb structure.

Lemma structure_set {T} (proj : World -> T) `{!Setter proj} `{!Outside structure proj} v w :
  structure (w <| proj := v |>) = structure w.
Proof. apply outside. Qed.
#[local] Hint Rewrite @structure_set using (typeclasses eauto) : structure.

Ltac unsetter := autorewrite with structure.

Lemma structure_with_scroller f w :
  (forall d, map child (slides (f d)) = map child (slides d)) ->
  structure (with_scroller f w) = structure w.
Proof.
  intros Hf. unfold structure, mounted, with_scroller. cbn.
  destruct (shadowRoot w) as [d|]; cbn; by rewrite ?Hf.
Qed.

Lemma structure_with_pagination f w : structure (with_pagination f w) = structure w.
Proof.
  unfold with_pagination. destruct (_cachedPagination w); [|done].
  by apply structure_with_scroller.
Qed.

Lemma structure_scrollTo offset smooth w : structure (scrollTo offset smooth w) = structure w.
Proof. apply structure_with_scroller. intros d. by destruct smooth. Qed.

Lemma structure_clearTimeout id w : structure (clearTimeout id w) = structure w.
Proof. by destruct id. Qed.

Lemma structure_updatePagination w : structure (_updatePagination w) = structure w.
Proof. apply structure_with_pagination. Qed.

Lemma structure_goToRealIndex r s w : structure (_goToRealIndex r s w) = structure w.
Proof.
  unfold _goToRealIndex. destruct (_cachedScroller w); cbn [negb]; [|done].
  cbv zeta. destruct (_ =? 0); [done|].
  rewrite structure_updatePagination. unsetter. by rewrite structure_scrollTo.
Qed.

Lemma structure_syncToStateEntity w : structure (_syncToStateEntity w) = structure w.
Proof.
  unfold _syncToStateEntity.
  repeat first
    [ reflexivity
    | match goal with
      | |- context [match ?x with _ => _ end] => destruct x eqn:?; cbn
      | |- context [if ?x then _ else _] => destruct x eqn:?; cbn
      end ].
Qed.

Lemma structure_showPagination w : structure (_showPagination w) = structure w.
Proof. unfold _showPagination. by rewrite structure_clearTimeout, structure_with_pagination. Qed.

Lemma structure_startPaginationHideTimer w :
  structure (_startPaginationHideTimer w) = structure w.
Proof.
  unfold _startPaginationHideTimer. destruct (_config w) as [c|]; [|done].
  destruct (_ <=? 0); [done|]. unfold setTimeout. cbv beta iota zeta. unsetter.
  apply structure_clearTimeout.
Qed.

Lemma structure_resetResetTimer w : structure (_resetResetTimer w) = structure w.
Proof.
  unfold _resetResetTimer. destruct (_config w) as [c|]; [|done].
  destruct (enable_reset_after c); cbn [negb]; [|done]. cbv zeta.
  destruct (_isAutoResetEnabled _); cbn [negb]; [|apply structure_clearTimeout].
  unfold setTimeout. cbv beta iota zeta. unsetter. apply structure_clearTimeout.
Qed.

Lemma structure_resetFires w : structure (resetFires w) = structure w.
Proof.
  unfold resetFires. destruct (_config w) as [c|]; [|done].
  destruct (_isAutoResetEnabled w); cbn [negb]; [|done].
  cbv zeta. destruct (_ && _); [|done].
  by rewrite structure_syncToStateEntity, structure_goToRealIndex.
Qed.

Lemma structure_settleEffects w : structure (settleEffects w) = structure w.
Proof.
  unfold settleEffects. destruct (_config w) as [c|]; [|done]. cbv zeta.
  rewrite structure_with_pagination.
  destruct (auto_hide_pagination c >? 0); rewrite ?structure_startPaginationHideTimer;
    destruct (enable_reset_after c); rewrite ?structure_resetResetTimer;
    by rewrite structure_syncToStateEntity, structure_updatePagination.
Qed.

Lemma structure_jumpToSlide d r w : structure (_jumpToSlide d r w) = structure w.
Proof.
  unfold _jumpToSlide. destruct (_cachedScroller w); cbn [negb]; [|done]. cbv zeta.
  unfold requestAnimationFrame. unsetter.
  rewrite !structure_with_scroller by done. by unsetter.
Qed.

Lemma structure_jumpFrame2 w : structure (jumpFrame2 w) = structure w.
Proof.
  unfold jumpFrame2. cbv zeta. rewrite structure_settleEffects. unsetter.
  by apply structure_with_scroller.
Qed.

Lemma structure_settled w : structure (settled w) = structure w.
Proof.
  unfold settled, setTimeout. cbv beta iota zeta. unsetter.
  by rewrite structure_clearTimeout, structure_settleEffects.
Qed.

Lemma structure_onScrollEnd w : structure (_onScrollEnd w) = structure w.
Proof.
  unfold _onScrollEnd. destruct (_jumping w); [done|].
  destruct (_cachedScroller w); cbn [negb]; [|done].
  destruct (shadowRoot w); [|done]. destruct (_ =? 0); [done|]. cbv zeta.
  repeat match goal with |- context [if ?x then _ else _] => destruct x end;
    by rewrite ?structure_jumpToSlide, ?structure_settled.
Qed.

Lemma structure_trackScroll w : structure (trackScroll w) = structure w.
Proof.
  unfold trackScroll. destruct (_cachedScroller w); [|done].
  destruct (shadowRoot w); [|done]. destruct (_ >? 0); [|done]. cbv zeta.
  destruct (negb _); [|done]. by rewrite structure_updatePagination.
Qed.

Lemma structure_handleScrollFrame w : structure (handleScrollFrame w) = structure w.
Proof.
  unfold handleScrollFrame. cbv zeta.
  match goal with |- context [if ?x then _ else _] => destruct x end; [done|].
  unfold setTimeout. cbv beta iota zeta. unsetter.
  by rewrite structure_clearTimeout, structure_trackScroll, structure_clearTimeout,
    structure_with_pagination.
Qed.

Lemma structure_handleScroll w : structure (_handleScroll w) = structure w.
Proof.
  unfold _handleScroll. destruct (_jumping w); [done|]. cbv zeta.
  match goal with |- context [if ?x then _ else _] => destruct x end;
    unfold requestAnimationFrame; unsetter; by rewrite structure_clearTimeout.
Qed.

Lemma structure_setInitialPosition d w : structure (setInitialPosition d w) = structure w.
Proof.
  unfold setInitialPosition. cbv zeta. destruct (_ >? 0); [|done].
  unfold requestAnimationFrame. unsetter. by apply structure_with_scroller.
Qed.

Lemma structure_onScrollStart w : structure (onScrollStart w) = structure w.
Proof.
  unfold onScrollStart. destruct (_config w) as [c|]; [|done]. cbv zeta.
  destruct (enable_reset_after c); rewrite ?structure_resetResetTimer;
    by rewrite structure_showPagination, structure_clearTimeout.
Qed.

Lemma structure_onTouchEnd w : structure (onTouchEnd w) = structure w.
Proof.
  unfold onTouchEnd. destruct (_config w) as [c|]; [|done].
  destruct (_ >? 0); by rewrite ?structure_startPaginationHideTimer.
Qed.

Lemma structure_runCallback cb w : structure (runCallback cb w) = structure w.
Proof.
  destruct cb; cbn [runCallback];
    auto using structure_setInitialPosition, structure_handleScrollFrame,
      structure_onScrollEnd, structure_jumpFrame2, structure_goToRealIndex,
      structure_with_pagination, structure_resetFires.
  by apply structure_with_scroller.
Qed.

Lemma structure_runCallbacks q w :
  structure (foldl (fun w cb => runCallback cb w) w q) = structure w.
Proof.
  revert w. induction q as [|cb q IH]; intros w; [done|].
  cbn [foldl]. by rewrite IH, structure_runCallback.
Qed.

Lemma structure_connectedCallback w : structure (connectedCallback w) = structure w.
Proof.
  unfold connectedCallback. destruct (_config w) as [c|]; [|done].
  destruct (enable_reset_after c); by rewrite ?structure_resetResetTimer.
Qed.

Lemma structure_disconnectedCallback w : structure (disconnectedCallback w) = structure w.
Proof. unfold disconnectedCallback. cbv zeta. unsetter. by rewrite !structure_clearTimeout. Qed.

Lemma map_child_layout (ss : list Slide) (boxes : list (Z * Z)) :
  length boxes = length ss ->
  map child (zip_with (fun s box => {| child := child s; offsetLeft := fst box;
                                        offsetWidth := snd box |}) ss boxes)
  = map child ss.
Proof.
  revert boxes. induction ss as [|s ss IH]; intros [|box boxes] Hlen; try done.
  cbn. f_equal. apply IH. by injection Hlen.
Qed.

Lemma structure_step helpers e w w' :
  buildEvent e = false ->
  step helpers e w = Some w' ->
  structure w' = structure w.
Proof.
  intros He Hstep. destruct e; try discriminate He; cbn [step] in Hstep.
  - injection Hstep as <-. apply structure_connectedCallback.
  - injection Hstep as <-. apply structure_disconnectedCallback.
  - destruct (shadowRoot w) as [d|] eqn:Hd; [|done].
    destruct (bool_decide _) eqn:Hlen; [|done]. apply bool_decide_eq_true in Hlen.
    injection Hstep as <-.
    unfold structure, mounted, with_scroller. cbn. rewrite Hd. cbn.
    by rewrite map_child_layout.
  - destruct (0 <=? ms); [|done]. by injection Hstep as <-.
  - injection Hstep as <-. by rewrite structure_runCallbacks.
  - destruct (filter _ _) as [|t ?]; [done|]. destruct (due t <=? now w); [|done].
    injection Hstep as <-. by rewrite structure_runCallback.
  - destruct (shadowRoot w) eqn:E; [|done]. injection Hstep as <-.
    rewrite structure_handleScroll. by apply structure_with_scroller.
  - destruct (shadowRoot w); [|done]. injection Hstep as <-. apply structure_onScrollStart.
  - destruct (shadowRoot w); [|done]. injection Hstep as <-. apply structure_onScrollStart.
  - destruct (shadowRoot w); [|done]. injection Hstep as <-. apply structure_onTouchEnd.
  - destruct (_ ≫= _); [|done]. destruct (bool_decide _); [|done].
    injection Hstep as <-. apply structure_goToRealIndex.
Qed.

(** X5. Scrolling, touches, clicks on a dot, timers, animation frames,
    layout, the clock and the two life-cycle callbacks never touch what
    the build has set up: after any run of events none of which is
    [setConfig], [set hass] or the continuation of a build, the
    configuration, the context, the card list, the display sequence, the
    elements and the slide each one is mounted in, the mode, the build
    counter, the builds in flight and the flags [_initialized] and
    [_stateUpdateInProgress] are what they were before. *)
Theorem only_the_build_writes_the_structure (helpers : Helpers) (es : list Event)
    (w w' : World) :
  forallb (fun e => negb (buildEvent e)) es = true ->
  run helpers es w = Some w' ->
  structure w' = structure w.
Proof.
  revert w. induction es as [|e es IH]; intros w Hes Hrun; cbn [run] in Hrun.
  - by injection Hrun as <-.
  - destruct (step helpers e w) as [w1|] eqn:Hstep; [|done].
    cbn [forallb] in Hes. apply andb_true_iff in Hes as [He Hes].
    apply negb_true_iff in He.
    rewrite (IH w1 Hes Hrun). by apply (structure_step helpers e).
Qed.

Lemma only_the_build_writes_the_structure_witness :
  structure (after allCards (swipeToSecond ++ [TouchStart; Scroll (90 # 1); AnimationFrame]))
  = structure (after allCards swipeToSecond).
Proof.
  apply (only_the_build_writes_the_structure allCards
           [TouchStart; Scroll (90 # 1); AnimationFrame]).
  - reflexivity.
  - vm_compute. reflexivity.
Defined.

(** ** After the first build *)

Lemma structure_syncFromStateEntity o n w :
  _stateUpdateInProgress w = false ->
  structure (_syncFromStateEntity o n w) = structure w.
Proof.
  intros Hflag.
  destruct (syncFromStateEntity_cases o n w) as [->|(?&?&?&?&t&_&_&_&_&_&_&_&_&_&_&->)]; [done|].
  unfold navigate.
  transitivity (structure (w <| _stateUpdateInProgress := true |>
                             <| _stateUpdateInProgress := false |>)).
  - generalize (structure_goToRealIndex t true (w <| _stateUpdateInProgress := true |>)).
    unfold structure, mounted. cbn. congruence.
  - unfold structure, mounted. cbn. by rewrite Hflag.
Qed.

(** [set hass], once the context is stored and handed to the mounted
    cards and the build, if any, is started: what follows leaves the
    structure alone. *)
Lemma structure_set_hass hass w :
  structure (set_hass hass w)
  = structure
      (let w := w <| _hass := Some hass |> in
       let w := w <| nodes := foldl (fun ns card => alter (giveHass hass) card ns)
                                   (nodes w) (_allSlideCards w) |> in
       if negb (_initialized w) && bool_decide (is_Some (_config w))
       then _buildCards w else w).
Proof.
  unfold set_hass. cbv zeta.
  match goal with |- _ = structure ?x => generalize x end. intros w2.
  assert (Hsync : structure
            match _config w2 ≫= state_entity with
            | Some entity =>
                if truthy_string entity && _initialized w2 && negb (_stateUpdateInProgress w2)
                then _syncFromStateEntity (_hass w) hass w2 else w2
            | None => w2
            end = structure w2).
  { destruct (_config w2 ≫= state_entity) as [entity|]; [|done].
    destruct (truthy_string entity); [|done]. destruct (_initialized w2); [|done].
    destruct (_stateUpdateInProgress w2) eqn:Hflag; [done|].
    by apply structure_syncFromStateEntity. }
  revert Hsync.
  match goal with |- structure ?x = _ -> _ => generalize x end. intros w3 Hsync.
  rewrite <- Hsync.
  destruct (_config w3 ≫= auto_reset_enabled_entity) as [entity|]; [|done].
  destruct (truthy_string entity && _initialized w3); [|done].
  destruct (_ && _); [|done]. apply structure_resetResetTimer.
Qed.

Lemma built_of_structure w w' : structure w' = structure w -> built w' = built w.
Proof. unfold structure, built. congruence. Qed.

Lemma built_step helpers e w w' :
  _initialized w = true -> builds w = [] ->
  step helpers e w = Some w' ->
  built w' = built w.
Proof.
  intros Hinit Hbuilds Hstep.
  destruct (buildEvent e) eqn:He.
  2:{ apply built_of_structure. by eapply structure_step. }
  destruct e; try discriminate He; cbn [step] in Hstep.
  - unfold setConfig in Hstep. destruct (_ || _); [by injection Hstep as <-|].
    cbv zeta in Hstep. cbn [_initialized setter setter_config] in Hstep.
    rewrite Hinit, andb_false_r in Hstep. injection Hstep as <-.
    unfold built, mounted. cbn. by rewrite Hinit.
  - injection Hstep as <-. rewrite (built_of_structure _ _ (structure_set_hass hass w)).
    unfold built, mounted. cbn -[_buildCards]. by rewrite Hinit.
  - rewrite Hbuilds in Hstep. done.
Qed.

(** X6. The widget builds once.  When a build has committed and none is
    in flight, no run of events (new configurations, new contexts, user
    input, timers, frames) rebuilds or re-renders: the card list, the
    display sequence, the mode, the children mounted in the slides and
    the build counter stay as they are, [_initialized] stays true and no
    build is started.  A configuration set after the first build is
    stored and never rendered. *)
Theorem built_once (helpers : Helpers) (es : list Event) (w w' : World) :
  _initialized w = true -> builds w = [] ->
  run helpers es w = Some w' ->
  built w' = built w.
Proof.
  revert w. induction es as [|e es IH]; intros w Hinit Hbuilds Hrun; cbn [run] in Hrun.
  - by injection Hrun as <-.
  - destruct (step helpers e w) as [w1|] eqn:Hstep; [|done].
    pose proof (built_step _ _ _ _ Hinit Hbuilds Hstep) as H1.
    rewrite <- H1. apply IH; [| |done]; unfold built in H1; congruence.
Qed.

Lemma built_once_witness :
  built (after allCards
           (swipeToSecond ++
            [SetConfig (sampleConfig (Array [markdown "X"]) (Some "infinite") None None);
             SetHass (hassWith page "2"); Scroll (0 # 1)]))
  = built (after allCards swipeToSecond).
Proof.
  apply (built_once allCards
           [SetConfig (sampleConfig (Array [markdown "X"]) (Some "infinite") None None);
            SetHass (hassWith page "2"); Scroll (0 # 1)]);
    vm_compute; reflexivity.
Defined.

(** ** The context reaches the display sequence *)

Lemma lookup_foldl_alter {A} (f : A -> A) (l : list nat) (ns : list A) (i : nat) :
  (forall x, f (f x) = f x) ->
  foldl (fun ns card => alter f card ns) ns l !! i
  = if bool_decide (i ∈ l) then f <$> ns !! i else ns !! i.
Proof.
  intros Hf. revert ns. induction l as [|a l IH]; intros ns; cbn [foldl].
  - rewrite bool_decide_eq_false_2; [done|]. by intros ?%elem_of_nil.
  - rewrite IH. destruct (decide (i = a)) as [->|Hne].
    + rewrite (bool_decide_eq_true_2 (a ∈ a :: l)) by apply list_elem_of_here.
      rewrite list_lookup_alter_eq.
      destruct (bool_decide (a ∈ l)); [|done].
      destruct (ns !! a); cbn; by rewrite ?Hf.
    + rewrite list_lookup_alter_ne by done.
      destruct (decide (i ∈ l)) as [Hin|Hnin].
      * rewrite !bool_decide_eq_true_2; [done| by apply list_elem_of_further |done].
      * rewrite !bool_decide_eq_false_2; [done| |done].
        intros [?|?]%elem_of_cons; done.
Qed.

Lemma hass_nodes_of_structure w w' :
  structure w' = structure w -> _hass w' = _hass w /\ nodes w' = nodes w.
Proof. unfold structure. by intros [=]. Qed.

Lemma hass_nodes_buildCards w :
  _hass (_buildCards w) = _hass w /\ nodes (_buildCards w) = nodes w.
Proof.
  unfold _buildCards. destruct (_config w); [|done].
  destruct (_hass w) eqn:E; [|done]. cbv zeta.
  destruct (_initialized _); cbn; by rewrite E.
Qed.

(** X7. [set hass] stores the context and hands it to the elements of the
    display sequence, clones included, and to no other element: an
    element whose handle is in [_allSlideCards] gets the new context (the
    placeholder of a failed card has none to set), every other element of
    the page keeps what it had.  In particular the cards of a build in
    flight, which are not yet in the display sequence, miss a context
    that arrives before the build commits. *)
Theorem set_hass_reaches_the_display_sequence (hass : Hass) (w : World) (i : nat) :
  _hass (set_hass hass w) = Some hass /\
  nodes (set_hass hass w) !! i
  = (if bool_decide (i ∈ _allSlideCards w)
     then giveHass hass <$> nodes w !! i
     else nodes w !! i).
Proof.
  pose proof (structure_set_hass hass w) as H. cbv zeta in H.
  apply hass_nodes_of_structure in H. destruct H as [-> ->].
  rewrite <- lookup_foldl_alter by (by intros []).
  match goal with |- context [if ?b then _ else _] => destruct b end; [|done].
  match goal with |- context [_buildCards ?x] =>
    by destruct (hass_nodes_buildCards x) as [-> ->] end.
Qed.

(** ** Timers never stack *)

Create Rewrite HintDb timers.

Lemma timerView_set {T} (proj : World -> T) `{!Setter proj} `{!Outside timerView proj} v w :
  timerView (w <| proj := v |>) = timerView w.
Proof. apply outside. Qed.
#[local] Hint Rewrite @timerView_set using (typeclasses eauto) : timers.

Lemma timerView_with_scroller f w : timerView (with_scroller f w) = timerView w.
Proof. reflexivity. Qed.

Lemma timerView_with_pagination f w : timerView (with_pagination f w) = timerView w.
Proof. unfold with_pagination. by destruct (_cachedPagination w). Qed.

Lemma timerView_scrollTo offset smooth w : timerView (scrollTo offset smooth w) = timerView w.
Proof. reflexivity. Qed.

Lemma timerView_updatePagination w : timerView (_updatePagination w) = timerView w.
Proof. apply timerView_with_pagination. Qed.

Lemma timerView_requestAnimationFrame cb w :
  timerView (requestAnimationFrame cb w) = timerView w.
Proof. reflexivity. Qed.

Lemma timerView_syncToStateEntity w : timerView (_syncToStateEntity w) = timerView w.
Proof.
  unfold _syncToStateEntity.
  repeat first
    [ reflexivity
    | match goal with
      | |- context [match ?x with _ => _ end] => destruct x eqn:?; cbn
      | |- context [if ?x then _ else _] => destruct x eqn:?; cbn
      end ].
Qed.

#[local] Hint Rewrite timerView_with_scroller timerView_with_pagination timerView_scrollTo
  timerView_updatePagination timerView_requestAnimationFrame timerView_syncToStateEntity
  : timers.

Lemma timerView_trackScroll w : timerView (trackScroll w) = timerView w.
Proof.
  unfold trackScroll. destruct (_cachedScroller w); [|done].
  destruct (shadowRoot w); [|done]. destruct (_ >? 0); [|done]. cbv zeta.
  destruct (negb _); [|done]. by autorewrite with timers.
Qed.

Lemma timerView_jumpToSlide d r w : timerView (_jumpToSlide d r w) = timerView w.
Proof.
  unfold _jumpToSlide. destruct (_cachedScroller w); cbn [negb]; [|done]. cbv zeta.
  by autorewrite with timers.
Qed.

Lemma timerView_setInitialPosition d w : timerView (setInitialPosition d w) = timerView w.
Proof.
  unfold setInitialPosition. cbv zeta. destruct (_ >? 0); by autorewrite with timers.
Qed.

Lemma timerView_render w : timerView (_render w) = timerView w.
Proof.
  unfold _render. destruct (_config w); [|done]. cbv zeta. by autorewrite with timers.
Qed.

Lemma timerView_createCard helpers c w : timerView (createCard helpers c w) = timerView w.
Proof. by rewrite createCard_eq. Qed.

Lemma timerView_buildCards w : timerView (_buildCards w) = timerView w.
Proof.
  unfold _buildCards. destruct (_config w), (_hass w); try done.
  cbv zeta. by destruct (_initialized _).
Qed.

#[local] Hint Rewrite timerView_trackScroll timerView_jumpToSlide timerView_setInitialPosition
  timerView_render timerView_createCard timerView_buildCards : timers.

Lemma timers_ok_view w w' : timerView w' = timerView w -> timers_ok w -> timers_ok w'.
Proof.
  unfold timerView. intros [= Ht Hn H1 H2 H3 H4] (Hnd & Hall & Hkept).
  assert (Htr : forall cb, tracked cb w' = tracked cb w) by (intros []; cbn; congruence).
  split; [by rewrite Ht|]. split.
  - intros t Hin. rewrite Ht in Hin.
    destruct (Hall t Hin) as (Hlt & Hk & Hf). split; [by rewrite Hn|]. split; [done|].
    intros field. rewrite Htr. apply Hf.
  - intros cb id. rewrite Htr, Hn. apply Hkept.
Qed.

Lemma elem_of_clearTimeout id w t :
  t ∈ timeouts (clearTimeout id w) <-> t ∈ timeouts w /\ id <> Some (timer_id t).
Proof.
  destruct id as [i|]; cbn.
  - rewrite list_elem_of_filter. split; intros [? ?]; split; congruence.
  - split; [intros ?; split; [done|discriminate] | by intros [? _]].
Qed.

Lemma timers_ok_clearTimeout id w : timers_ok w -> timers_ok (clearTimeout id w).
Proof.
  intros (Hnd & Hall & Hkept). split; [|split].
  - destruct id; [|done]. cbn. eapply sublist_NoDup; [exact Hnd|].
    apply fmap_sublist, sublist_filter.
  - intros t [Hin _]%elem_of_clearTimeout. destruct (Hall t Hin) as (Hlt & Hk & Hf).
    split; [|split; [done|]].
    + by destruct id.
    + intros field.
      replace (tracked (callback t) (clearTimeout id w)) with (tracked (callback t) w)
        by (by destruct id, (callback t)).
      apply Hf.
  - intros cb i.
    replace (tracked cb (clearTimeout id w)) with (tracked cb w) by (by destruct id, cb).
    replace (nextTimer (clearTimeout id w)) with (nextTimer w) by (by destruct id).
    apply Hkept.
Qed.

(** A timer is armed the way the widget arms a tracked one: the timer the
    field names is cleared, the new one is set, its id is stored. *)
Lemma timers_ok_arm cb d fld w w' :
  tracked cb w = Some fld ->
  timeouts w'
  = timeouts (clearTimeout fld w) ++ [{| timer_id := nextTimer w; due := d; callback := cb |}] ->
  nextTimer w' = S (nextTimer w) ->
  tracked cb w' = Some (Some (nextTimer w)) ->
  (forall cb', cb' <> cb -> tracked cb' w' = tracked cb' w) ->
  timers_ok w -> timers_ok w'.
Proof.
  intros Hfld Ht Hn Hnew Hother Hok. pose proof Hok as (Hnd & Hall & Hkept).
  split; [|split].
  - rewrite Ht, fmap_app. apply NoDup_app. split; [|split].
    + apply (timers_ok_clearTimeout fld w Hok).
    + intros i Hi Hin'. apply list_elem_of_singleton in Hin'. cbn in Hin'. subst i.
      apply list_elem_of_fmap in Hi as (t & Hid & Hin).
      apply elem_of_clearTimeout in Hin as [Hin _]. destruct (Hall t Hin). lia.
    + apply NoDup_singleton.
  - intros t Hin. rewrite Ht in Hin. apply elem_of_app in Hin as [Hin|Hin].
    + apply elem_of_clearTimeout in Hin as [Hin Hne].
      destruct (Hall t Hin) as (Hlt & Hk & Hf).
      split; [lia|]. split; [done|]. intros field Htr.
      destruct (decide (callback t = cb)) as [Heq|Hneq].
      * exfalso. apply Hne. apply Hf. by rewrite Heq.
      * rewrite Hother in Htr by done. by apply Hf.
    + apply list_elem_of_singleton in Hin. subst t. cbn. split; [lia|].
      split; [by destruct cb|].
      intros field Htr. rewrite Hnew in Htr. by injection Htr as <-.
  - intros cb' id Htr. rewrite Hn. destruct (decide (cb' = cb)) as [->|Hne].
    + rewrite Hnew in Htr. injection Htr as <-. lia.
    + rewrite Hother in Htr by done. apply Hkept in Htr. lia.
Qed.

(** A timer whose id the widget does not keep. *)
Lemma timers_ok_setTimeout cb d w :
  timerCallback cb = true -> tracked cb w = None ->
  timers_ok w -> timers_ok (snd (setTimeout cb d w)).
Proof.
  intros Hk Hcb (Hnd & Hall & Hkept). unfold setTimeout. cbn [snd]. split; [|split].
  - cbn. rewrite fmap_app. apply NoDup_app. split; [done|]. split; [|apply NoDup_singleton].
    intros i Hi Hin'. apply list_elem_of_singleton in Hin'. cbn in Hin'. subst i.
    apply list_elem_of_fmap in Hi as (t & Hid & Hin). destruct (Hall t Hin). lia.
  - cbn. intros t [Hin|Hin]%elem_of_app.
    + destruct (Hall t Hin) as (Hlt & Hkt & Hf). split; [lia|]. split; [done|].
      intros field Htr. apply Hf. by destruct (callback t).
    + apply list_elem_of_singleton in Hin. subst t. cbn. split; [lia|]. split; [done|].
      intros field Htr. replace (tracked cb _) with (tracked cb w) in Htr by (by destruct cb).
      congruence.
  - intros cb' id Htr. replace (tracked cb' _) with (tracked cb' w) in Htr by (by destruct cb').
    apply Hkept in Htr. cbn. lia.
Qed.

(** The head of the world is a write that leaves the timers alone. *)
Ltac strip :=
  match goal with
  | |- timers_ok (?m ?x) =>
      apply (timers_ok_view x); [solve [autorewrite with timers; reflexivity]|]
  end.

Ltac branch :=
  match goal with
  | |- timers_ok (if ?c then _ else _) => destruct c
  | |- timers_ok (match ?x with _ => _ end) => destruct x
  end.

Create HintDb timers_ok discriminated.
#[local] Hint Resolve timers_ok_clearTimeout : timers_ok.
#[local] Hint Extern 2 (timers_ok _) => strip : timers_ok.
#[local] Hint Extern 3 (timers_ok _) => branch : timers_ok.

Ltac timers := auto 40 with timers_ok.

Lemma timers_ok_goToRealIndex r s w : timers_ok w -> timers_ok (_goToRealIndex r s w).
Proof.
  intros H. unfold _goToRealIndex. destruct (_cachedScroller w); cbn [negb]; [|done].
  cbv zeta. destruct (_ =? 0); [|timers].
  apply timers_ok_setTimeout; [done|done|timers].
Qed.
#[local] Hint Resolve timers_ok_goToRealIndex : timers_ok.

Lemma timers_ok_showPagination w : timers_ok w -> timers_ok (_showPagination w).
Proof. intros H. unfold _showPagination. cbv zeta. timers. Qed.
#[local] Hint Resolve timers_ok_showPagination : timers_ok.

Lemma timers_ok_armed cb d (store : nat -> World -> World) fld w :
  tracked cb w = Some fld ->
  (forall i x, timeouts (store i x) = timeouts x /\ nextTimer (store i x) = nextTimer x
               /\ tracked cb (store i x) = Some (Some i)
               /\ forall cb', cb' <> cb -> tracked cb' (store i x) = tracked cb' x) ->
  timers_ok w ->
  timers_ok (let '(id, w1) := setTimeout cb d (clearTimeout fld w) in store id w1).
Proof.
  intros Hfld Hstore Hok. unfold setTimeout. cbv beta iota.
  assert (Hnext : nextTimer (clearTimeout fld w) = nextTimer w) by (by destruct fld).
  match goal with |- timers_ok (store ?i ?x) =>
    destruct (Hstore i x) as (Ht & Hn & Hnew & Hother) end.
  apply (timers_ok_arm cb (now (clearTimeout fld w) + Z.max 0 (toLong d)) fld w); try done.
  - rewrite Ht. cbn. by rewrite Hnext.
  - rewrite Hn. cbn. by rewrite Hnext.
  - by rewrite Hnew, Hnext.
  - intros cb' Hne. rewrite Hother by done. destruct fld, cb'; done.
Qed.

Lemma timers_ok_startPaginationHideTimer w :
  timers_ok w -> timers_ok (_startPaginationHideTimer w).
Proof.
  intros H. unfold _startPaginationHideTimer. destruct (_config w) as [c|]; [|done].
  destruct (_ <=? 0); [done|]. cbv zeta.
  apply (timers_ok_armed HidePagination _
           (fun id w => w <| _paginationHideTimeout := Some id |>)); [done| |done].
  intros i x. repeat split. by intros [].
Qed.
#[local] Hint Resolve timers_ok_startPaginationHideTimer : timers_ok.

Lemma timers_ok_resetResetTimer w : timers_ok w -> timers_ok (_resetResetTimer w).
Proof.
  intros H. unfold _resetResetTimer. destruct (_config w) as [c|]; [|done].
  destruct (enable_reset_after c); cbn [negb]; [|done]. cbv zeta.
  destruct (_isAutoResetEnabled _); cbn [negb]; [|timers].
  apply (timers_ok_armed ResetFires _ (fun id w => w <| _resetTimeout := Some id |>));
    [done| |done].
  intros i x. repeat split. by intros [].
Qed.
#[local] Hint Resolve timers_ok_resetResetTimer : timers_ok.

Lemma timers_ok_resetFires w : timers_ok w -> timers_ok (resetFires w).
Proof.
  intros H. unfold resetFires. destruct (_config w) as [c|]; [|done].
  destruct (_isAutoResetEnabled w); cbn [negb]; [|done]. cbv zeta. timers.
Qed.
#[local] Hint Resolve timers_ok_resetFires : timers_ok.

Lemma timers_ok_settleEffects w : timers_ok w -> timers_ok (settleEffects w).
Proof.
  intros H. unfold settleEffects. destruct (_config w) as [c|]; [|done]. cbv zeta. timers.
Qed.
#[local] Hint Resolve timers_ok_settleEffects : timers_ok.

Lemma timers_ok_jumpFrame2 w : timers_ok w -> timers_ok (jumpFrame2 w).
Proof. intros H. unfold jumpFrame2. cbv zeta. timers. Qed.
#[local] Hint Resolve timers_ok_jumpFrame2 : timers_ok.

Lemma timers_ok_settled w : timers_ok w -> timers_ok (settled w).
Proof.
  intros H. unfold settled. cbv zeta.
  apply (timers_ok_armed ClearUserScrolling _
           (fun id w => w <| _scrollSettleTimeout := Some id |>)); [done| |timers].
  intros i x. repeat split. by intros [].
Qed.
#[local] Hint Resolve timers_ok_settled : timers_ok.

Lemma timers_ok_onScrollEnd w : timers_ok w -> timers_ok (_onScrollEnd w).
Proof.
  intros H. unfold _onScrollEnd. destruct (_jumping w); [done|].
  destruct (_cachedScroller w); cbn [negb]; [|done].
  destruct (shadowRoot w); [|done]. destruct (_ =? 0); [done|]. cbv zeta. timers.
Qed.
#[local] Hint Resolve timers_ok_onScrollEnd : timers_ok.

Lemma timers_ok_handleScrollFrame w : timers_ok w -> timers_ok (handleScrollFrame w).
Proof.
  intros H. unfold handleScrollFrame. cbv zeta.
  match goal with |- context [if ?x then _ else _] => destruct x end; [timers|].
  apply (timers_ok_armed ScrollEnd _ (fun id w => w <| _scrollTimeout := Some id |>));
    [done| |timers].
  intros i x. repeat split. by intros [].
Qed.
#[local] Hint Resolve timers_ok_handleScrollFrame : timers_ok.

Lemma timers_ok_handleScroll w : timers_ok w -> timers_ok (_handleScroll w).
Proof.
  intros H. unfold _handleScroll. destruct (_jumping w); [done|]. cbv zeta. timers.
Qed.

Lemma timers_ok_onScrollStart w : timers_ok w -> timers_ok (onScrollStart w).
Proof.
  intros H. unfold onScrollStart. destruct (_config w) as [c|]; [|done]. cbv zeta. timers.
Qed.

Lemma timers_ok_onTouchEnd w : timers_ok w -> timers_ok (onTouchEnd w).
Proof. intros H. unfold onTouchEnd. destruct (_config w) as [c|]; [|done]. timers. Qed.

Lemma timers_ok_runCallback cb w : timers_ok w -> timers_ok (runCallback cb w).
Proof.
  intros H. destruct cb; cbn [runCallback]; by timers.
Qed.

Lemma timers_ok_runCallbacks q w :
  timers_ok w -> timers_ok (foldl (fun w cb => runCallback cb w) w q).
Proof.
  revert w. induction q as [|cb q IH]; intros w H; [done|].
  cbn [foldl]. by apply IH, timers_ok_runCallback.
Qed.

Lemma timers_ok_connectedCallback w : timers_ok w -> timers_ok (connectedCallback w).
Proof. intros H. unfold connectedCallback. timers. Qed.

Lemma timers_ok_disconnectedCallback w : timers_ok w -> timers_ok (disconnectedCallback w).
Proof. intros H. unfold disconnectedCallback. cbv zeta. timers. Qed.

Lemma timers_ok_syncFromStateEntity o n w :
  timers_ok w -> timers_ok (_syncFromStateEntity o n w).
Proof.
  intros H.
  destruct (syncFromStateEntity_cases o n w) as [->|(?&?&?&?&t&_&_&_&_&_&_&_&_&_&_&->)]; [done|].
  unfold navigate. timers.
Qed.
#[local] Hint Resolve timers_ok_syncFromStateEntity : timers_ok.

Lemma timers_ok_set_hass hass w : timers_ok w -> timers_ok (set_hass hass w).
Proof. intros H. unfold set_hass. cbv zeta. timers. Qed.

Lemma timers_ok_setConfig config w w' :
  setConfig config w = Normal w' -> timers_ok w -> timers_ok w'.
Proof.
  unfold setConfig. destruct (_ || _); [done|]. cbv zeta. intros [= <-] H. timers.
Qed.

Lemma timers_ok_commitBuild b w : timers_ok w -> timers_ok (commitBuild b w).
Proof. intros H. unfold commitBuild. cbv zeta. timers. Qed.
#[local] Hint Resolve timers_ok_commitBuild : timers_ok.

Lemma timers_ok_afterCards b w : timers_ok w -> timers_ok (fst (afterCards b w)).
Proof.
  intros H. unfold afterCards. destruct (negb _); [done|].
  destruct (_config w) as [c|]; [|done]. cbv zeta.
  match goal with |- context [if ?x then _ else _] => destruct x end; cbn [fst]; timers.
Qed.

Lemma timers_ok_nextCard b rest w : timers_ok w -> timers_ok (fst (nextCard b rest w)).
Proof. intros H. destruct rest; cbn [nextCard fst]; [by apply timers_ok_afterCards|done]. Qed.

Lemma timers_ok_resume helpers b w : timers_ok w -> timers_ok (fst (resume helpers b w)).
Proof.
  intros H. unfold resume. destruct (pc b).
  - destruct (negb _); [done|]. cbv zeta. cbn [_config setter setter_cards].
    destruct (_config w); [|cbn [fst]; timers]. apply timers_ok_nextCard. timers.
  - apply timers_ok_nextCard. timers.
  - destruct (helpers _); [|done]. cbv zeta. cbn [_config setter setter_nodes].
    destruct (_config w); cbn [fst]; timers.
  - destruct (helpers _); [|done]. cbv zeta. cbn [fst]. timers.
Qed.

Lemma timers_ok_step helpers e w w' :
  step helpers e w = Some w' -> timers_ok w -> timers_ok w'.
Proof.
  intros Hstep H. destruct e; cbn [step] in Hstep.
  - destruct (setConfig config w) eqn:E; injection Hstep as <-; [|done].
    by eapply timers_ok_setConfig.
  - injection Hstep as <-. by apply timers_ok_set_hass.
  - injection Hstep as <-. by apply timers_ok_connectedCallback.
  - injection Hstep as <-. by apply timers_ok_disconnectedCallback.
  - destruct (filter _ (builds w)) as [|b ?]; [done|]. cbv zeta in Hstep.
    match type of Hstep with context [resume helpers b ?x] =>
      pose proof (timers_ok_resume helpers b x) as Hr;
      destruct (resume helpers b x) as [w1 [b1|]] end;
      injection Hstep as <-; cbn [fst] in Hr.
    + apply (timers_ok_view w1); [done|]. apply Hr. by apply (timers_ok_view w).
    + apply Hr. by apply (timers_ok_view w).
  - destruct (shadowRoot w); [|done]. destruct (bool_decide _); [|done].
    injection Hstep as <-. by apply (timers_ok_view w).
  - destruct (0 <=? ms); [|done]. injection Hstep as <-. by apply (timers_ok_view w).
  - injection Hstep as <-. apply timers_ok_runCallbacks. by apply (timers_ok_view w).
  - destruct (filter _ _) as [|t ?]; [done|]. destruct (due t <=? now w); [|done].
    injection Hstep as <-. apply timers_ok_runCallback.
    apply (timers_ok_clearTimeout (Some id) w H).
  - destruct (shadowRoot w); [|done]. injection Hstep as <-.
    apply timers_ok_handleScroll. by apply (timers_ok_view w).
  - destruct (shadowRoot w); [|done]. injection Hstep as <-. by apply timers_ok_onScrollStart.
  - destruct (shadowRoot w); [|done]. injection Hstep as <-. by apply timers_ok_onScrollStart.
  - destruct (shadowRoot w); [|done]. injection Hstep as <-. by apply timers_ok_onTouchEnd.
  - destruct (_ ≫= _); [|done]. destruct (bool_decide _); [|done].
    injection Hstep as <-. by apply timers_ok_goToRealIndex.
Qed.

Lemma timers_ok_run helpers es w w' :
  run helpers es w = Some w' -> timers_ok w -> timers_ok w'.
Proof.
  revert w. induction es as [|e es IH]; intros w Hrun H; cbn [run] in Hrun.
  - by injection Hrun as <-.
  - destruct (step helpers e w) as [w1|] eqn:Hstep; [|done].
    eapply IH; [done|]. by eapply timers_ok_step.
Qed.

Lemma timers_ok_reachable helpers w : reachable helpers w -> timers_ok w.
Proof.
  intros (t & es & Hrun). eapply timers_ok_run; [done|].
  split; [apply NoDup_nil_2|]. split; [by intros ? ?%elem_of_nil|].
  by intros [] ?.
Qed.

(** X8. Timers never stack.  In every world the page can reach, each of
    the four callbacks whose timer id the widget keeps (the scroll-end
    check, the release of the user-scrolling flag, the hiding of the
    pagination, the automatic reset) has at most one timer pending, and a
    pending one is the timer the widget's field names: re-arming always
    cancels the timer armed before. *)
Theorem tracked_timers_never_stack (helpers : Helpers) (w : World) (cb : Callback)
    (field : option nat) :
  reachable helpers w ->
  tracked cb w = Some field ->
  pending cb w = [] \/ exists t, pending cb w = [t] /\ field = Some (timer_id t).
Proof.
  intros Hr Htr. destruct (timers_ok_reachable helpers w Hr) as (Hnd & Hall & _).
  assert (Hids : forall t, t ∈ pending cb w -> field = Some (timer_id t)).
  { intros t [Hcb Hin]%list_elem_of_filter. destruct (Hall t Hin) as (_ & _ & Hf).
    apply Hf. by rewrite Hcb. }
  assert (Hnd' : NoDup (timer_id <$> pending cb w)).
  { eapply sublist_NoDup; [exact Hnd|]. apply fmap_sublist, sublist_filter. }
  destruct (pending cb w) as [|t1 [|t2 l]]; [by left| |].
  - right. exists t1. split; [done|]. apply Hids, list_elem_of_here.
  - exfalso. pose proof (Hids t1 (list_elem_of_here _ _)) as H1.
    pose proof (Hids t2 (list_elem_of_further _ _ _ (list_elem_of_here _ _))) as H2.
    rewrite H1 in H2. injection H2 as H2. cbn in Hnd'. rewrite H2 in Hnd'.
    apply NoDup_cons in Hnd' as [Hnin _]. apply Hnin, list_elem_of_here.
Qed.

Lemma tracked_timers_never_stack_witness :
  pending ScrollEnd (after allCards swipeToSecond) = []
  \/ exists t, pending ScrollEnd (after allCards swipeToSecond) = [t]
               /\ _scrollTimeout (after allCards swipeToSecond) = Some (timer_id t).
Proof.
  apply (tracked_timers_never_stack allCards (after allCards swipeToSecond) ScrollEnd).
  - exists 0, swipeToSecond. vm_compute. reflexivity.
  - reflexivity.
Defined.

Lemma pending_clearTimeout_nil cb id w :
  pending cb w = [] -> pending cb (clearTimeout id w) = [].
Proof.
  intros Hnil. apply elem_of_nil_inv. intros t [Hcb Hin]%list_elem_of_filter.
  apply elem_of_clearTimeout in Hin as [Hin _].
  apply (filter_nil_not_elem_of _ _ t Hnil Hcb Hin).
Qed.

Lemma pending_clearTimeout_tracked cb fld w :
  timers_ok w -> tracked cb w = Some fld -> pending cb (clearTimeout fld w) = [].
Proof.
  intros (_ & Hall & _) Htr. apply elem_of_nil_inv. intros t [Hcb Hin]%list_elem_of_filter.
  apply elem_of_clearTimeout in Hin as [Hin Hne].
  destruct (Hall t Hin) as (_ & _ & Hf). apply Hne, Hf. by rewrite Hcb.
Qed.

Lemma isAutoResetEnabled_clearTimeout id w :
  _isAutoResetEnabled (clearTimeout id w) = _isAutoResetEnabled w.
Proof. by destruct id. Qed.

(** A delay that fits a signed 32-bit integer is taken as it is. *)
Lemma toLong_small (delay : Z) : 0 <= delay < 2 ^ 31 -> Z.max 0 (toLong delay) = delay.
Proof.
  intros H. unfold toLong.
  rewrite Z.mod_small by lia. lia.
Qed.

(** X9. The automatic-reset countdown is restarted, never doubled.  In a
    reachable world with automatic reset switched on, [_resetResetTimer]
    leaves exactly one reset timer pending when the pause entity allows it
    (none is configured, or its state is [on]); when that entity is in any
    other state, or unknown to the host, it cancels the pending reset and
    arms none.  The timer is due after [reset_after_timeout] as the
    browser takes a delay: reduced to a signed 32-bit integer, a negative
    one counting as 0; that is [reset_after_timeout] ms from now when the
    value lies between 0 and 2^31 - 1. *)
Theorem reset_timer_restarts (helpers : Helpers) (w : World) (c : Config) :
  reachable helpers w ->
  _config w = Some c ->
  enable_reset_after c = true ->
  pending ResetFires (_resetResetTimer w)
  = (if _isAutoResetEnabled w
     then [{| timer_id := nextTimer w;
              due := now w + Z.max 0 (toLong (reset_after_timeout c));
              callback := ResetFires |}]
     else [])
  /\ (0 <= reset_after_timeout c < 2 ^ 31 ->
      _isAutoResetEnabled w = true ->
      pending ResetFires (_resetResetTimer w)
      = [{| timer_id := nextTimer w; due := now w + reset_after_timeout c;
            callback := ResetFires |}]).
Proof.
  intros Hr Hc He. apply timers_ok_reachable in Hr.
  pose proof (pending_clearTimeout_tracked ResetFires (_resetTimeout w) w Hr eq_refl) as Hnil.
  assert (Hgen : pending ResetFires (_resetResetTimer w)
                 = if _isAutoResetEnabled w
                   then [{| timer_id := nextTimer w;
                            due := now w + Z.max 0 (toLong (reset_after_timeout c));
                            callback := ResetFires |}]
                   else []).
  { unfold _resetResetTimer. rewrite Hc, He. cbn [negb]. cbv zeta.
    rewrite isAutoResetEnabled_clearTimeout.
    destruct (_isAutoResetEnabled w); cbn [negb]; [|done].
    unfold setTimeout. cbv beta iota. unfold pending in *. cbn.
    rewrite filter_app, Hnil. cbn.
    rewrite decide_True by done. by destruct (_resetTimeout w). }
  split; [exact Hgen|].
  intros Hfit Hon. rewrite Hgen, Hon. by rewrite toLong_small.
Qed.

Lemma reset_timer_restarts_witness :
  pending ResetFires (_resetResetTimer (after allCards pausableReset))
  = [{| timer_id := 2; due := 6000; callback := ResetFires |}].
Proof.
  destruct (reset_timer_restarts allCards (after allCards pausableReset)
              pausableResetSettings) as [_ Hfit].
  - exists 0, pausableReset. vm_compute. reflexivity.
  - vm_compute. reflexivity.
  - reflexivity.
  - rewrite Hfit.
    + vm_compute. reflexivity.
    + vm_compute. split; [discriminate|reflexivity].
    + vm_compute. reflexivity.
Defined.

(** X10. [disconnectedCallback] cancels every timer the widget keeps an
    id of: in a reachable world, after it, no scroll-end check, no
    release of the user-scrolling flag, no hiding of the pagination and
    no automatic reset is pending.  (A retry of [_goToRealIndex], whose
    id is not kept, is not cancelled.) *)
Theorem disconnect_cancels_tracked_timers (helpers : Helpers) (w : World) (cb : Callback)
    (field : option nat) :
  reachable helpers w ->
  tracked cb w = Some field ->
  pending cb (disconnectedCallback w) = [].
Proof.
  intros Hr Htr. apply timers_ok_reachable in Hr.
  unfold disconnectedCallback. cbv zeta.
  change (pending cb ?x <| _cachedPagination := false |> <| _cachedScroller := false |>
                        <| _rafPending := false |>)
    with (pending cb x).
  assert (H1 := timers_ok_clearTimeout (_resetTimeout w) w Hr).
  set (w1 := clearTimeout (_resetTimeout w) w) in *.
  assert (H2 := timers_ok_clearTimeout (_paginationHideTimeout w1) w1 H1).
  set (w2 := clearTimeout (_paginationHideTimeout w1) w1) in *.
  assert (H3 := timers_ok_clearTimeout (_scrollTimeout w2) w2 H2).
  set (w3 := clearTimeout (_scrollTimeout w2) w2) in *.
  destruct cb; try discriminate Htr.
  - by apply pending_clearTimeout_nil, (pending_clearTimeout_tracked ScrollEnd _ w2).
  - by apply (pending_clearTimeout_tracked ClearUserScrolling _ w3).
  - by do 2 apply pending_clearTimeout_nil;
      apply (pending_clearTimeout_tracked HidePagination _ w1).
  - by do 3 apply pending_clearTimeout_nil;
      apply (pending_clearTimeout_tracked ResetFires _ w).
Qed.

Lemma disconnect_cancels_tracked_timers_witness :
  pending ClearUserScrolling (disconnectedCallback (after allCards swipeToSecond)) = [].
Proof.
  apply (disconnect_cancels_tracked_timers allCards _ _
           (_scrollSettleTimeout (after allCards swipeToSecond))).
  - exists 0, swipeToSecond. vm_compute. reflexivity.
  - reflexivity.
Defined.

(** ** A detached widget *)

Create Rewrite HintDb tracking.

Lemma tracking_set {T} (proj : World -> T) `{!Setter proj} `{!Outside tracking proj} v w :
  tracking (w <| proj := v |>) = tracking w.
Proof. apply outside. Qed.
#[local] Hint Rewrite @tracking_set using (typeclasses eauto) : tracking.

Lemma tracking_with_scroller f w :
  (forall d, pagination (f d) = pagination d /\ scrollTo_request (f d) = scrollTo_request d) ->
  tracking (with_scroller f w) = tracking w.
Proof.
  intros Hf. unfold tracking, with_scroller. cbn.
  destruct (shadowRoot w) as [d|]; cbn; [|done]. by destruct (Hf d) as [-> ->].
Qed.

Lemma tracking_clearTimeout id w : tracking (clearTimeout id w) = tracking w.
Proof. by destruct id. Qed.

Lemma tracking_requestAnimationFrame cb w :
  tracking (requestAnimationFrame cb w) = tracking w.
Proof. reflexivity. Qed.

Lemma tracking_syncToStateEntity w : tracking (_syncToStateEntity w) = tracking w.
Proof.
  unfold _syncToStateEntity.
  repeat first
    [ reflexivity
    | match goal with
      | |- context [match ?x with _ => _ end] => destruct x eqn:?; cbn
      | |- context [if ?x then _ else _] => destruct x eqn:?; cbn
      end ].
Qed.

#[local] Hint Rewrite tracking_clearTimeout tracking_requestAnimationFrame
  tracking_syncToStateEntity : tracking.
#[local] Hint Rewrite tracking_with_scroller using (by intros; split) : tracking.

Lemma tracking_startPaginationHideTimer w :
  tracking (_startPaginationHideTimer w) = tracking w.
Proof.
  unfold _startPaginationHideTimer. destruct (_config w) as [c|]; [|done].
  destruct (_ <=? 0); [done|]. unfold setTimeout. cbv beta iota zeta.
  by autorewrite with tracking.
Qed.

Lemma tracking_resetResetTimer w : tracking (_resetResetTimer w) = tracking w.
Proof.
  unfold _resetResetTimer. destruct (_config w) as [c|]; [|done].
  destruct (enable_reset_after c); cbn [negb]; [|done]. cbv zeta.
  destruct (_isAutoResetEnabled _); cbn [negb]; unfold setTimeout; cbv beta iota zeta;
    by autorewrite with tracking.
Qed.

Lemma tracking_buildCards w : tracking (_buildCards w) = tracking w.
Proof.
  unfold _buildCards. destruct (_config w), (_hass w); try done.
  cbv zeta. by destruct (_initialized _).
Qed.

#[local] Hint Rewrite tracking_startPaginationHideTimer tracking_resetResetTimer
  tracking_buildCards : tracking.

Section Detached.

Variable w0 : World.
Hypothesis Hdetached : detached w0.

Lemma still_detached w : still w0 w -> detached w.
Proof. unfold still, tracking, detached. destruct Hdetached. intros [=]. split; congruence. Qed.

Lemma still_view w w' : tracking w' = tracking w -> still w0 w -> still w0 w'.
Proof. unfold still. congruence. Qed.

Ltac keep :=
  match goal with
  | |- still w0 (?m ?x) =>
      apply (still_view x); [solve [autorewrite with tracking; reflexivity]|]
  end.

Ltac cases :=
  match goal with
  | |- still w0 (if ?c then _ else _) => destruct c
  | |- still w0 (match ?x with _ => _ end) => destruct x
  end.

Lemma still_with_pagination f w : still w0 w -> still w0 (with_pagination f w).
Proof.
  intros H. destruct (still_detached w H) as [_ Hp]. unfold with_pagination. by rewrite Hp.
Qed.

Lemma still_updatePagination w : still w0 w -> still w0 (_updatePagination w).
Proof. apply still_with_pagination. Qed.

Lemma still_goToRealIndex r s w : still w0 w -> still w0 (_goToRealIndex r s w).
Proof.
  intros H. destruct (still_detached w H) as [Hs _]. unfold _goToRealIndex. by rewrite Hs.
Qed.

Lemma still_jumpToSlide d r w : still w0 w -> still w0 (_jumpToSlide d r w).
Proof.
  intros H. destruct (still_detached w H) as [Hs _]. unfold _jumpToSlide. by rewrite Hs.
Qed.

Lemma still_trackScroll w : still w0 w -> still w0 (trackScroll w).
Proof.
  intros H. destruct (still_detached w H) as [Hs _]. unfold trackScroll. by rewrite Hs.
Qed.

Lemma still_onScrollEnd w : still w0 w -> still w0 (_onScrollEnd w).
Proof.
  intros H. destruct (still_detached w H) as [Hs _]. unfold _onScrollEnd. rewrite Hs.
  by destruct (_jumping w).
Qed.

Create HintDb still discriminated.
#[local] Hint Resolve still_with_pagination still_updatePagination still_goToRealIndex
  still_jumpToSlide still_trackScroll still_onScrollEnd : still.
#[local] Hint Extern 2 (still _ _) => keep : still.
#[local] Hint Extern 3 (still _ _) => cases : still.

Ltac stills := auto 40 with still.

Lemma still_showPagination w : still w0 w -> still w0 (_showPagination w).
Proof. intros H. unfold _showPagination. cbv zeta. stills. Qed.

Lemma still_resetFires w : still w0 w -> still w0 (resetFires w).
Proof.
  intros H. unfold resetFires. destruct (_config w) as [c|]; [|done].
  destruct (_isAutoResetEnabled w); cbn [negb]; [|done]. cbv zeta. stills.
Qed.

Lemma still_settleEffects w : still w0 w -> still w0 (settleEffects w).
Proof.
  intros H. unfold settleEffects. destruct (_config w) as [c|]; [|done]. cbv zeta. stills.
Qed.
#[local] Hint Resolve still_showPagination still_resetFires still_settleEffects : still.

Lemma still_jumpFrame2 w : still w0 w -> still w0 (jumpFrame2 w).
Proof. intros H. unfold jumpFrame2. cbv zeta. stills. Qed.

Lemma still_handleScrollFrame w : still w0 w -> still w0 (handleScrollFrame w).
Proof.
  intros H. unfold handleScrollFrame. cbv zeta.
  match goal with |- context [if ?x then _ else _] => destruct x end; [stills|].
  unfold setTimeout. cbv beta iota zeta. stills.
Qed.

Lemma still_handleScroll w : still w0 w -> still w0 (_handleScroll w).
Proof.
  intros H. unfold _handleScroll. destruct (_jumping w); [done|]. cbv zeta. stills.
Qed.

Lemma still_setInitialPosition d w : still w0 w -> still w0 (setInitialPosition d w).
Proof. intros H. unfold setInitialPosition. cbv zeta. stills. Qed.

Lemma still_onScrollStart w : still w0 w -> still w0 (onScrollStart w).
Proof.
  intros H. unfold onScrollStart. destruct (_config w) as [c|]; [|done]. cbv zeta. stills.
Qed.

Lemma still_onTouchEnd w : still w0 w -> still w0 (onTouchEnd w).
Proof. intros H. unfold onTouchEnd. destruct (_config w) as [c|]; [|done]. stills. Qed.

#[local] Hint Resolve still_jumpFrame2 still_handleScrollFrame still_setInitialPosition : still.

Lemma still_runCallback cb w : still w0 w -> still w0 (runCallback cb w).
Proof. intros H. destruct cb; cbn [runCallback]; unfold jumpFrame1; by stills. Qed.

Lemma still_runCallbacks q w :
  still w0 w -> still w0 (foldl (fun w cb => runCallback cb w) w q).
Proof.
  revert w. induction q as [|cb q IH]; intros w H; [done|].
  cbn [foldl]. by apply IH, still_runCallback.
Qed.

Lemma still_connectedCallback w : still w0 w -> still w0 (connectedCallback w).
Proof. intros H. unfold connectedCallback. stills. Qed.

Lemma still_drop_scroller w : still w0 w -> still w0 (w <| _cachedScroller := false |>).
Proof.
  intros H. destruct (still_detached w H) as [Hs _]. unfold still in *. rewrite <- H.
  unfold tracking. cbn. by rewrite Hs.
Qed.

Lemma still_drop_pagination w : still w0 w -> still w0 (w <| _cachedPagination := false |>).
Proof.
  intros H. destruct (still_detached w H) as [_ Hp]. unfold still in *. rewrite <- H.
  unfold tracking. cbn. by rewrite Hp.
Qed.

Lemma still_disconnectedCallback w : still w0 w -> still w0 (disconnectedCallback w).
Proof.
  intros H. unfold disconnectedCallback. cbv zeta. keep.
  apply still_drop_scroller, still_drop_pagination. stills.
Qed.

Lemma still_syncFromStateEntity o n w : still w0 w -> still w0 (_syncFromStateEntity o n w).
Proof.
  intros H.
  destruct (syncFromStateEntity_cases o n w) as [->|(?&?&?&?&t&_&_&_&_&_&_&_&_&_&_&->)]; [done|].
  unfold navigate. stills.
Qed.
#[local] Hint Resolve still_syncFromStateEntity : still.

Lemma still_set_hass hass w : still w0 w -> still w0 (set_hass hass w).
Proof. intros H. unfold set_hass. cbv zeta. stills. Qed.

Lemma still_step helpers e w w' :
  _initialized w = true -> builds w = [] ->
  step helpers e w = Some w' -> still w0 w -> still w0 w'.
Proof.
  intros Hinit Hbuilds Hstep H. destruct e; cbn [step] in Hstep.
  - unfold setConfig in Hstep. destruct (_ || _); [by injection Hstep as <-|].
    cbv zeta in Hstep. cbn [_initialized setter setter_config] in Hstep.
    rewrite Hinit, andb_false_r in Hstep. by injection Hstep as <-.
  - injection Hstep as <-. by apply still_set_hass.
  - injection Hstep as <-. by apply still_connectedCallback.
  - injection Hstep as <-. by apply still_disconnectedCallback.
  - by rewrite Hbuilds in Hstep.
  - destruct (shadowRoot w); [|done]. destruct (bool_decide _); [|done].
    injection Hstep as <-. stills.
  - destruct (0 <=? ms); [|done]. injection Hstep as <-. stills.
  - injection Hstep as <-. apply still_runCallbacks. stills.
  - destruct (filter _ _) as [|t ?]; [done|]. destruct (due t <=? now w); [|done].
    injection Hstep as <-. apply still_runCallback. stills.
  - destruct (shadowRoot w); [|done]. injection Hstep as <-.
    apply still_handleScroll. stills.
  - destruct (shadowRoot w); [|done]. injection Hstep as <-. by apply still_onScrollStart.
  - destruct (shadowRoot w); [|done]. injection Hstep as <-. by apply still_onScrollStart.
  - destruct (shadowRoot w); [|done]. injection Hstep as <-. by apply still_onTouchEnd.
  - destruct (_ ≫= _); [|done]. destruct (bool_decide _); [|done].
    injection Hstep as <-. by apply still_goToRealIndex.
Qed.

Lemma still_run helpers es w w' :
  _initialized w = true -> builds w = [] ->
  run helpers es w = Some w' -> still w0 w -> still w0 w'.
Proof.
  revert w. induction es as [|e es IH]; intros w Hinit Hbuilds Hrun H; cbn [run] in Hrun.
  - by injection Hrun as <-.
  - destruct (step helpers e w) as [w1|] eqn:Hstep; [|done].
    pose proof (built_step _ _ _ _ Hinit Hbuilds Hstep) as Hb. unfold built in Hb.
    apply (IH w1); [congruence|congruence|done|]. by eapply still_step.
Qed.

End Detached.

(** X11. A detached widget stops tracking, for good.  Once built,
    [disconnectedCallback] drops the references to the scroller and the
    pagination, and nothing restores them ([connectedCallback] only
    re-arms the reset timer; [_render] runs once).  After it, whatever
    follows (scrolling, timers, dot clicks, inbound state updates, the
    element being attached again): the real index and the DOM index, the
    pagination element with its dots, and the last programmatic scroll
    request stay as [disconnectedCallback] left them. *)
Theorem detached_widget_stops_tracking (helpers : Helpers) (es : list Event) (w w' : World) :
  _initialized w = true -> builds w = [] ->
  run helpers (Disconnected :: es) w = Some w' ->
  tracking w' = tracking (disconnectedCallback w).
Proof.
  intros Hinit Hbuilds Hrun. cbn [run step] in Hrun.
  apply (still_run (disconnectedCallback w)) with helpers es (disconnectedCallback w);
    try done.
  - pose proof (structure_disconnectedCallback w) as Hs. unfold structure in Hs. congruence.
  - pose proof (structure_disconnectedCallback w) as Hs. unfold structure in Hs. congruence.
Qed.

Lemma detached_widget_stops_tracking_witness :
  tracking (after allCards (swipeToSecond ++ Disconnected :: reattach))
  = tracking (disconnectedCallback (after allCards swipeToSecond)).
Proof.
  apply (detached_widget_stops_tracking allCards reattach); vm_compute; reflexivity.
Defined.

(** ** The scroll throttle *)

Lemma throttle_set {T} (proj : World -> T) `{!Setter proj} `{!Outside throttle proj} v w :
  throttle (w <| proj := v |>) = throttle w.
Proof. apply outside. Qed.

Lemma throttle_with_scroller f w : throttle (with_scroller f w) = throttle w.
Proof. reflexivity. Qed.

Lemma throttle_with_pagination f w : throttle (with_pagination f w) = throttle w.
Proof. unfold with_pagination. by destruct (_cachedPagination w). Qed.

Lemma throttle_scrollTo offset smooth w : throttle (scrollTo offset smooth w) = throttle w.
Proof. reflexivity. Qed.

Lemma throttle_clearTimeout id w : throttle (clearTimeout id w) = throttle w.
Proof. by destruct id. Qed.

Lemma throttle_requestAnimationFrame cb w :
  cb <> HandleScrollFrame -> throttle (requestAnimationFrame cb w) = throttle w.
Proof.
  intros Hcb. unfold throttle, queuedScrollFrames, requestAnimationFrame. cbn.
  rewrite filter_app. cbn. rewrite decide_False by done. by rewrite app_nil_r.
Qed.

Lemma throttle_updatePagination w : throttle (_updatePagination w) = throttle w.
Proof. apply throttle_with_pagination. Qed.

Create Rewrite HintDb throttle.
#[local] Hint Rewrite @throttle_set using (typeclasses eauto) : throttle.
#[local] Hint Rewrite throttle_with_scroller throttle_with_pagination throttle_scrollTo
  throttle_clearTimeout throttle_updatePagination : throttle.
#[local] Hint Rewrite throttle_requestAnimationFrame using discriminate : throttle.

Lemma throttle_syncToStateEntity w : throttle (_syncToStateEntity w) = throttle w.
Proof. unfold _syncToStateEntity, recordSync, callService. frame with throttle. Qed.

Lemma throttle_goToRealIndex r s w : throttle (_goToRealIndex r s w) = throttle w.
Proof. unfold _goToRealIndex, setTimeout. cbv beta iota zeta. frame with throttle. Qed.

Lemma throttle_showPagination w : throttle (_showPagination w) = throttle w.
Proof. unfold _showPagination. cbv zeta. frame with throttle. Qed.

Lemma throttle_startPaginationHideTimer w :
  throttle (_startPaginationHideTimer w) = throttle w.
Proof. unfold _startPaginationHideTimer, setTimeout. cbv beta iota zeta. frame with throttle. Qed.

Lemma throttle_resetResetTimer w : throttle (_resetResetTimer w) = throttle w.
Proof. unfold _resetResetTimer, setTimeout. cbv beta iota zeta. frame with throttle. Qed.

#[local] Hint Rewrite throttle_syncToStateEntity throttle_goToRealIndex throttle_showPagination
  throttle_startPaginationHideTimer throttle_resetResetTimer : throttle.

Lemma throttle_resetFires w : throttle (resetFires w) = throttle w.
Proof. unfold resetFires. cbv zeta. frame with throttle. Qed.

Lemma throttle_settleEffects w : throttle (settleEffects w) = throttle w.
Proof. unfold settleEffects. cbv zeta. frame with throttle. Qed.

Lemma throttle_jumpToSlide d r w : throttle (_jumpToSlide d r w) = throttle w.
Proof. unfold _jumpToSlide. cbv zeta. frame with throttle. Qed.

#[local] Hint Rewrite throttle_resetFires throttle_settleEffects throttle_jumpToSlide : throttle.

Lemma throttle_jumpFrame2 w : throttle (jumpFrame2 w) = throttle w.
Proof. unfold jumpFrame2. cbv zeta. frame with throttle. Qed.

Lemma throttle_settled w : throttle (settled w) = throttle w.
Proof. unfold settled, setTimeout. cbv beta iota zeta. frame with throttle. Qed.

#[local] Hint Rewrite throttle_jumpFrame2 throttle_settled : throttle.

Lemma throttle_onScrollEnd w : throttle (_onScrollEnd w) = throttle w.
Proof. unfold _onScrollEnd. cbv zeta. frame with throttle. Qed.

Lemma throttle_trackScroll w : throttle (trackScroll w) = throttle w.
Proof. unfold trackScroll. cbv zeta. frame with throttle. Qed.

Lemma throttle_setInitialPosition d w : throttle (setInitialPosition d w) = throttle w.
Proof. unfold setInitialPosition. cbv zeta. frame with throttle. Qed.

#[local] Hint Rewrite throttle_onScrollEnd throttle_trackScroll throttle_setInitialPosition
  : throttle.

Lemma throttle_onScrollStart w : throttle (onScrollStart w) = throttle w.
Proof. unfold onScrollStart. cbv zeta. frame with throttle. Qed.

Lemma throttle_onTouchEnd w : throttle (onTouchEnd w) = throttle w.
Proof. unfold onTouchEnd. frame with throttle. Qed.

Lemma throttle_connectedCallback w : throttle (connectedCallback w) = throttle w.
Proof. unfold connectedCallback. frame with throttle. Qed.

Lemma throttle_syncFromStateEntity o n w : throttle (_syncFromStateEntity o n w) = throttle w.
Proof.
  destruct (syncFromStateEntity_cases o n w) as [->|(?&?&?&?&t&_&_&_&_&_&_&_&_&_&_&->)]; [done|].
  unfold navigate. frame with throttle.
Qed.

Lemma throttle_buildCards w : throttle (_buildCards w) = throttle w.
Proof. unfold _buildCards. cbv zeta. frame with throttle. Qed.

#[local] Hint Rewrite throttle_syncFromStateEntity throttle_buildCards : throttle.

Lemma throttle_set_hass hass w : throttle (set_hass hass w) = throttle w.
Proof. unfold set_hass. cbv zeta. frame with throttle. Qed.

Lemma throttle_setConfig config w w' :
  setConfig config w = Normal w' -> throttle w' = throttle w.
Proof.
  unfold setConfig. destruct (_ || _); [done|]. cbv zeta. intros [= <-]. frame with throttle.
Qed.

Lemma throttle_render w : throttle (_render w) = throttle w.
Proof. unfold _render. cbv zeta. frame with throttle. Qed.

Lemma throttle_createCard helpers c w : throttle (createCard helpers c w) = throttle w.
Proof. by rewrite createCard_eq. Qed.

#[local] Hint Rewrite throttle_render throttle_createCard : throttle.

Lemma throttle_commitBuild b w : throttle (commitBuild b w) = throttle w.
Proof. unfold commitBuild. cbv zeta. frame with throttle. Qed.

#[local] Hint Rewrite throttle_commitBuild : throttle.

Lemma throttle_afterCards b w : throttle (fst (afterCards b w)) = throttle w.
Proof.
  unfold afterCards. destruct (negb _); [done|]. destruct (_config w) as [c|]; [|done].
  cbv zeta. match goal with |- context [if ?x then _ else _] => destruct x end;
    cbn [fst]; frame with throttle.
Qed.

Lemma throttle_nextCard b rest w : throttle (fst (nextCard b rest w)) = throttle w.
Proof. destruct rest; cbn [nextCard fst]; [apply throttle_afterCards|done]. Qed.

Lemma throttle_resume helpers b w : throttle (fst (resume helpers b w)) = throttle w.
Proof.
  unfold resume. destruct (pc b).
  - destruct (negb _); [done|]. cbv zeta. cbn [_config setter setter_cards].
    destruct (_config w); [|done]. by rewrite throttle_nextCard.
  - by rewrite throttle_nextCard, throttle_createCard.
  - destruct (helpers _); [|done]. cbv zeta. cbn [_config setter setter_nodes].
    by destruct (_config w).
  - destruct (helpers _); [|done]. cbv zeta. cbn [fst]. frame with throttle.
Qed.

(** The callback of [_handleScroll] clears the flag and queues nothing. *)
Lemma throttle_handleScrollFrame w :
  throttle (handleScrollFrame w) = (queuedScrollFrames w, false).
Proof.
  unfold handleScrollFrame, setTimeout. cbv beta iota zeta.
  match goal with |- context [if ?x then _ else _] => destruct x end; [done|].
  by autorewrite with throttle.
Qed.

Lemma throttle_runCallback cb w :
  cb <> HandleScrollFrame -> throttle (runCallback cb w) = throttle w.
Proof.
  intros Hcb. destruct cb; cbn [runCallback]; try done; unfold jumpFrame1;
    frame with throttle.
Qed.

Lemma throttle_ok_runCallbacks q w :
  (length (filter (fun cb => cb = HandleScrollFrame) q) + queuedScrollFrames w)%nat
  = (if _rafPending w then 1 else 0)%nat ->
  throttle_ok (foldl (fun w cb => runCallback cb w) w q).
Proof.
  revert w. induction q as [|cb q IH]; intros w H; [done|]. cbn [foldl]. apply IH.
  destruct (decide (cb = HandleScrollFrame)) as [->|Hcb].
  - rewrite filter_cons_True in H by done. cbn [length runCallback] in *.
    pose proof (throttle_handleScrollFrame w) as [= -> ->].
    destruct (_rafPending w); lia.
  - rewrite filter_cons_False in H by done.
    pose proof (throttle_runCallback cb w Hcb) as [= -> ->]. done.
Qed.

Lemma throttle_ok_view w w' : throttle w' = throttle w -> throttle_ok w -> throttle_ok w'.
Proof. unfold throttle, throttle_ok. by intros [= -> ->]. Qed.

(** Lines 427-430: a scroll event queues the callback unless one is
    queued already. *)
Lemma throttle_ok_handleScroll w : throttle_ok w -> throttle_ok (_handleScroll w).
Proof.
  intros H. unfold _handleScroll. destruct (_jumping w); [done|]. cbv zeta.
  match goal with |- context [if _rafPending ?x then _ else _] =>
    assert (Hx : throttle_ok x)
      by (apply (throttle_ok_view w); [by autorewrite with throttle|done]);
    generalize dependent x end.
  intros x Hx. unfold throttle_ok in *. destruct (_rafPending x) eqn:E; [by rewrite E|].
  unfold queuedScrollFrames, requestAnimationFrame in *. cbn.
  rewrite filter_app, length_app. cbn. rewrite decide_True by done. cbn. lia.
Qed.

Lemma throttle_ok_step helpers e w w' :
  e <> Disconnected -> timers_ok w ->
  step helpers e w = Some w' -> throttle_ok w -> throttle_ok w'.
Proof.
  intros He Hok Hstep H. destruct e; try done; cbn [step] in Hstep.
  - destruct (setConfig config w) eqn:E; injection Hstep as <-; [|done].
    apply (throttle_ok_view w); [|done]. by eapply throttle_setConfig.
  - injection Hstep as <-. apply (throttle_ok_view w); [|done]. apply throttle_set_hass.
  - injection Hstep as <-. apply (throttle_ok_view w); [|done].
    apply throttle_connectedCallback.
  - destruct (filter _ (builds w)) as [|b ?]; [done|]. cbv zeta in Hstep.
    match type of Hstep with context [resume helpers b ?x] =>
      pose proof (throttle_resume helpers b x) as Hr;
      destruct (resume helpers b x) as [w1 [b1|]] end;
      injection Hstep as <-; cbn [fst] in Hr; apply (throttle_ok_view w); try done;
      by autorewrite with throttle.
  - destruct (shadowRoot w); [|done]. destruct (bool_decide _); [|done].
    injection Hstep as <-. by apply (throttle_ok_view w).
  - destruct (0 <=? ms); [|done]. injection Hstep as <-. by apply (throttle_ok_view w).
  - injection Hstep as <-. apply throttle_ok_runCallbacks.
    unfold throttle_ok, queuedScrollFrames in *. cbn. lia.
  - destruct (filter _ _) as [|t l] eqn:Ht; [done|]. destruct (due t <=? now w); [|done].
    injection Hstep as <-. apply (throttle_ok_view w); [|done].
    assert (Hin : t ∈ timeouts w).
    { assert (Hin : t ∈ t :: l) by apply list_elem_of_here.
      rewrite <- Ht in Hin. by apply list_elem_of_filter in Hin as [_ ?]. }
    destruct Hok as (_ & Hall & _). destruct (Hall t Hin) as (_ & Hk & _).
    rewrite throttle_runCallback; [done|]. intros Heq. by rewrite Heq in Hk.
  - destruct (shadowRoot w); [|done]. injection Hstep as <-.
    apply throttle_ok_handleScroll. by apply (throttle_ok_view w).
  - destruct (shadowRoot w); [|done]. injection Hstep as <-.
    apply (throttle_ok_view w); [|done]. apply throttle_onScrollStart.
  - destruct (shadowRoot w); [|done]. injection Hstep as <-.
    apply (throttle_ok_view w); [|done]. apply throttle_onScrollStart.
  - destruct (shadowRoot w); [|done]. injection Hstep as <-.
    apply (throttle_ok_view w); [|done]. apply throttle_onTouchEnd.
  - destruct (_ ≫= _); [|done]. destruct (bool_decide _); [|done].
    injection Hstep as <-. apply (throttle_ok_view w); [|done]. apply throttle_goToRealIndex.
Qed.

Lemma throttle_ok_run helpers es w w' :
  staysConnected es = true -> timers_ok w ->
  run helpers es w = Some w' -> throttle_ok w -> throttle_ok w'.
Proof.
  revert w. induction es as [|e es IH]; intros w Hes Hok Hrun H; cbn [run] in Hrun.
  - by injection Hrun as <-.
  - destruct (step helpers e w) as [w1|] eqn:Hstep; [|done].
    cbn in Hes. apply andb_true_iff in Hes as [He Hes].
    apply (IH w1); [done| |done|].
    + by eapply timers_ok_step.
    + eapply throttle_ok_step; [|done|done|done]. by intros ->.
Qed.

(** X12. The scroll throttle.  As long as the element is not
    disconnected, however many scroll events arrive between two
    animation frames, at most one callback of [_handleScroll] is queued,
    and [_rafPending] tells whether one is.  ([disconnectedCallback]
    clears the flag without cancelling the frame, so the statement stops
    there.) *)
Theorem scroll_handler_is_queued_once (helpers : Helpers) (es : list Event) (t : Z)
    (w : World) :
  staysConnected es = true ->
  run helpers es (constructor t) = Some w ->
  queuedScrollFrames w = if _rafPending w then 1%nat else 0%nat.
Proof.
  intros Hes Hrun. apply (throttle_ok_run helpers es (constructor t)); try done.
  apply (timers_ok_reachable helpers). by exists t, [].
Qed.

Lemma scroll_handler_is_queued_once_witness :
  queuedScrollFrames
    (after allCards (swipeToSecond ++ [Scroll (90 # 1); Scroll (80 # 1); Scroll (70 # 1)]))
  = 1%nat.
Proof.
  rewrite (scroll_handler_is_queued_once allCards
             (swipeToSecond ++ [Scroll (90 # 1); Scroll (80 # 1); Scroll (70 # 1)]) 0).
  - vm_compute. reflexivity.
  - vm_compute. reflexivity.
  - vm_compute. reflexivity.
Defined.

(** ** The flag of the inbound synchronisation *)

Lemma flag_of_structure w w' :
  structure w' = structure w -> _stateUpdateInProgress w' = _stateUpdateInProgress w.
Proof. unfold structure. by intros [=]. Qed.

Lemma flag_set {T} (proj : World -> T) `{!Setter proj}
    `{!Outside _stateUpdateInProgress proj} v w :
  _stateUpdateInProgress (w <| proj := v |>) = _stateUpdateInProgress w.
Proof. apply outside. Qed.

Lemma flag_startPaginationHideTimer w :
  _stateUpdateInProgress (_startPaginationHideTimer w) = _stateUpdateInProgress w.
Proof. apply flag_of_structure, structure_startPaginationHideTimer. Qed.

Lemma flag_requestAnimationFrame cb w :
  _stateUpdateInProgress (requestAnimationFrame cb w) = _stateUpdateInProgress w.
Proof. reflexivity. Qed.

Lemma flag_createCard helpers c w :
  _stateUpdateInProgress (createCard helpers c w) = _stateUpdateInProgress w.
Proof. by rewrite createCard_eq. Qed.

Create Rewrite HintDb flag.
#[local] Hint Rewrite @flag_set using (typeclasses eauto) : flag.
#[local] Hint Rewrite flag_startPaginationHideTimer flag_requestAnimationFrame
  flag_createCard : flag.

Lemma flag_buildCards w : _stateUpdateInProgress (_buildCards w) = _stateUpdateInProgress w.
Proof. unfold _buildCards. cbv zeta. frame with flag. Qed.

Lemma flag_render w : _stateUpdateInProgress (_render w) = _stateUpdateInProgress w.
Proof. unfold _render. cbv zeta. frame with flag. Qed.

#[local] Hint Rewrite flag_buildCards flag_render : flag.

Lemma flag_commitBuild b w :
  _stateUpdateInProgress (commitBuild b w) = _stateUpdateInProgress w.
Proof. unfold commitBuild. cbv zeta. frame with flag. Qed.

#[local] Hint Rewrite flag_commitBuild : flag.

Lemma flag_afterCards b w :
  _stateUpdateInProgress (fst (afterCards b w)) = _stateUpdateInProgress w.
Proof.
  unfold afterCards. destruct (negb _); [done|]. destruct (_config w) as [c|]; [|done].
  cbv zeta. match goal with |- context [if ?x then _ else _] => destruct x end;
    cbn [fst]; frame with flag.
Qed.

Lemma flag_nextCard b rest w :
  _stateUpdateInProgress (fst (nextCard b rest w)) = _stateUpdateInProgress w.
Proof. destruct rest; cbn [nextCard fst]; [apply flag_afterCards|done]. Qed.

Lemma flag_resume helpers b w :
  _stateUpdateInProgress (fst (resume helpers b w)) = _stateUpdateInProgress w.
Proof.
  unfold resume. destruct (pc b).
  - destruct (negb _); [done|]. cbv zeta. cbn [_config setter setter_cards].
    destruct (_config w); [|done]. by rewrite flag_nextCard.
  - by rewrite flag_nextCard, flag_createCard.
  - destruct (helpers _); [|done]. cbv zeta. cbn [_config setter setter_nodes].
    by destruct (_config w).
  - destruct (helpers _); [|done]. cbv zeta. cbn [fst]. frame with flag.
Qed.

Lemma flag_step helpers e w w' :
  step helpers e w = Some w' -> _stateUpdateInProgress w' = _stateUpdateInProgress w.
Proof.
  intros Hstep. destruct (buildEvent e) eqn:He.
  2:{ apply flag_of_structure. by eapply structure_step. }
  destruct e; try discriminate He; cbn [step] in Hstep.
  - unfold setConfig in Hstep. destruct (_ || _); [by injection Hstep as <-|].
    cbv zeta in Hstep. injection Hstep as <-. frame with flag.
  - injection Hstep as <-. rewrite (flag_of_structure _ _ (structure_set_hass hass w)).
    cbv zeta. frame with flag.
  - destruct (filter _ (builds w)) as [|b ?]; [done|]. cbv zeta in Hstep.
    match type of Hstep with context [resume helpers b ?x] =>
      pose proof (flag_resume helpers b x) as Hr;
      destruct (resume helpers b x) as [w1 [b1|]] end;
      injection Hstep as <-; cbn [fst] in Hr; by autorewrite with flag.
Qed.

(** X13. The flag [_stateUpdateInProgress] is never seen set.  It is
    raised and lowered within one call of [_syncFromStateEntity] (lines
    629-631) and nothing else writes it, so every event finds it as the
    event before left it; in every world the page can reach it is
    [false], and the guard [!this._stateUpdateInProgress] of line 83
    never keeps an inbound update out. *)
Theorem state_update_flag_is_never_seen_set (helpers : Helpers) (w : World) :
  reachable helpers w -> _stateUpdateInProgress w = false.
Proof.
  intros (t & es & Hrun). revert Hrun.
  assert (H0 : _stateUpdateInProgress (constructor t) = false) by done.
  revert H0. generalize (constructor t). induction es as [|e es IH]; intros w0 H0 Hrun;
    cbn [run] in Hrun.
  - by injection Hrun as <-.
  - destruct (step helpers e w0) as [w1|] eqn:Hstep; [|done].
    apply (IH w1); [|done]. by rewrite (flag_step _ _ _ _ Hstep).
Qed.

Lemma state_update_flag_is_never_seen_set_witness :
  _stateUpdateInProgress (after allCards swipeToSecond) = false.
Proof.
  apply (state_update_flag_is_never_seen_set allCards).
  exists 0, swipeToSecond. vm_compute. reflexivity.
Defined.

(** ** The user-scrolling flag after a clone jump *)

Lemma scrollingView_set {T} (proj : World -> T) `{!Setter proj}
    `{!Outside scrollingView proj} v w :
  scrollingView (w <| proj := v |>) = scrollingView w.
Proof. apply outside. Qed.

Lemma scrollingView_with_scroller f w : scrollingView (with_scroller f w) = scrollingView w.
Proof. reflexivity. Qed.

Lemma scrollingView_with_pagination f w :
  scrollingView (with_pagination f w) = scrollingView w.
Proof. unfold with_pagination. by destruct (_cachedPagination w). Qed.

Lemma scrollingView_updatePagination w : scrollingView (_updatePagination w) = scrollingView w.
Proof. apply scrollingView_with_pagination. Qed.

Lemma scrollingView_requestAnimationFrame cb w :
  scrollingView (requestAnimationFrame cb w) = scrollingView w.
Proof. reflexivity. Qed.

Create Rewrite HintDb scrolling.
#[local] Hint Rewrite @scrollingView_set using (typeclasses eauto) : scrolling.
#[local] Hint Rewrite scrollingView_with_scroller scrollingView_with_pagination
  scrollingView_updatePagination scrollingView_requestAnimationFrame : scrolling.

Lemma scrollingView_syncToStateEntity w :
  scrollingView (_syncToStateEntity w) = scrollingView w.
Proof. unfold _syncToStateEntity, recordSync, callService. frame with scrolling. Qed.

Lemma scrollingView_jumpToSlide d r w : scrollingView (_jumpToSlide d r w) = scrollingView w.
Proof. unfold _jumpToSlide. cbv zeta. frame with scrolling. Qed.

#[local] Hint Rewrite scrollingView_syncToStateEntity scrollingView_jumpToSlide : scrolling.

Lemma heldScrolling_view w w' :
  scrollingView w' = scrollingView w -> heldScrolling w -> heldScrolling w'.
Proof. unfold scrollingView, heldScrolling, pending. by intros [= -> ->]. Qed.

Lemma heldScrolling_clearTimeout id w : heldScrolling w -> heldScrolling (clearTimeout id w).
Proof.
  intros [Hu Hp]. split; [by destruct id|]. by apply pending_clearTimeout_nil.
Qed.

Lemma heldScrolling_setTimeout cb d w :
  cb <> ClearUserScrolling -> heldScrolling w -> heldScrolling (snd (setTimeout cb d w)).
Proof.
  intros Hcb [Hu Hp]. split; [done|]. unfold pending, setTimeout in *. cbn.
  rewrite filter_app, Hp. cbn. by rewrite decide_False.
Qed.

Ltac hold :=
  match goal with
  | |- heldScrolling (?m ?x) =>
      apply (heldScrolling_view x); [solve [autorewrite with scrolling; reflexivity]|]
  end.

Ltac hold_cases :=
  match goal with
  | |- heldScrolling (if ?c then _ else _) => destruct c
  | |- heldScrolling (match ?x with _ => _ end) => destruct x
  end.

Create HintDb held discriminated.
#[local] Hint Resolve heldScrolling_clearTimeout : held.
#[local] Hint Extern 2 (heldScrolling _) => hold : held.
#[local] Hint Extern 3 (heldScrolling _) => hold_cases : held.

Lemma heldScrolling_startPaginationHideTimer w :
  heldScrolling w -> heldScrolling (_startPaginationHideTimer w).
Proof.
  intros H. unfold _startPaginationHideTimer. destruct (_config w) as [c|]; [|done].
  destruct (_ <=? 0); [done|]. cbv zeta.
  match goal with |- context [setTimeout ?cb ?d ?x] =>
    pose proof (heldScrolling_setTimeout cb d x) as Hs;
    destruct (setTimeout cb d x) as [id w1] end.
  cbn [snd] in Hs. hold. apply Hs; [done|]. auto with held.
Qed.

Lemma heldScrolling_resetResetTimer w : heldScrolling w -> heldScrolling (_resetResetTimer w).
Proof.
  intros H. unfold _resetResetTimer. destruct (_config w) as [c|]; [|done].
  destruct (enable_reset_after c); cbn [negb]; [|done]. cbv zeta.
  destruct (_isAutoResetEnabled _); cbn [negb]; [|auto with held].
  match goal with |- context [setTimeout ?cb ?d ?x] =>
    pose proof (heldScrolling_setTimeout cb d x) as Hs;
    destruct (setTimeout cb d x) as [id w1] end.
  cbn [snd] in Hs. hold. apply Hs; [done|]. auto with held.
Qed.

#[local] Hint Resolve heldScrolling_startPaginationHideTimer heldScrolling_resetResetTimer
  : held.

Lemma heldScrolling_settleEffects w : heldScrolling w -> heldScrolling (settleEffects w).
Proof.
  intros H. unfold settleEffects. destruct (_config w) as [c|]; [|done]. cbv zeta.
  auto 20 with held.
Qed.

(** The non-jump settle clears the jump flag's neighbours only: the jump
    flag itself stays. *)
Lemma jumping_settled w : _jumping (settled w) = _jumping w.
Proof.
  unfold settled, setTimeout. cbv beta iota zeta. cbn.
  pose proof (position_settleEffects w) as H. unfold position in H.
  destruct (_scrollSettleTimeout _); cbn; congruence.
Qed.

(** X14. A clone jump never releases the user-scrolling flag.
    [_onScrollEnd] returns right after [_jumpToSlide] (lines 494-495 and
    499-500), before the lines that arm the release of [_userScrolling]
    (lines 520-523), and the two frames of the jump do not arm it either.
    So when a scroll settles into a jump while the flag is set and no
    release is pending, then two animation frames later the jump is over,
    the flag is still set, still no release is pending, and every inbound
    state update is ignored. *)
Theorem clone_jump_never_releases_user_scrolling (helpers : Helpers) (w w' : World) :
  _jumping w = false ->
  _userScrolling w = true ->
  pending ClearUserScrolling w = [] ->
  rafQueue w = [] ->
  _jumping (_onScrollEnd w) = true ->
  run helpers [AnimationFrame; AnimationFrame] (_onScrollEnd w) = Some w' ->
  _jumping w' = false
  /\ _userScrolling w' = true
  /\ pending ClearUserScrolling w' = []
  /\ forall oldHass newHass, _syncFromStateEntity oldHass newHass w' = w'.
Proof.
  intros Hj Hu Hp Hq Hjump Hrun.
  assert (Hend : exists d r x scroller, _onScrollEnd w = _jumpToSlide d r x
            /\ _cachedScroller x = true /\ shadowRoot x = Some scroller
            /\ rafQueue x = [] /\ heldScrolling x).
  { revert Hjump. unfold _onScrollEnd. rewrite Hj.
    destruct (_cachedScroller w) eqn:Hs; cbn [negb]; [|congruence].
    destruct (shadowRoot w) as [scroller|] eqn:Hd; [|congruence].
    destruct (_ =? 0); [congruence|]. cbv zeta.
    repeat match goal with |- context [if ?x then _ else _] => destruct x end;
      rewrite ?jumping_settled; cbn; try congruence; intros _;
      eexists _, _, _, scroller; (split; [reflexivity|]); cbn; done. }
  destruct Hend as (d & r & x & scroller & Hend & Hs & Hd & Hqx & Hx). rewrite Hend in Hrun.
  destruct (jump_two_frames helpers d r x scroller Hs Hd Hqx) as (_ & Hland & Hframes).
  rewrite Hframes in Hrun. injection Hrun as <-.
  assert (Hheld : heldScrolling (settleEffects (landed d r x))).
  { apply heldScrolling_settleEffects. unfold landed. auto with held. }
  destruct Hheld as [Hu' Hp'].
  split; [|split; [done|split; [done|]]].
  - pose proof (position_settleEffects (landed d r x)) as H. rewrite Hland in H.
    unfold position in H. congruence.
  - intros o n. destruct (syncFromStateEntity_cases o n (settleEffects (landed d r x)))
      as [->|(?&?&?&?&?&_&_&_&Hno&_)]; [done|congruence].
Qed.

Lemma clone_jump_never_releases_user_scrolling_witness :
  _userScrolling
    (after allCards (dragToLeadingClone ++ [TimerFires 1; AnimationFrame; AnimationFrame]))
  = true.
Proof.
  apply (clone_jump_never_releases_user_scrolling allCards restingOnClone);
    vm_compute; reflexivity.
Defined.

(** ** The first position *)

Lemma rafQueue_eta w q : rafQueue w = q -> w <| rafQueue := q |> = w.
Proof. intros <-. by destruct w. Qed.

(** X15. The first position waits for the layout.  With the callback of
    [_render] queued (lines 361-374): as long as the slide width is not
    measurable an animation frame changes nothing, the callback queues
    itself again; once the width is positive, the next frame puts the
    scroller at [startDomIndex] slide widths and the frame after it
    switches scroll snapping on, and nothing is left in the queue. *)
Theorem first_position_waits_for_layout (helpers : Helpers) (startDomIndex : Z) (w : World)
    (scroller : ShadowRoot) :
  shadowRoot w = Some scroller ->
  rafQueue w = [SetInitialPosition startDomIndex] ->
  (_getSlideWidth w <= 0 -> step helpers AnimationFrame w = Some w)
  /\ (0 < _getSlideWidth w ->
      run helpers [AnimationFrame; AnimationFrame] w
      = Some (w <| rafQueue := [] |>
                <| shadowRoot := Some (scroller
                     <| scrollLeft := inject_Z (startDomIndex * _getSlideWidth w) |>
                     <| snap_enabled := true |>) |>)).
Proof.
  intros Hd Hq. split; intros Hw.
  - cbn [step]. rewrite Hq. cbn [foldl runCallback]. unfold setInitialPosition.
    change (_getSlideWidth _) with (_getSlideWidth w).
    replace (_getSlideWidth w >? 0) with false by lia.
    unfold requestAnimationFrame. cbn. f_equal. by apply (rafQueue_eta w).
  - cbn [run step]. rewrite Hq. cbn [foldl runCallback]. unfold setInitialPosition.
    change (_getSlideWidth (w <| rafQueue := [] |>)) with (_getSlideWidth w).
    replace (_getSlideWidth w >? 0) with true by lia.
    unfold requestAnimationFrame, with_scroller. cbn. by rewrite Hd.
Qed.

Lemma first_position_waits_for_layout_witness :
  step allCards AnimationFrame awaitingLayout = Some awaitingLayout.
Proof.
  destruct (first_position_waits_for_layout allCards 1 awaitingLayout
              (scrollerOf awaitingLayout)) as [Hwait _].
  - vm_compute. reflexivity.
  - vm_compute. reflexivity.
  - apply Hwait. vm_compute. discriminate.
Defined.

(** ** The size hint *)

Lemma foldl_max_spec {A} (f : A -> option Z) (l : list A) (acc : Z) :
  let r := foldl (fun m x => match f x with Some n => Math_max m n | None => m end) acc l in
  acc <= r
  /\ (forall x n, x ∈ l -> f x = Some n -> n <= r)
  /\ (r = acc \/ exists x, x ∈ l /\ f x = Some r).
Proof.
  revert acc. induction l as [|a l IH]; intros acc; cbn [foldl].
  - split; [lia|]. split; [by intros ? ? ?%elem_of_nil|by left].
  - set (acc' := match f a with Some n => Math_max acc n | None => acc end).
    destruct (IH acc') as (Hle & Hall & Hmax).
    assert (Hacc : acc <= acc' /\ (forall n, f a = Some n -> n <= acc')
                   /\ (acc' = acc \/ f a = Some acc')).
    { unfold acc', Math_max. destruct (f a) as [n|].
      - split; [lia|]. split; [intros ? [= <-]; lia|].
        destruct (Z.max_spec acc n) as [[_ ->]|[_ ->]]; auto.
      - split; [lia|]. split; [done|by left]. }
    destruct Hacc as (H1 & H2 & H3). split; [lia|]. split.
    + intros x n [->|Hin]%elem_of_cons Hx; [|by eapply Hall].
      specialize (H2 n Hx). lia.
    + destruct Hmax as [->|(x & Hin & Hx)].
      * destruct H3 as [->|H3]; [by left|]. right. exists a. split; [apply list_elem_of_here|done].
      * right. exists x. split; [by apply list_elem_of_further|done].
Qed.

(** X16. The size hint is that of the tallest card.  Once configured,
    [getCardSize] answers [size], plus one when [show_pagination] is on,
    where [size] is at least 1, at least what every real card reports
    (clones are not asked, cards without the method are skipped), and is
    either 1 or what one of the cards reports. *)
Theorem getCardSize_is_the_tallest_card (sizeOf : CardElement -> option Z) (w : World)
    (c : Config) :
  _config w = Some c ->
  exists size,
    getCardSize sizeOf w = Normal (size + if show_pagination c then 1 else 0)
    /\ 1 <= size
    /\ (forall card n, card ∈ _cards w -> nodes w !! card ≫= sizeOf = Some n -> n <= size)
    /\ (size = 1 \/ exists card, card ∈ _cards w /\ nodes w !! card ≫= sizeOf = Some size).
Proof.
  intros Hc. unfold getCardSize. rewrite Hc. cbv zeta.
  eexists. split; [reflexivity|].
  apply (foldl_max_spec (fun card => nodes w !! card ≫= sizeOf) (_cards w) 1).
Qed.

Lemma getCardSize_is_the_tallest_card_witness :
  exists size,
    getCardSize textLength threeTexts = Normal (size + 1)
    /\ 1 <= size
    /\ (forall card n, card ∈ _cards threeTexts ->
                       nodes threeTexts !! card ≫= textLength = Some n -> n <= size)
    /\ (size = 1 \/ exists card, card ∈ _cards threeTexts
                                 /\ nodes threeTexts !! card ≫= textLength = Some size).
Proof.
  apply (getCardSize_is_the_tallest_card textLength threeTexts threeTextsSettings).
  vm_compute. reflexivity.
Defined.

(** ** The editor *)

Lemma swap_adjacent (l1 l2 : list CardConfig) (a b : CardConfig) :
  Editor.swap (length l1) (S (length l1)) (l1 ++ a :: b :: l2) = l1 ++ b :: a :: l2.
Proof.
  unfold Editor.swap.
  rewrite (lookup_app_r l1) by lia. rewrite Nat.sub_diag. cbn [lookup list_lookup].
  rewrite (lookup_app_r l1) by lia.
  replace (S (length l1) - length l1)%nat with 1%nat by lia. cbn.
  rewrite (insert_app_r_alt l1) by lia.
  replace (S (length l1) - length l1)%nat with 1%nat by lia. cbn.
  rewrite (insert_app_r_alt l1) by lia. rewrite Nat.sub_diag. reflexivity.
Qed.

Lemma adjacent_rows (cards : list CardConfig) (i : nat) :
  (S i < length cards)%nat ->
  exists l1 a b l2, cards = l1 ++ a :: b :: l2 /\ length l1 = i.
Proof.
  intros Hi. exists (take i cards).
  destruct (drop i cards) as [|a [|b l2]] eqn:Hd.
  - apply (f_equal length) in Hd. rewrite length_drop in Hd. cbn in Hd. lia.
  - apply (f_equal length) in Hd. rewrite length_drop in Hd. cbn in Hd. lia.
  - exists a, b, l2. split; [by rewrite <- Hd, take_drop|]. rewrite length_take. lia.
Qed.

Lemma config_with_own_cards (c : RawConfig) (cards : list CardConfig) :
  raw_cards c = Array cards -> c <| raw_cards := Array cards |> = c.
Proof. intros <-. by destruct c. Qed.

(** X17. Reordering in the editor.  On a card list, moving row [i] up
    swaps it with the row above, and moving the row that is now above
    back down restores the configuration: each of the two clicks
    dispatches one [config-changed] event carrying the new configuration,
    and the list in between is a permutation of the original (no card is
    lost or doubled). *)
Theorem editor_move_up_then_down_restores (s : Editor.State) (cards : list CardConfig)
    (i : nat) :
  raw_cards (Editor._config s) = Array cards ->
  (0 < i < length cards)%nat ->
  exists s1 s2 cards1,
    Editor.click Editor.MoveUp i s = Some s1
    /\ Editor.click Editor.MoveDown (i - 1) s1 = Some s2
    /\ raw_cards (Editor._config s1) = Array cards1
    /\ cards1 ≡ₚ cards
    /\ cards1 !! (i - 1)%nat = cards !! i
    /\ Editor._config s2 = Editor._config s
    /\ Editor.dispatched s2 = Editor.dispatched s ++ [Editor._config s1; Editor._config s].
Proof.
  intros Hcards [Hi0 Hi].
  destruct (adjacent_rows cards (i - 1)) as (l1 & a & b & l2 & -> & Hl1); [lia|].
  assert (Hlen : length (l1 ++ a :: b :: l2) = (i + 1 + length l2)%nat).
  { rewrite length_app. cbn. lia. }
  set (cards1 := l1 ++ b :: a :: l2).
  assert (Hlen1 : length cards1 = (i + 1 + length l2)%nat).
  { unfold cards1. rewrite length_app. cbn. lia. }
  assert (Hup : Editor.click Editor.MoveUp i s = Some (Editor.storeCards cards1 s)).
  { unfold Editor.click. rewrite Hcards. cbn [Editor.spread].
    rewrite !bool_decide_eq_true_2 by lia.
    replace i with (S (length l1)) at 2 by lia. rewrite <- Hl1. by rewrite swap_adjacent. }
  set (s1 := Editor.storeCards cards1 s) in *.
  assert (Hdown : Editor.click Editor.MoveDown (i - 1) s1
                  = Some (Editor.storeCards (l1 ++ a :: b :: l2) s1)).
  { unfold Editor.click. cbn [Editor._config s1 Editor.storeCards Editor._fireConfigChanged].
    cbn. rewrite !bool_decide_eq_true_2 by lia.
    replace (i - 1 + 1)%nat with (S (length l1)) by lia. rewrite <- Hl1.
    unfold cards1. by rewrite swap_adjacent. }
  exists s1, (Editor.storeCards (l1 ++ a :: b :: l2) s1), cards1.
  split; [done|]. split; [done|]. split; [done|]. split.
  { unfold cards1. apply Permutation_app_head, perm_swap. }
  split.
  { unfold cards1. rewrite <- Hl1. rewrite !lookup_app_r by lia.
    rewrite Nat.sub_diag. by replace (i - length l1)%nat with 1%nat by lia. }
  split.
  - cbn. destruct (Editor._config s) eqn:E. cbn in *. by rewrite Hcards.
  - cbn. rewrite <- app_assoc. cbn. do 3 f_equal.
    destruct (Editor._config s) eqn:E. cbn in *. by rewrite Hcards.
Qed.

Lemma editor_move_up_then_down_restores_witness :
  exists s1 s2 cards1,
    Editor.click Editor.MoveUp 1 editing = Some s1
    /\ Editor.click Editor.MoveDown (1 - 1) s1 = Some s2
    /\ raw_cards (Editor._config s1) = Array cards1
    /\ cards1 ≡ₚ [markdown "A"; markdown "B"]
    /\ cards1 !! (1 - 1)%nat = [markdown "A"; markdown "B"] !! 1%nat
    /\ Editor._config s2 = pausableResetConfig
    /\ Editor.dispatched s2 = [] ++ [Editor._config s1; pausableResetConfig].
Proof.
  apply (editor_move_up_then_down_restores editing [markdown "A"; markdown "B"] 1).
  - reflexivity.
  - cbn. lia.
Defined.

(** X18. Deleting and adding in the editor.  On a card list, the delete
    button of row [i] removes that card and no other: the rows above it
    stay, the rows below move up by one; the click dispatches one
    [config-changed] event carrying the new configuration.  [_addCard]
    appends a markdown card at the end, and deleting the new last row
    afterwards restores the configuration. *)
Theorem editor_delete_removes_one_card (s : Editor.State) (cards : list CardConfig) (i : nat) :
  raw_cards (Editor._config s) = Array cards ->
  (i < length cards)%nat ->
  (exists s',
      Editor.click Editor.Delete i s = Some s'
      /\ raw_cards (Editor._config s') = Array (delete i cards)
      /\ length (delete i cards) = (length cards - 1)%nat
      /\ (forall j, delete i cards !! j = cards !! (if decide (j < i)%nat then j else S j))
      /\ Editor.dispatched s' = Editor.dispatched s ++ [Editor._config s'])
  /\ (exists s1 s2,
      Editor._addCard s = Some s1
      /\ raw_cards (Editor._config s1)
         = Array (cards ++ [{| type := "markdown"; content := "New card" |}])
      /\ Editor.click Editor.Delete (length cards) s1 = Some s2
      /\ Editor._config s2 = Editor._config s).
Proof.
  intros Hcards Hi. split.
  - exists (Editor.storeCards (delete i cards) s).
    split. { unfold Editor.click. rewrite Hcards. cbn. by rewrite bool_decide_eq_true_2. }
    split; [done|]. split. { apply length_delete, lookup_lt_is_Some_2, Hi. }
    split; [|done]. intros j. apply list_lookup_delete.
  - set (new := {| type := "markdown"%string; content := "New card"%string |}).
    exists (Editor.storeCards (cards ++ [new]) s).
    exists (Editor.storeCards cards (Editor.storeCards (cards ++ [new]) s)).
    split. { unfold Editor._addCard. by rewrite Hcards. }
    split; [done|]. split.
    + unfold Editor.click. cbn. rewrite bool_decide_eq_true_2.
      * rewrite delete_middle. by rewrite app_nil_r.
      * rewrite length_app. cbn. lia.
    + cbn. destruct (Editor._config s) eqn:E. cbn in *. by rewrite Hcards.
Qed.

Lemma editor_delete_removes_one_card_witness :
  exists s',
    Editor.click Editor.Delete 0 editing = Some s'
    /\ raw_cards (Editor._config s') = Array [markdown "B"].
Proof.
  destruct (editor_delete_removes_one_card editing [markdown "A"; markdown "B"] 0)
    as [(s' & Hclick & Hcards & _) _].
  - reflexivity.
  - cbn. lia.
  - exists s'. split; [exact Hclick|exact Hcards].
Defined.

(** X19. A move button is rendered disabled exactly when its listener
    does nothing.  The render disables move-up in the first row and
    move-down in the last (lines 845 and 848); the listener ignores
    move-up at index 0 and move-down at the last index (lines 958 and
    964).  So on a card list a click on a disabled button leaves the
    editor as it is and dispatches nothing, and a click on any other
    button changes the list into a list with the same cards (one less
    for delete) and dispatches one event. *)
Theorem editor_disabled_buttons_do_nothing (s : Editor.State) (cards : list CardConfig)
    (action : Editor.Action) (i : nat) :
  raw_cards (Editor._config s) = Array cards ->
  (i < length cards)%nat ->
  if Editor.disabled action i cards
  then Editor.click action i s = Some s
  else exists s' cards',
      Editor.click action i s = Some s'
      /\ raw_cards (Editor._config s') = Array cards'
      /\ Editor.dispatched s' = Editor.dispatched s ++ [Editor._config s']
      /\ match action with
         | Editor.Delete => exists card, cards !! i = Some card /\ cards ≡ₚ card :: cards'
         | _ => cards' ≡ₚ cards
         end.
Proof.
  intros Hcards Hi. unfold Editor.click. rewrite Hcards. cbn [Editor.spread].
  rewrite bool_decide_eq_true_2 by done.
  destruct action; cbn [Editor.disabled].
  - destruct (lookup_lt_is_Some_2 cards i Hi) as [card Hcard].
    eexists _, _. split; [reflexivity|]. split; [reflexivity|]. split; [reflexivity|].
    exists card. split; [done|]. by apply delete_Permutation.
  - destruct (decide (i = 0%nat)) as [->|Hne].
    + rewrite bool_decide_eq_true_2 by done. by rewrite bool_decide_eq_false_2 by lia.
    + rewrite bool_decide_eq_false_2 by done. rewrite bool_decide_eq_true_2 by lia.
      destruct (adjacent_rows cards (i - 1)) as (l1 & a & b & l2 & -> & Hl1); [lia|].
      eexists _, _. split; [reflexivity|]. split; [reflexivity|]. split; [reflexivity|].
      replace i with (S (length l1)) by lia.
      replace (S (length l1) - 1)%nat with (length l1) by lia.
      rewrite swap_adjacent. apply Permutation_app_head, perm_swap.
  - destruct (decide (Z.of_nat i = Z.of_nat (length cards) - 1)) as [Heq|Hne].
    + rewrite bool_decide_eq_true_2 by done. by rewrite bool_decide_eq_false_2 by lia.
    + rewrite bool_decide_eq_false_2 by done. rewrite bool_decide_eq_true_2 by lia.
      destruct (adjacent_rows cards i) as (l1 & a & b & l2 & -> & Hl1); [lia|].
      eexists _, _. split; [reflexivity|]. split; [reflexivity|]. split; [reflexivity|].
      rewrite <- Hl1. replace (length l1 + 1)%nat with (S (length l1)) by lia.
      rewrite swap_adjacent. apply Permutation_app_head, perm_swap.
Qed.

Lemma editor_disabled_buttons_do_nothing_witness :
  Editor.click Editor.MoveDown 1 editing = Some editing.
Proof.
  apply (editor_disabled_buttons_do_nothing editing [markdown "A"; markdown "B"]
           Editor.MoveDown 1).
  - reflexivity.
  - cbn. lia.
Defined.

Lemma config_buildCards w : _config (_buildCards w) = _config w.
Proof.
  unfold _buildCards. destruct (_config w) eqn:E, (_hass w); try done.
  cbv zeta. destruct (_initialized _); cbn; by rewrite E.
Qed.

(** What [setConfig] makes of the options the editor writes. *)
Lemma setConfig_stores config w w' c :
  setConfig config w = Normal w' ->
  _config w' = Some c ->
  loop_mode c = default "none"%string (raw_loop_mode config)
  /\ enable_reset_after c = default false (raw_enable_reset_after config)
  /\ reset_after_timeout c = default 30000 (raw_reset_after_timeout config).
Proof.
  unfold setConfig. destruct (_ || _); [done|]. cbv zeta. intros [= <-].
  match goal with |- context [if ?b then _ else _] => destruct b end;
    rewrite ?config_buildCards; cbn; by intros [= <-].
Qed.

(** Up to 2^53 in absolute value an integer is its own Number. *)
Lemma nearestDouble_safe (n : Z) : Z.abs n <= 2 ^ 53 -> Editor.nearestDouble n = n.
Proof.
  intros Hn. destruct (Z.eq_dec (Z.abs n) (2 ^ 53)) as [Heq|Hne].
  - destruct (Z.abs_eq_or_opp n) as [H|H]; rewrite H in Heq.
    + subst n. vm_compute. reflexivity.
    + replace n with (- 2 ^ 53) by lia. vm_compute. reflexivity.
  - unfold Editor.nearestDouble. cbv zeta.
    replace (Z.log2 (Z.abs n) - 52 <=? 0) with true; [reflexivity|].
    symmetry. apply Z.leb_le.
    destruct (Z.eq_dec (Z.abs n) 0) as [H0|H0]; [rewrite H0; cbn; lia|].
    assert (Z.log2 (Z.abs n) < 53); [|lia].
    apply Z.log2_lt_pow2; lia.
Qed.

(** X20. The reset-timeout field and the widget agree.  After the field
    was changed to a text that starts with an integer of at most 2^53 in
    absolute value (a text that starts with none counts as 0), the
    editor has parsed exactly that integer, and the configuration it
    dispatches makes the widget (a) switch automatic reset on exactly
    when the integer is positive, (b) use that integer as the timeout,
    and 30000 with the reset switched off otherwise; and (c) shown again
    by the editor, the field reads that integer, or 0 when the reset is
    off: what the field shows is what the widget does. *)
Theorem editor_reset_field_agrees_with_widget (text : string) (s : Editor.State)
    (w w' : World) (c : Config) :
  let s' := Editor.changeResetTimeout text s in
  let typed := default 0 (Editor.mathInt text) in
  Z.abs typed <= 2 ^ 53 ->
  setConfig (Editor._config s') w = Normal w' ->
  _config w' = Some c ->
  default 0 (Editor.parseInt text) = typed
  /\ enable_reset_after c = (typed >? 0)
  /\ reset_after_timeout c = (if typed >? 0 then typed else 30000)
  /\ Editor.resetTimeoutShown (Editor._config s')
     = (if enable_reset_after c then reset_after_timeout c else 0)
  /\ Editor.resetTimeoutShown (Editor._config s') = Z.max 0 typed
  /\ Editor.dispatched s' = Editor.dispatched s ++ [Editor._config s'].
Proof.
  intros s' typed Hsafe Hset Hc.
  assert (Hparsed : default 0 (Editor.parseInt text) = typed).
  { unfold typed in *. unfold Editor.parseInt.
    destruct (Editor.mathInt text) as [n|]; cbn in *; [|reflexivity].
    by apply nearestDouble_safe. }
  assert (Hor : or_default typed 0 = typed).
  { unfold or_default. destruct (typed =? 0) eqn:E; lia. }
  destruct (setConfig_stores _ _ _ _ Hset Hc) as (_ & He & Ht).
  unfold s', Editor.changeResetTimeout in He, Ht. cbn in He, Ht.
  rewrite Hparsed, Hor in He, Ht.
  assert (Hshown : Editor.resetTimeoutShown (Editor._config s') = Z.max 0 typed).
  { unfold s', Editor.changeResetTimeout, Editor.resetTimeoutShown. cbn.
    rewrite Hparsed, Hor. unfold or_default.
    destruct (typed >? 0) eqn:E; cbn; [|lia].
    destruct (typed =? 0) eqn:E0; lia. }
  split; [done|]. split; [done|]. split; [done|]. split; [|split; [done|done]].
  rewrite Hshown, He, Ht. destruct (typed >? 0) eqn:E; lia.
Qed.

Lemma editor_reset_field_agrees_with_widget_witness :
  Editor.resetTimeoutShown (Editor._config (Editor.changeResetTimeout " 0x10 ms" editing))
  = 16.
Proof.
  destruct (editor_reset_field_agrees_with_widget " 0x10 ms" editing (constructor 0)
              ((constructor 0) <| _config := Some sixteenSettings |>) sixteenSettings)
    as (_ & _ & _ & _ & Hshown & _).
  - vm_compute. discriminate.
  - vm_compute. reflexivity.
  - reflexivity.
  - rewrite Hshown. vm_compute. reflexivity.
Defined.

(** X21. The loop switch and the widget agree, except on [loopback].
    For a configuration whose loop mode is not [loopback], the editor
    shows the loop switch checked exactly when the widget asks for
    looping (line 160); and whatever the configuration was, after the
    switch is toggled the dispatched configuration shows the switch as
    toggled.  (With [loop_mode: loopback] the widget loops and the
    switch is shown off.) *)
Theorem editor_loop_switch_agrees_with_widget (config : RawConfig) (w w' : World)
    (c : Config) :
  raw_loop_mode config <> Some "loopback"%string ->
  setConfig config w = Normal w' ->
  _config w' = Some c ->
  Editor.infiniteLoopChecked config = requestsLooping c
  /\ forall checked s,
       Editor.infiniteLoopChecked (Editor._config (Editor.changeInfiniteLoop checked s))
       = checked.
Proof.
  intros Hne Hset Hc. split.
  - destruct (setConfig_stores _ _ _ _ Hset Hc) as (Hl & _ & _).
    unfold Editor.infiniteLoopChecked, requestsLooping. rewrite Hl.
    destruct (raw_loop_mode config) as [m|]; cbn; [|done].
    destruct (String.eqb_spec m "infinite") as [->|Hm].
    + by rewrite bool_decide_eq_true_2.
    + rewrite bool_decide_eq_false_2 by congruence.
      destruct (String.eqb_spec m "loopback") as [->|Hb]; [done|done].
  - intros [] s; reflexivity.
Qed.

Lemma editor_loop_switch_agrees_with_widget_witness :
  Editor.infiniteLoopChecked pausableResetConfig = requestsLooping pausableResetSettings.
Proof.
  apply (editor_loop_switch_agrees_with_widget pausableResetConfig (constructor 0)
           ((constructor 0) <| _config := Some pausableResetSettings |>) pausableResetSettings).
  - discriminate.
  - vm_compute. reflexivity.
  - reflexivity.
Defined.

(** ** Pagination and reset, from the user's side *)

Lemma pending_setTimeout_other cb cb' d w :
  cb' <> cb -> pending cb (snd (setTimeout cb' d w)) = pending cb w.
Proof.
  intros Hne. unfold pending, setTimeout. cbn. rewrite filter_app. cbn.
  rewrite decide_False by done. by rewrite app_nil_r.
Qed.

Lemma pending_resetResetTimer_nil cb w :
  cb <> ResetFires -> pending cb w = [] -> pending cb (_resetResetTimer w) = [].
Proof.
  intros Hcb Hnil. unfold _resetResetTimer. destruct (_config w) as [c|]; [|done].
  destruct (enable_reset_after c); cbn [negb]; [|done]. cbv zeta.
  destruct (_isAutoResetEnabled _); cbn [negb]; [|by apply pending_clearTimeout_nil].
  match goal with |- context [setTimeout ?cb' ?d ?x] =>
    pose proof (pending_setTimeout_other cb cb' d x) as Hs;
    destruct (setTimeout cb' d x) as [id w1] end.
  cbn [snd] in Hs. change (pending cb (w1 <| _resetTimeout := Some id |>)) with (pending cb w1).
  rewrite Hs by done. by apply pending_clearTimeout_nil.
Qed.

(** X22. A touch holds the pagination.  In a reachable, configured
    world: when the user touches the scroller (or presses the mouse) no
    timer that would hide the pagination is left pending, whatever was
    armed before; and with [auto_hide_pagination] positive, lifting the
    finger arms exactly one, due after [auto_hide_pagination] as the
    browser takes a delay (reduced to a signed 32-bit integer, a negative
    one counting as 0): that many milliseconds from now when the value is
    below 2^31. *)
Theorem touch_holds_the_pagination (helpers : Helpers) (w : World) (c : Config) :
  reachable helpers w ->
  _config w = Some c ->
  pending HidePagination (onScrollStart w) = []
  /\ (0 < auto_hide_pagination c ->
      pending HidePagination (onTouchEnd w)
      = [{| timer_id := nextTimer w;
            due := now w + Z.max 0 (toLong (auto_hide_pagination c));
            callback := HidePagination |}])
  /\ (0 < auto_hide_pagination c < 2 ^ 31 ->
      pending HidePagination (onTouchEnd w)
      = [{| timer_id := nextTimer w; due := now w + auto_hide_pagination c;
            callback := HidePagination |}]).
Proof.
  intros Hr Hc. apply timers_ok_reachable in Hr.
  assert (Hend : 0 < auto_hide_pagination c ->
            pending HidePagination (onTouchEnd w)
            = [{| timer_id := nextTimer w;
                  due := now w + Z.max 0 (toLong (auto_hide_pagination c));
                  callback := HidePagination |}]).
  { intros Hpos. unfold onTouchEnd, _startPaginationHideTimer. rewrite Hc.
    replace (auto_hide_pagination c >? 0) with true by lia.
    replace (auto_hide_pagination c <=? 0) with false by lia. cbv zeta.
    pose proof (pending_clearTimeout_tracked HidePagination (_paginationHideTimeout w) w
                  Hr eq_refl) as Hnil.
    unfold setTimeout. cbv beta iota. unfold pending in *. cbn.
    rewrite filter_app, Hnil. cbn. rewrite decide_True by done.
    by destruct (_paginationHideTimeout w). }
  split; [|split; [exact Hend|]].
  - unfold onScrollStart. rewrite Hc. cbv zeta.
    set (w1 := clearTimeout (_scrollSettleTimeout (w <| _userScrolling := true |>))
                 (w <| _userScrolling := true |>)).
    assert (H1 : timers_ok w1).
    { apply timers_ok_clearTimeout. by apply (timers_ok_view w). }
    assert (Hshow : pending HidePagination (_showPagination w1) = []).
    { unfold _showPagination. cbv zeta.
      set (w2 := with_pagination _ w1).
      apply (pending_clearTimeout_tracked HidePagination (_paginationHideTimeout w2) w2);
        [|done].
      apply (timers_ok_view w1); [|done]. unfold w2. by autorewrite with timers. }
    destruct (enable_reset_after c); [|done]. by apply pending_resetResetTimer_nil.
  - intros Hfit. rewrite Hend by lia. by rewrite toLong_small by lia.
Qed.

Lemma touch_holds_the_pagination_witness :
  pending HidePagination (onScrollStart (after allCards swipeToSecond)) = [].
Proof.
  destruct (touch_holds_the_pagination allCards (after allCards swipeToSecond)
              (sampleSettings [markdown "A"; markdown "B"] "none" (Some page) 1))
    as [Htouch _].
  - exists 0, swipeToSecond. vm_compute. reflexivity.
  - vm_compute. reflexivity.
  - exact Htouch.
Defined.

Lemma realIndex_syncToStateEntity w : _realIndex (_syncToStateEntity w) = _realIndex w.
Proof.
  pose proof (position_syncToStateEntity w) as H. unfold position in H. congruence.
Qed.

Lemma realIndex_goToRealIndex r s w :
  _cachedScroller w = true ->
  _realIndex (_goToRealIndex r s w) = clampReal (cards_length w) r.
Proof.
  intros Hs. unfold _goToRealIndex. rewrite Hs. cbn [negb]. cbv zeta.
  destruct (_ =? 0); [done|].
  match goal with |- _realIndex (_updatePagination ?x) = _ =>
    pose proof (position_updatePagination x) as H;
    assert (Hr : _realIndex (_updatePagination x) = _realIndex x)
      by (unfold position in H; congruence)
  end.
  by rewrite Hr.
Qed.

(** X23. Where the automatic reset lands.  When the reset timer fires
    in a rendered widget whose pause entity allows it, the real index
    becomes the card [reset_target_card] names, counted from 1 (the
    first card when it is 0 or negative), provided that there is such a
    card; when [reset_target_card] is beyond the last card the reset
    does nothing at all: the guard of line 686 keeps the target from
    reaching [_goToRealIndex], which would have clamped it. *)
Theorem auto_reset_lands_on_the_target (w : World) (c : Config) :
  _config w = Some c ->
  _isAutoResetEnabled w = true ->
  _cachedScroller w = true ->
  let target := Z.max 0 (reset_target_card c - 1) in
  (target < cards_length w -> _realIndex (resetFires w) = target)
  /\ (cards_length w <= target -> resetFires w = w).
Proof.
  intros Hc He Hs target.
  assert (Ht : Math_max 0 (or_default (reset_target_card c) 1 - 1) = target).
  { unfold target, Math_max, or_default. destruct (reset_target_card c =? 0) eqn:E; lia. }
  unfold resetFires. rewrite Hc, He. cbn [negb]. cbv zeta. rewrite Ht. split; intros Hrange.
  - replace (target <? cards_length w) with true by lia. rewrite andb_true_r.
    destruct (target =? _realIndex w) eqn:E; cbn [negb]; [lia|].
    rewrite realIndex_syncToStateEntity, realIndex_goToRealIndex by done.
    unfold clampReal, Math_max, Math_min, target. lia.
  - replace (target <? cards_length w) with false by lia. by rewrite andb_false_r.
Qed.

Lemma auto_reset_lands_on_the_target_witness :
  _realIndex (resetFires (after allCards swipeToSecond)) = 0.
Proof.
  destruct (auto_reset_lands_on_the_target (after allCards swipeToSecond)
              (sampleSettings [markdown "A"; markdown "B"] "none" (Some page) 1))
    as [Hland _].
  - vm_compute. reflexivity.
  - vm_compute. reflexivity.
  - vm_compute. reflexivity.
  - apply Hland. vm_compute. reflexivity.
Defined.

(** ** A click on a dot *)

(** X24. A click on the dot of card [i] goes to card [i].  In a rendered
    widget with a measurable slide width, a click on the [i]-th
    pagination dot, [i] being the index of a card, leaves the real index
    at [i] and the DOM index at [i], or [i + 1] in infinite mode, asks
    the scroller for a smooth scroll to that slide and, when the
    pagination is the one the widget holds, makes dot [i] the only
    active one. *)
Theorem dot_click_goes_to_its_card (helpers : Helpers) (w w' : World) (i : nat) :
  _cachedScroller w = true ->
  _getSlideWidth w <> 0 ->
  (i < length (_cards w))%nat ->
  step helpers (ClickDot i) w = Some w' ->
  let domIndex := domIndexOf (_isInfiniteMode w) (Z.of_nat i) in
  _realIndex w' = Z.of_nat i
  /\ _currentIndex w' = domIndex
  /\ scrollTo_request <$> shadowRoot w' = Some (Some (domIndex * _getSlideWidth w, true))
  /\ (_cachedPagination w = true ->
      forall p j active,
        shadowRoot w' ≫= pagination = Some p ->
        dots p !! j = Some active -> active = bool_decide (j = i)).
Proof.
  intros Hs Hw Hi Hstep domIndex. cbn [step] in Hstep.
  destruct (shadowRoot w) as [d|] eqn:Hd; [|done]. cbn in Hstep.
  destruct (pagination d) as [p0|] eqn:Hp0; [|done].
  destruct (bool_decide _); [|done]. injection Hstep as <-.
  assert (Hclamp : clampReal (cards_length w) (Z.of_nat i) = Z.of_nat i).
  { unfold clampReal, cards_length, Math_max, Math_min. lia. }
  unfold _goToRealIndex. rewrite Hs. cbn [negb]. cbv zeta. rewrite Hclamp.
  change (_getSlideWidth (w <| _realIndex := Z.of_nat i |>)) with (_getSlideWidth w).
  change (_isInfiniteMode (w <| _realIndex := Z.of_nat i |>)) with (_isInfiniteMode w).
  replace (_getSlideWidth w =? 0) with false by lia. fold domIndex.
  unfold _updatePagination, with_pagination, scrollTo, with_scroller.
  cbn. rewrite Hd. cbn.
  destruct (_cachedPagination w) eqn:Hcp; cbn; rewrite ?Hd; cbn.
  - split; [done|]. split; [done|]. split; [done|]. intros _ p j active.
    rewrite Hp0. cbn. intros [= <-]. cbn. rewrite list_lookup_imap.
    destruct (dots p0 !! j); cbn; [|done]. intros [= <-].
    destruct (decide (j = i)) as [->|Hne].
    + rewrite bool_decide_eq_true_2 by done. lia.
    + rewrite bool_decide_eq_false_2 by done. lia.
  - split; [done|]. split; [done|]. split; [done|]. done.
Qed.

Lemma dot_click_goes_to_its_card_witness :
  _realIndex (after allCards (swipeToSecond ++ [ClickDot 0])) = 0.
Proof.
  destruct (dot_click_goes_to_its_card allCards (after allCards swipeToSecond)
              (after allCards (swipeToSecond ++ [ClickDot 0])) 0) as (Hreal & _).
  - vm_compute. reflexivity.
  - vm_compute. discriminate.
  - vm_compute. lia.
  - vm_compute. reflexivity.
  - exact Hreal.
Defined.

(** ** Double precision

    How far [double] moves a number, and on which side of the tolerance
    of [_onScrollEnd] a rounded quotient falls. *)

Lemma roundHalfEven_spec (n d : Z) :
  0 <= n -> 0 < d -> 2 * Z.abs (roundHalfEven n d * d - n) <= d.
Proof.
  intros Hn Hd. unfold roundHalfEven.
  pose proof (Z.div_mod n d ltac:(lia)) as Hdm.
  pose proof (Z.mod_pos_bound n d Hd) as Hr.
  set (q := n / d) in *. set (r := n mod d) in *.
  destruct (2 * r <? d) eqn:E1; [nia|].
  destruct (d <? 2 * r) eqn:E2; [nia|].
  destruct (Z.even q); nia.
Qed.

Lemma exponentOf_spec (a d : Z) :
  0 < a -> 0 < d ->
  (0 <= exponentOf a d -> d * 2 ^ exponentOf a d <= a)
  /\ (exponentOf a d < 0 -> d <= a * 2 ^ (- exponentOf a d)).
Proof.
  intros Ha Hd. unfold exponentOf.
  pose proof (Z.log2_spec a Ha) as [Ha1 Ha2].
  pose proof (Z.log2_spec d Hd) as [Hd1 Hd2].
  pose proof (Z.log2_nonneg a) as Hla. pose proof (Z.log2_nonneg d) as Hld.
  set (la := Z.log2 a) in *. set (ld := Z.log2 d) in *.
  set (k := la - ld).
  destruct (if 0 <=? k then d * 2 ^ k <=? a else d <=? a * 2 ^ (- k)) eqn:Hcheck.
  - destruct (0 <=? k) eqn:Hk; split; intros; lia.
  - assert (Hkdef : k = la - ld) by reflexivity. clearbody k.
    rewrite Z.pow_succ_r in Ha2, Hd2 by lia. clear Hcheck. split; intros Hs.
    + (* d * 2^(k-1) < 2^(ld+1) * 2^(k-1) = 2^la <= a *)
      assert (H2 : 2 ^ la = 2 ^ ld * 2 * 2 ^ (k - 1)).
      { replace la with (ld + 1 + (k - 1)) at 1 by lia.
        rewrite !Z.pow_add_r by lia. reflexivity. }
      pose proof (Z.pow_pos_nonneg 2 (k - 1) ltac:(lia) ltac:(lia)). nia.
    + assert (H2 : 2 ^ ld * 2 = 2 ^ la * 2 ^ (- (k - 1))).
      { replace (2 ^ ld * 2) with (2 ^ (ld + 1)) by (rewrite Z.pow_add_r by lia; reflexivity).
        rewrite <- Z.pow_add_r by lia. f_equal. lia. }
      pose proof (Z.pow_pos_nonneg 2 (- (k - 1)) ltac:(lia) ltac:(lia)). nia.
Qed.

(** The distance of [p / q] from [a / d], scaled to integers. *)
Lemma Qabs_diff_le (p q a d : Z) (b1 b2 : positive) :
  0 < q -> 0 < d -> 0 <= a ->
  Z.abs (p * d - a * q) * Z.pos b1 * Z.pos b2 <= a * q * Z.pos b2 + q * d * Z.pos b1 ->
  (Qabs ((p # Z.to_pos q) - (a # Z.to_pos d)) <= (a # Z.to_pos d) * (1 # b1) + (1 # b2))%Q.
Proof.
  intros Hq Hd Ha H.
  unfold Qle, Qabs, Qminus, Qplus, Qopp, Qmult. cbn [Qnum Qden].
  rewrite !Pos2Z.inj_mul, !Z2Pos.id by lia.
  replace (p * d + - a * q) with (p * d - a * q) by ring.
  set (X := Z.abs (p * d - a * q)) in *.
  assert (0 <= X) by apply Z.abs_nonneg.
  set (B1 := Z.pos b1) in *. set (B2 := Z.pos b2) in *.
  replace (X * (d * B1 * B2)) with ((X * B1 * B2) * d) by ring.
  replace ((a * 1 * B2 + 1 * (d * B1)) * (q * d)) with ((a * q * B2 + q * d * B1) * d) by ring.
  apply Z.mul_le_mono_nonneg_r; lia.
Qed.

(** The magnitude of the double nearest to [a / d]. *)
Lemma magnitude_error (a d : Z) :
  0 < a -> 0 < d ->
  let e := Z.max (exponentOf a d - 52) (-1074) in
  let magnitude :=
    if 0 <=? e
    then inject_Z (roundHalfEven a (d * 2 ^ e) * 2 ^ e)
    else Qmake (roundHalfEven (a * 2 ^ (- e)) d) (Z.to_pos (2 ^ (- e))) in
  (Qabs (magnitude - (a # Z.to_pos d)) <= (a # Z.to_pos d) * (1 # 2 ^ 53) + (1 # 2 ^ 1075))%Q.
Proof.
  intros Ha Hd e magnitude.
  destruct (exponentOf_spec a d Ha Hd) as [Hpos Hneg].
  set (E := exponentOf a d) in *.
  assert (H53 : Z.pos (2 ^ 53) = 2 * 2 ^ 52) by reflexivity.
  assert (H1075 : Z.pos (2 ^ 1075) = 2 * 2 ^ 1074) by (rewrite Pos2Z.inj_pow; reflexivity).
  assert (H52 : 0 < 2 ^ 52) by reflexivity.
  assert (H1074 : 0 < 2 ^ 1074) by (apply Z.pow_pos_nonneg; lia).
  unfold magnitude. destruct (0 <=? e) eqn:He.
  - (* a significand of 53 bits, scaled up *)
    assert (HE : 0 <= E) by lia. specialize (Hpos HE).
    assert (HEg : 2 ^ E = 2 ^ 52 * 2 ^ e).
    { rewrite <- Z.pow_add_r by lia. f_equal. lia. }
    assert (Hg : 0 < 2 ^ e) by (apply Z.pow_pos_nonneg; lia).
    set (g := 2 ^ e) in *.
    pose proof (roundHalfEven_spec a (d * g) ltac:(lia) ltac:(nia)) as Hr.
    set (m := roundHalfEven a (d * g)) in *.
    change (inject_Z (m * g)) with ((m * g) # Z.to_pos 1).
    apply Qabs_diff_le; [lia|lia|lia|].
    rewrite H53, H1075.
    replace (m * g * d - a * 1) with (m * (d * g) - a) by ring.
    set (X := Z.abs (m * (d * g) - a)) in *.
    assert (0 <= X) by apply Z.abs_nonneg.
    rewrite HEg in Hpos.
    set (S := 2 ^ 1074) in *. set (T := 2 ^ 52) in *.
    assert (HX : X * (2 * T) <= a) by nia.
    nia.
  - assert (Hf : 0 < 2 ^ (- e)) by (apply Z.pow_pos_nonneg; lia).
    assert (Hcases : 2 ^ (- e) = 2 ^ 1074 \/ 2 ^ 52 * d <= a * 2 ^ (- e)).
    { destruct (Z.max_spec (E - 52) (-1074)) as [[Hlt Hmax]|[Hge Hmax]]; fold e in Hmax.
      - left. by rewrite Hmax.
      - right. destruct (Z.lt_ge_cases E 0) as [HE|HE].
        + specialize (Hneg HE).
          assert (2 ^ (- e) = 2 ^ (- E) * 2 ^ 52) as ->.
          { rewrite <- Z.pow_add_r by lia. f_equal. lia. }
          pose proof (Z.pow_pos_nonneg 2 (- E) ltac:(lia) ltac:(lia)). nia.
        + specialize (Hpos HE).
          assert (2 ^ 52 = 2 ^ (- e) * 2 ^ E) as ->.
          { rewrite <- Z.pow_add_r by lia. f_equal. lia. }
          nia. }
    set (f := 2 ^ (- e)) in *.
    pose proof (roundHalfEven_spec (a * f) d ltac:(nia) Hd) as Hr.
    set (m := roundHalfEven (a * f) d) in *.
    apply Qabs_diff_le; [lia|lia|lia|].
    rewrite H53, H1075.
    set (X := Z.abs (m * d - a * f)) in *.
    assert (0 <= X) by apply Z.abs_nonneg.
    set (S := 2 ^ 1074) in *. set (T := 2 ^ 52) in *.
    destruct Hcases as [Hsub|Hnorm].
    + (* below the smallest normal number *) nia.
    + (* 53 bits, scaled down *)
      assert (HX : X * (2 * T) <= a * f) by nia.
      nia.
Qed.

(** Rounding to a double moves a number by at most its 2^-53th part, or
    by 2^-1075 where doubles are sparser than that. *)
Lemma double_error (x : Q) :
  (Qabs (double x - x) <= Qabs x * (1 # 2 ^ 53) + (1 # 2 ^ 1075))%Q.
Proof.
  destruct x as [[|p|p] d]; unfold double; cbn [Qnum Qden Z.eqb Z.ltb Z.compare Z.abs].
  - unfold Qle, Qabs, Qminus, Qplus, Qopp, Qmult. cbn. lia.
  - apply (magnitude_error (Z.pos p) (Z.pos d)); lia.
  - pose proof (magnitude_error (Z.pos p) (Z.pos d) ltac:(lia) ltac:(lia)) as H.
    cbv zeta in H. cbn [Z.to_pos] in H.
    match type of H with (Qabs (?m - ?P) <= _)%Q =>
      assert (Heq : (- m - (Z.neg p # d) == - (m - P))%Q) end.
    { unfold Qminus. change (- (Z.neg p # d))%Q with (Z.pos p # d).
      match goal with |- (- ?m + ?P == - (?m + - ?P))%Q =>
        generalize m; generalize P; intros P' m'; ring end. }
    rewrite Heq, Qabs_opp. exact H.
Qed.

(** The same, as bounds. *)
Lemma double_bounds (x : Q) :
  (0 <= x ->
   x - x * (1 # 2 ^ 53) - (1 # 2 ^ 60) <= double x
   /\ double x <= x + x * (1 # 2 ^ 53) + (1 # 2 ^ 60))%Q
  /\ (x <= 0 -> double x <= (1 # 2 ^ 60))%Q.
Proof.
  pose proof (double_error x) as H.
  assert (Ht : (0 < 1 # 2 ^ 1075 /\ (1 # 2 ^ 1075) <= 1 # 2 ^ 60)%Q).
  { split; [reflexivity|]. unfold Qle. cbn [Qnum Qden].
    rewrite !Z.mul_1_l, !Pos2Z.inj_pow. apply Z.pow_le_mono_r; lia. }
  destruct Ht as [Ht1 Ht2]. revert H Ht1 Ht2. generalize (1 # 2 ^ 1075)%Q. intros t H Ht1 Ht2.
  apply Qabs_Qle_condition in H. destruct H as [H1 H2].
  split; intros Hx.
  - rewrite Qabs_pos in H1, H2 by done. change (2 ^ 60)%positive with 1152921504606846976%positive in *.
    change (2 ^ 53)%positive with 9007199254740992%positive in *. split; lra.
  - rewrite Qabs_neg in H1, H2 by done. change (2 ^ 60)%positive with 1152921504606846976%positive in *.
    change (2 ^ 53)%positive with 9007199254740992%positive in *. lra.
Qed.

(** The tolerance of line 476, as the double it is. *)
Lemma tolerance_value : double (1 # 10) = (7205759403792794 # 72057594037927936)%Q.
Proof. vm_compute. reflexivity. Qed.

(** A quotient that stays clear of the tolerance is, as a double, below
    the double 0.1: the branch of the leading clone. *)
Lemma near_leading_clone (x margin : Q) :
  ((1 # 2 ^ 50) <= margin -> x <= (1 # 10) - margin -> double x < double (1 # 10))%Q.
Proof.
  intros Hm Hx. rewrite tolerance_value.
  destruct (double_bounds x) as [Hpos Hneg].
  change (2 ^ 60)%positive with 1152921504606846976%positive in *.
  change (2 ^ 53)%positive with 9007199254740992%positive in *.
  change (2 ^ 50)%positive with 1125899906842624%positive in *.
  destruct (Qlt_le_dec x 0) as [H0|H0].
  - specialize (Hneg ltac:(lra)). lra.
  - destruct (Hpos H0) as [_ Hup]. lra.
Qed.

(** A quotient that stays clear of [lastCloneIndex - 0.1] is, as a
    double, above that difference as the source computes it, and not
    below the tolerance: the branch of the trailing clone. *)
Lemma near_trailing_clone (x : Q) (lastCloneIndex : Z) :
  1 <= lastCloneIndex ->
  (inject_Z lastCloneIndex - (1 # 10) + inject_Z (lastCloneIndex + 1) / inject_Z (2 ^ 50) <= x ->
   double (1 # 10) <= double x
   /\ double (inject_Z lastCloneIndex - double (1 # 10)) < double x)%Q.
Proof.
  intros HL Hx. rewrite tolerance_value.
  assert (HLq : (1 <= inject_Z lastCloneIndex)%Q) by (by rewrite <- (Zle_Qle 1)).
  rewrite inject_Z_plus in Hx. change (inject_Z 1) with 1%Q in Hx.
  change (inject_Z (2 ^ 50)) with (1125899906842624 # 1)%Q in Hx.
  set (L := inject_Z lastCloneIndex) in *.
  assert (Hdiv : ((L + 1) / (1125899906842624 # 1) == (L + 1) * (1 # 1125899906842624))%Q)
    by (unfold Qdiv; reflexivity).
  rewrite Hdiv in Hx.
  destruct (double_bounds x) as [Hpos _].
  destruct (double_bounds (L - (7205759403792794 # 72057594037927936))) as [Hpos' _].
  change (2 ^ 60)%positive with 1152921504606846976%positive in *.
  change (2 ^ 53)%positive with 9007199254740992%positive in *.
  destruct (Hpos ltac:(lra)) as [Hlow _].
  destruct (Hpos' ltac:(lra)) as [_ Hup].
  split; lra.
Qed.

(** ** The clone jump, from the settle timer to the second frame *)

Create Rewrite HintDb host.

Lemma hostView_set {T} (proj : World -> T) `{!Setter proj} `{!Outside hostView proj} v w :
  hostView (w <| proj := v |>) = hostView w.
Proof. apply outside. Qed.
#[local] Hint Rewrite @hostView_set using (typeclasses eauto) : host.

Lemma hostView_with_pagination f w : hostView (with_pagination f w) = hostView w.
Proof. unfold with_pagination. by destruct (_cachedPagination w). Qed.

Lemma hostView_clearTimeout id w : hostView (clearTimeout id w) = hostView w.
Proof. by destruct id. Qed.

Lemma hostView_updatePagination w : hostView (_updatePagination w) = hostView w.
Proof. apply hostView_with_pagination. Qed.

#[local] Hint Rewrite hostView_with_pagination hostView_clearTimeout hostView_updatePagination
  : host.

Lemma hostView_startPaginationHideTimer w :
  hostView (_startPaginationHideTimer w) = hostView w.
Proof.
  unfold _startPaginationHideTimer. destruct (_config w) as [c|]; [|done].
  destruct (_ <=? 0); [done|]. unfold setTimeout. cbv beta iota zeta.
  by autorewrite with host.
Qed.

Lemma hostView_resetResetTimer w : hostView (_resetResetTimer w) = hostView w.
Proof.
  unfold _resetResetTimer. destruct (_config w) as [c|]; [|done].
  destruct (enable_reset_after c); cbn [negb]; [|done]. cbv zeta.
  destruct (_isAutoResetEnabled _); cbn [negb]; unfold setTimeout; cbv beta iota zeta;
    by autorewrite with host.
Qed.

#[local] Hint Rewrite hostView_startPaginationHideTimer hostView_resetResetTimer : host.

(** The outbound sync appends its write and leaves the rest of the view. *)
Lemma hostView_syncToStateEntity w :
  hostView (_syncToStateEntity w)
  = (_config w, _hass w, _realIndex w, now w,
     serviceCalls w ++ outboundWrite w (_realIndex w)).
Proof.
  unfold hostView, _syncToStateEntity, outboundWrite, boundValue.
  destruct (_config w) as [c|] eqn:Hc; cbn; [|by rewrite Hc, app_nil_r].
  destruct (state_entity c) as [entity|]; cbn; [|by rewrite Hc, app_nil_r].
  destruct (_hass w) as [hass|] eqn:Hh; cbn; [|by rewrite Hc, Hh, app_nil_r].
  destruct (String.prefix "input_number." entity) eqn:Hp; cbn.
  - rewrite (prefix_nonempty "input_number." entity) by done. cbn.
    unfold parseInt_opt.
    destruct (bool_decide _); cbn; by rewrite Hc, Hh, ?app_nil_r.
  - destruct (truthy_string entity); cbn; by rewrite Hc, Hh, app_nil_r.
Qed.

Lemma isAutoResetEnabled_hostView w w' :
  hostView w' = hostView w -> _isAutoResetEnabled w' = _isAutoResetEnabled w.
Proof. unfold hostView, _isAutoResetEnabled. by intros [= -> -> _ _ _]. Qed.

Lemma outboundWrite_hostView w w' k :
  hostView w' = hostView w -> outboundWrite w' k = outboundWrite w k.
Proof. unfold hostView, outboundWrite, boundValue. by intros [= -> -> _ _ _]. Qed.

(** What the post-settle effects leave of the view: the write of the
    outbound sync, at the real index of the settle. *)
Lemma hostView_settleEffects w c :
  _config w = Some c ->
  hostView (settleEffects w)
  = (_config w, _hass w, _realIndex w, now w,
     serviceCalls w ++ outboundWrite w (_realIndex w)).
Proof.
  intros Hc. unfold settleEffects. rewrite Hc. cbv zeta.
  rewrite hostView_with_pagination.
  destruct (auto_hide_pagination c >? 0), (enable_reset_after c);
    autorewrite with host; rewrite hostView_syncToStateEntity;
    pose proof (hostView_updatePagination w) as Hu;
    rewrite (outboundWrite_hostView _ _ _ Hu);
    unfold hostView in Hu; injection Hu as E1 E2 E3 E4 E5;
    by rewrite E1, E2, E3, E4, E5, Hc.
Qed.

Lemma pagination_with_pagination f w :
  pagination <$> shadowRoot (with_pagination f w)
  = (if _cachedPagination w then fmap f <$> (pagination <$> shadowRoot w)
     else pagination <$> shadowRoot w)
  /\ _cachedPagination (with_pagination f w) = _cachedPagination w.
Proof.
  unfold with_pagination, with_scroller.
  destruct (_cachedPagination w) eqn:E; [|done]. cbn. rewrite E.
  by destruct (shadowRoot w).
Qed.

(** The pagination after the post-settle effects. *)
Lemma pagination_settleEffects w c scroller :
  _config w = Some c ->
  shadowRoot w = Some scroller ->
  pagination <$> shadowRoot (settleEffects w)
  = Some (if _cachedPagination w
          then settledPagination (_realIndex w) <$> pagination scroller
          else pagination scroller).
Proof.
  intros Hc Hd. unfold settleEffects. rewrite Hc. cbv zeta.
  match goal with |- context [with_pagination ?f ?y] =>
    destruct (pagination_with_pagination f y) as [-> _];
    assert (Ht : tracking y = tracking (_updatePagination w))
  end.
  { destruct (auto_hide_pagination c >? 0), (enable_reset_after c);
      by autorewrite with tracking. }
  unfold tracking in Ht. injection Ht as _ _ _ -> -> _.
  unfold _updatePagination.
  match goal with |- context [with_pagination ?f w] =>
    destruct (pagination_with_pagination f w) as [-> ->] end.
  rewrite Hd. destruct (_cachedPagination w); [|done]. cbn.
  by destruct (pagination scroller) as [[]|].
Qed.

Lemma pending_view cb w w' : timerView w' = timerView w -> pending cb w' = pending cb w.
Proof. unfold timerView, pending. by intros [= -> _ _ _ _ _]. Qed.

(** Cancelling a timer leaves the pending timers of a callback alone
    when none of them is the cancelled one. *)
Lemma pending_clearTimeout_keep cb id w :
  (forall t, t ∈ pending cb w -> id <> Some (timer_id t)) ->
  pending cb (clearTimeout id w) = pending cb w.
Proof.
  destruct id as [i|]; [|done]. unfold pending. cbn.
  induction (timeouts w) as [|t l IH]; intros Hno; [done|].
  rewrite !filter_cons.
  destruct (decide (callback t = cb)) as [Hcb|Hcb].
  - rewrite decide_True.
    2:{ intros Heq. apply (Hno t); [|by rewrite Heq].
        rewrite filter_cons, decide_True by done. apply list_elem_of_here. }
    rewrite filter_cons, decide_True by done. f_equal. apply IH.
    intros t' Hin. apply Hno. rewrite filter_cons, decide_True by done.
    by apply list_elem_of_further.
  - assert (IH' : filter (fun t0 => callback t0 = cb) (filter (fun t0 => timer_id t0 <> i) l)
                  = filter (fun t0 => callback t0 = cb) l).
    { apply IH. intros t' Hin. apply Hno. by rewrite filter_cons, decide_False. }
    destruct (decide (timer_id t <> i)); [rewrite filter_cons, decide_False by done|]; done.
Qed.

Lemma pending_resetResetTimer w c :
  timers_ok w -> _config w = Some c -> enable_reset_after c = true ->
  pending ResetFires (_resetResetTimer w)
  = if _isAutoResetEnabled w
    then [{| timer_id := nextTimer w;
             due := now w + Z.max 0 (toLong (reset_after_timeout c));
             callback := ResetFires |}]
    else [].
Proof.
  intros Hok Hc He.
  pose proof (pending_clearTimeout_tracked ResetFires (_resetTimeout w) w Hok eq_refl) as Hnil.
  unfold _resetResetTimer. rewrite Hc, He. cbn [negb]. cbv zeta.
  rewrite isAutoResetEnabled_clearTimeout.
  destruct (_isAutoResetEnabled w); cbn [negb]; [|done].
  unfold setTimeout. cbv beta iota. unfold pending in *. cbn.
  rewrite filter_app, Hnil. cbn.
  rewrite decide_True by done. by destruct (_resetTimeout w).
Qed.

Lemma pending_startPaginationHideTimer w c :
  timers_ok w -> _config w = Some c -> 0 < auto_hide_pagination c ->
  pending HidePagination (_startPaginationHideTimer w)
  = [{| timer_id := nextTimer w;
        due := now w + Z.max 0 (toLong (auto_hide_pagination c));
        callback := HidePagination |}].
Proof.
  intros Hok Hc Hpos. unfold _startPaginationHideTimer. rewrite Hc.
  replace (auto_hide_pagination c <=? 0) with false by lia. cbv zeta.
  pose proof (pending_clearTimeout_tracked HidePagination (_paginationHideTimeout w) w
                Hok eq_refl) as Hnil.
  unfold setTimeout. cbv beta iota. unfold pending in *. cbn.
  rewrite filter_app, Hnil. cbn. rewrite decide_True by done.
  by destruct (_paginationHideTimeout w).
Qed.

(** The timers of the post-settle effects: the automatic reset is
    restarted first, the hiding of the pagination after it. *)
Lemma timers_settleEffects w c :
  timers_ok w -> _config w = Some c ->
  (enable_reset_after c = true ->
   pending ResetFires (settleEffects w)
   = if _isAutoResetEnabled w
     then [{| timer_id := nextTimer w;
              due := now w + Z.max 0 (toLong (reset_after_timeout c));
              callback := ResetFires |}]
     else [])
  /\ (0 < auto_hide_pagination c ->
      pending HidePagination (settleEffects w)
      = [{| timer_id := if enable_reset_after c && _isAutoResetEnabled w
                        then S (nextTimer w) else nextTimer w;
            due := now w + Z.max 0 (toLong (auto_hide_pagination c));
            callback := HidePagination |}]).
Proof.
  intros Hok Hc. unfold settleEffects. rewrite Hc. cbv zeta.
  set (w2 := _syncToStateEntity (_updatePagination w)).
  assert (Hv : timerView w2 = timerView w) by (unfold w2; by autorewrite with timers).
  assert (Hh : (_config w2, _hass w2, now w2) = (_config w, _hass w, now w)).
  { pose proof (hostView_syncToStateEntity (_updatePagination w)) as H1.
    pose proof (hostView_updatePagination w) as H2. fold w2 in H1.
    unfold hostView in H1, H2. injection H1 as -> -> _ -> _. by injection H2 as -> -> _ -> _. }
  injection Hh as Hc2 Hh2 Hn2. rewrite Hc in Hc2.
  assert (Hok2 : timers_ok w2) by (by apply (timers_ok_view w)).
  assert (Hauto : _isAutoResetEnabled w2 = _isAutoResetEnabled w).
  { unfold _isAutoResetEnabled. by rewrite Hc2, Hh2, Hc. }
  assert (Hnext : nextTimer w2 = nextTimer w) by (unfold timerView in Hv; congruence).
  assert (Hhide : _paginationHideTimeout w2 = _paginationHideTimeout w)
    by (unfold timerView in Hv; congruence).
  match goal with |- context [with_pagination ?f _] =>
    assert (Hlast : forall cb y, pending cb (with_pagination f y) = pending cb y)
      by (intros; apply pending_view, timerView_with_pagination) end.
  rewrite !Hlast.
  destruct (enable_reset_after c) eqn:He.
  - (* the reset is restarted *)
    pose proof (pending_resetResetTimer w2 c Hok2 Hc2 He) as Hreset.
    rewrite Hauto, Hnext, Hn2 in Hreset.
    pose proof (timers_ok_resetResetTimer w2 Hok2) as Hok3.
    assert (Hfields : nextTimer (_resetResetTimer w2)
                      = (if _isAutoResetEnabled w then S (nextTimer w) else nextTimer w)
                      /\ _paginationHideTimeout (_resetResetTimer w2)
                         = _paginationHideTimeout w
                      /\ now (_resetResetTimer w2) = now w
                      /\ _config (_resetResetTimer w2) = Some c).
    { rewrite <- Hauto, <- Hnext, <- Hhide, <- Hn2.
      unfold _resetResetTimer. rewrite Hc2, He. cbn [negb]. cbv zeta.
      rewrite isAutoResetEnabled_clearTimeout.
      destruct (_isAutoResetEnabled w2); cbn [negb]; destruct (_resetTimeout w2); by cbn. }
    destruct Hfields as (Hn3 & Hh3 & Hnow3 & Hc3).
    set (w3 := _resetResetTimer w2) in *.
    split.
    + intros _. destruct (auto_hide_pagination c >? 0) eqn:Hpos; [|exact Hreset].
      rewrite <- Hreset. unfold _startPaginationHideTimer. rewrite Hc3.
      replace (auto_hide_pagination c <=? 0) with false by lia. cbv zeta.
      match goal with |- context [setTimeout ?cb' ?d ?x] =>
        pose proof (pending_setTimeout_other ResetFires cb' d x) as Hs;
        destruct (setTimeout cb' d x) as [id w4] end.
      cbn [snd] in Hs.
      change (pending ResetFires (w4 <| _paginationHideTimeout := Some id |>))
        with (pending ResetFires w4).
      rewrite Hs by done. apply pending_clearTimeout_keep.
      intros t Hin. rewrite Hreset in Hin. rewrite Hh3.
      destruct (_isAutoResetEnabled w); [|by apply elem_of_nil in Hin].
      apply list_elem_of_singleton in Hin. subst t. cbn.
      destruct Hok as (_ & _ & Hkept). intros Heq.
      specialize (Hkept HidePagination (nextTimer w) (f_equal Some Heq)). lia.
    + intros Hpos. replace (auto_hide_pagination c >? 0) with true by lia.
      rewrite (pending_startPaginationHideTimer w3 c Hok3 Hc3 Hpos), Hn3, Hnow3. cbn.
      by destruct (_isAutoResetEnabled w).
  - split; [done|]. intros Hpos. replace (auto_hide_pagination c >? 0) with true by lia.
    rewrite (pending_startPaginationHideTimer w2 c Hok2 Hc2 Hpos), Hnext, Hn2. done.
Qed.

(** The timer with a given id, among timers with distinct ids. *)
Lemma fired_timer (ts : list Timeout) (t : Timeout) :
  NoDup (timer_id <$> ts) -> t ∈ ts ->
  filter (fun t' => timer_id t' = timer_id t) ts = [t].
Proof.
  induction ts as [|a l IH]; intros Hnd Hin; [by apply elem_of_nil in Hin|].
  rewrite fmap_cons in Hnd. apply NoDup_cons in Hnd as [Hnot Hnd].
  rewrite filter_cons. apply elem_of_cons in Hin as [->|Hin].
  - rewrite decide_True by done. f_equal.
    apply elem_of_nil_inv. intros t' [Hid Hin']%list_elem_of_filter.
    apply Hnot. rewrite <- Hid. apply list_elem_of_fmap. by exists t'.
  - rewrite decide_False; [by apply IH|].
    intros Heq. apply Hnot. rewrite Heq. apply list_elem_of_fmap. by exists t.
Qed.

(** The settle timer, due, runs [_onScrollEnd]. *)
Lemma settle_timer_fires helpers w settle :
  timers_ok w -> settle ∈ timeouts w -> callback settle = ScrollEnd -> due settle <= now w ->
  step helpers (TimerFires (timer_id settle)) w
  = Some (_onScrollEnd (timerTaken (timer_id settle) w)).
Proof.
  intros (Hnd & _ & _) Hin Hcb Hdue. unfold step.
  rewrite (fired_timer _ _ Hnd Hin).
  replace (due settle <=? now w) with true by lia. by rewrite Hcb.
Qed.

Lemma roundingMargin_pos (n : Z) : 0 < n -> (0 < roundingMargin n)%Q.
Proof.
  intros Hn. unfold roundingMargin. apply Qlt_shift_div_l.
  - reflexivity.
  - rewrite Qmult_0_l. change 0%Q with (inject_Z 0). by rewrite <- Zlt_Qlt.
Qed.



(** At the tolerance itself rounding decides.  The offset 295.8 is, as a
    double, a little more than 2.9 slides of 102 pixels, so that the
    exact quotient is less than 0.1 from the trailing clone; but the
    quotient rounds to the double 2.9, which is what [3 - 0.1] rounds
    to as well, the comparison of line 495 fails and no jump starts. *)
Lemma settle_at_the_tolerance_does_not_jump :
  exists w,
    run allCards restAtTheTolerance (constructor 0) = Some w
    /\ Qltb (Qabs (exactIndexOf w (scrollerOf w) - 3)) (1 # 10) = true
    /\ _isInfiniteMode w = true
    /\ length (slides (scrollerOf w)) = 4%nat
    /\ _jumping w = false
    /\ rafQueue w = []
    /\ position w = (2, 3, false, true, Some true).
Proof.
  exists (after allCards restAtTheTolerance). evaluate.
Qed.

